(** * Back-Git-Up: a shallow embedding of [main.py]

    The script enumerates the repositories a GitHub token can see
    ([get_github_repos]), clones or pulls each of them below a base
    directory ([clone_or_update_repo]), prints a summary ([main]) and
    repeats the whole pass every 24 hours (the [__main__] block).

    Everything the script does to the outside world goes through four
    channels: HTTP requests, external [git] processes, the filesystem and
    the terminal.  The embedding threads a [world] (filesystem plus the
    chronological trace of events) through a small state-and-exception
    monad; the answers of the network and of [git] are supplied by an
    environment [env], so each theorem holds for every behaviour of the
    forge and of the version-control tool. *)

From Stdlib Require Import ZArith QArith String Ascii List Lia.
From Stdlib Require Import DecimalString DecimalNat DecimalFacts.
From stdpp Require Import gmap strings list.

Open Scope string_scope.

(* ===================================================================== *)
(** ** Python strings *)
(* ===================================================================== *)

Module PyStr.

(** [str(n)] for a non-negative and for an arbitrary integer. *)
Definition of_nat (n : nat) : string := NilZero.string_of_uint (Nat.to_uint n).
Definition of_Z (z : Z) : string := NilZero.string_of_int (Z.to_int z).

(** [s * n] *)
Fixpoint repeat (s : string) (n : nat) : string :=
  match n with
  | O => ""
  | S k => s ++ repeat s k
  end.

(** [s.startswith(p)] *)
Fixpoint startswith (p s : string) : bool :=
  match p, s with
  | EmptyString, _ => true
  | String a p', String b s' => if Ascii.eqb a b then startswith p' s' else false
  | String _ _, EmptyString => false
  end.

(** [s.replace(old, new)] for a non-empty [old]: occurrences are found
    left to right and do not overlap.  [skip] counts the characters of
    the occurrence just replaced that are still to be dropped. *)
Fixpoint replace_from (old new : string) (skip : nat) (s : string) : string :=
  match s with
  | EmptyString => EmptyString
  | String c s' =>
      match skip with
      | S k => replace_from old new k s'
      | O =>
          if startswith old s
          then new ++ replace_from old new (String.length old - 1) s'
          else String c (replace_from old new 0 s')
      end
  end.

Definition replace (old new s : string) : string := replace_from old new 0 s.

(** [s.split(sep)] for a one-character separator. *)
Fixpoint split (sep : ascii) (s : string) : list string :=
  match s with
  | EmptyString => [EmptyString]
  | String c s' =>
      if Ascii.eqb c sep then EmptyString :: split sep s'
      else match split sep s' with
           | x :: xs => String c x :: xs
           | [] => [String c EmptyString]
           end
  end.

(** [sep.join(l)] *)
Fixpoint join (sep : string) (l : list string) : string :=
  match l with
  | [] => ""
  | [x] => x
  | x :: xs => x ++ sep ++ join sep xs
  end.

(** The ASCII characters [str.strip()] removes: tab, line feed, vertical
    tab, form feed, carriage return, the four separators 28..31 and the
    space. *)
Definition isspace (c : ascii) : bool :=
  let n := nat_of_ascii c in
  ((9 <=? n)%nat && (n <=? 13)%nat) || ((28 <=? n)%nat && (n <=? 32)%nat).

Fixpoint lstrip (s : string) : string :=
  match s with
  | String c s' => if isspace c then lstrip s' else s
  | EmptyString => EmptyString
  end.

Fixpoint rstrip (s : string) : string :=
  match s with
  | EmptyString => EmptyString
  | String c s' =>
      match rstrip s' with
      | EmptyString => if isspace c then EmptyString else String c EmptyString
      | t => String c t
      end
  end.

Definition strip (s : string) : string := rstrip (lstrip s).

(** Truth value of a string: [bool(s)]. *)
Definition truthy (s : string) : bool :=
  match s with EmptyString => false | _ => true end.

End PyStr.

(* ===================================================================== *)
(** ** [pathlib]: pure POSIX paths *)
(* ===================================================================== *)

(** A parsed path: the root (the empty string for a relative path, one
    slash, or two slashes) and the components after it. *)
Record Path : Type := mkPath { root : string; parts : list string }.

#[global] Instance Path_eq_dec : EqDecision Path.
Proof. solve_decision. Defined.

#[global] Instance Path_countable : Countable Path.
Proof.
  refine (inj_countable' (fun p => (root p, parts p))
                         (fun t => mkPath (fst t) (snd t)) _).
  intros [r ps]; reflexivity.
Defined.

Module PurePath.

Definition slash : ascii := "/"%char.

(** The root of a path string: exactly two leading slashes are kept,
    any other positive number of them collapses to one. *)
Definition root_of (s : string) : string :=
  match s with
  | String a (String b (String c _)) =>
      if Ascii.eqb a slash
      then if Ascii.eqb b slash
           then if Ascii.eqb c slash then "/" else "//"
           else "/"
      else ""
  | String a (String b EmptyString) =>
      if Ascii.eqb a slash then if Ascii.eqb b slash then "//" else "/" else ""
  | String a EmptyString => if Ascii.eqb a slash then "/" else ""
  | EmptyString => ""
  end.

(** A component survives parsing when it is neither empty nor a dot. *)
Definition keeps (x : string) : bool :=
  negb (String.eqb x "") && negb (String.eqb x ".").

Definition parts_of (s : string) : list string :=
  List.filter keeps (PyStr.split slash s).

(** [Path(s)] *)
Definition parse (s : string) : Path := mkPath (root_of s) (parts_of s).

(** [p / s]: a rooted right operand replaces the left one. *)
Definition div (p : Path) (s : string) : Path :=
  match root_of s with
  | EmptyString => mkPath (root p) (parts p ++ parts_of s)
  | r => mkPath r (parts_of s)
  end.

(** [str(p)] *)
Definition str (p : Path) : string :=
  match root p ++ PyStr.join "/" (parts p) with
  | EmptyString => "."
  | s => s
  end.

(** [p.parent]: a path without components is its own parent. *)
Definition parent (p : Path) : Path :=
  match parts p with
  | [] => p
  | _ => mkPath (root p) (removelast (parts p))
  end.

(** [p.absolute()] in working directory [cwd]. *)
Definition absolute (cwd p : Path) : Path :=
  match root p with
  | EmptyString => mkPath (root cwd) (parts cwd ++ parts p)
  | _ => p
  end.

End PurePath.

(* ===================================================================== *)
(** ** The outside world *)
(* ===================================================================== *)

(** One element of the JSON array the forge returns.  Every repository
    object of the listing endpoint carries the two keys below, with
    string values, and the script reads nothing else; so the dictionary
    is a record, and a lookup of either key cannot fail. *)
Record repo_data : Type := mkRepo { full_name : string; clone_url : string }.

(** A raised Python exception: [type(e).__name__] and [str(e)].
    [subprocess.TimeoutExpired] is the class the script catches apart. *)
Record exn : Type := Exn { exn_class : string; exn_msg : string }.

Definition is_timeout (e : exn) : bool := String.eqb (exn_class e) "TimeoutExpired".
Definition is_not_found (e : exn) : bool := String.eqb (exn_class e) "FileNotFoundError".

(** What [requests.get] hands back: status, body text, and the decoded
    body ([response.json()] raises when the body is not JSON). *)
Record response : Type :=
  mkResponse { status_code : Z; text : string; json : exn + list repo_data }.

Inductive http_result : Type :=
| Response (r : response)
| HttpError (e : exn).

(** How [subprocess.run(argv, capture_output=True, text=True, timeout=t)]
    ends: the child exits, the timeout expires, or the call itself raises
    (no [git] executable, undecodable output, ...). *)
Inductive proc_result : Type :=
| Completed (returncode : Z) (stdout stderr : string)
| TimedOut
| SpawnFailed (e : exn).

Inductive kind : Type := File | Dir.

(** Everything observable, in the order it happens. *)
Inductive event : Type :=
| Print (line : string)
| TqdmWrite (line : string)
| PbarOpen (total : nat)
| PbarDesc (desc : string)
| PbarUpdate (n : nat)
| PbarClose
| HttpGet (url : string) (headers : list (string * string))
| Sleep (seconds : Q)
| Mkdir (p : Path) (parents exist_ok : bool)
| Run (argv : list string) (timeout : Z).

(** The filesystem maps the paths that exist to what they are; [trace]
    is the history, oldest event first. *)
Record world : Type := mkWorld { fs : gmap Path kind; trace : list event }.

(** The forge and the version-control tool.  Both may answer from the
    whole history, and [git] may change the filesystem. *)
Record env : Type := mkEnv {
  http : list event -> string -> list (string * string) -> http_result;
  git : list event -> gmap Path kind -> list string -> proc_result * gmap Path kind
}.

(** Process inputs of one pass: the command line flag, the environment
    after [load_dotenv()], and the working directory. *)
Record config : Type := mkConfig {
  arg_verbose : bool;
  GITHUB_TOKEN : option string;
  REPOS_DIR : option string;
  cwd : Path
}.

(* ===================================================================== *)
(** ** State, exceptions and fuel *)
(* ===================================================================== *)

(** A computation returns, raises, or is still inside a [while True]
    when the fuel it was given is spent. *)
Inductive outcome (A : Type) : Type :=
| Ok (a : A)
| Raise (e : exn)
| OutOfFuel.

Arguments Ok {A} a.
Arguments Raise {A} e.
Arguments OutOfFuel {A}.

Definition M (A : Type) : Type := world -> outcome A * world.

Definition ret {A} (a : A) : M A := fun w => (Ok a, w).

Definition bind {A B} (c : M A) (k : A -> M B) : M B :=
  fun w =>
    match c w with
    | (Ok a, w') => k a w'
    | (Raise e, w') => (Raise e, w')
    | (OutOfFuel, w') => (OutOfFuel, w')
    end.

Definition raise {A} (e : exn) : M A := fun w => (Raise e, w).

Definition out_of_fuel {A} : M A := fun w => (OutOfFuel, w).

(** [try: body except ...: handler e] *)
Definition try_except {A} (body : M A) (handler : exn -> M A) : M A :=
  fun w =>
    match body w with
    | (Raise e, w') => handler e w'
    | r => r
    end.

Declare Scope py_scope.
Delimit Scope py_scope with py.
Notation "x <- c ;; k" := (bind c (fun x => k))
  (at level 100, c at next level, right associativity) : py_scope.
Notation "c ;; k" := (bind c (fun _ => k))
  (at level 100, right associativity) : py_scope.
Open Scope py_scope.

Definition emit (e : event) : M unit :=
  fun w => (Ok tt, mkWorld (fs w) (trace w ++ [e])%list).

(** [if cond: stmt] *)
Definition when (cond : bool) (c : M unit) : M unit :=
  if cond then c else ret tt.

Definition print (line : string) : M unit := emit (Print line).
Definition tqdm_write (line : string) : M unit := emit (TqdmWrite line).
Definition time_sleep (seconds : Q) : M unit := emit (Sleep seconds).

Definition nl : string := String (ascii_of_nat 10) EmptyString.

(* ===================================================================== *)
(** ** Filesystem calls *)
(* ===================================================================== *)

Module Fs.

(** A path without components is the working directory or the root,
    which are always there. *)
Definition entry (m : gmap Path kind) (p : Path) : option kind :=
  match parts p with
  | [] => Some Dir
  | _ => m !! p
  end.

(** [p.exists()] and [p.is_dir()] *)
Definition exists_ (m : gmap Path kind) (p : Path) : bool :=
  match entry m p with Some _ => true | None => false end.

Definition is_dir (m : gmap Path kind) (p : Path) : bool :=
  match entry m p with Some Dir => true | _ => false end.

Definition os_error (cls : string) (errno : nat) (what : string) (p : Path) : exn :=
  Exn cls ("[Errno " ++ PyStr.of_nat errno ++ "] " ++ what ++ ": '" ++ PurePath.str p ++ "'").

(** [os.mkdir(p)] *)
Definition os_mkdir (m : gmap Path kind) (p : Path) : exn + gmap Path kind :=
  match parts p with
  | [] => inl (os_error "FileExistsError" 17 "File exists" p)
  | _ =>
      match entry m (PurePath.parent p) with
      | None => inl (os_error "FileNotFoundError" 2 "No such file or directory" p)
      | Some File => inl (os_error "NotADirectoryError" 20 "Not a directory" p)
      | Some Dir =>
          match entry m p with
          | Some _ => inl (os_error "FileExistsError" 17 "File exists" p)
          | None => inr (<[p := Dir]> m)
          end
      end
  end.

(** [Path.mkdir(parents, exist_ok)]: try [os.mkdir]; when the parent is
    missing and [parents] is set, make the parent first and try again
    without [parents]; any other error is swallowed only if [exist_ok]
    is set and the path is a directory.  [depth] bounds the climb and
    is the number of components of the path. *)
Fixpoint mkdir_at (depth : nat) (parents exist_ok : bool)
         (m : gmap Path kind) (p : Path) : exn + gmap Path kind :=
  let retry_without_parents (m1 : gmap Path kind) :=
    match os_mkdir m1 p with
    | inr m2 => inr m2
    | inl e =>
        if is_not_found e then inl e
        else if negb exist_ok || negb (is_dir m1 p) then inl e else inr m1
    end in
  match os_mkdir m p with
  | inr m' => inr m'
  | inl e =>
      if is_not_found e then
        if negb parents || bool_decide (PurePath.parent p = p) then inl e
        else match depth with
             | O => inl e
             | S d =>
                 match mkdir_at d true true m (PurePath.parent p) with
                 | inl e' => inl e'
                 | inr m1 => retry_without_parents m1
                 end
             end
      else if negb exist_ok || negb (is_dir m p) then inl e else inr m
  end.

Definition mkdir (parents exist_ok : bool) (m : gmap Path kind) (p : Path)
  : exn + gmap Path kind :=
  mkdir_at (List.length (parts p)) parents exist_ok m p.

End Fs.

Definition path_mkdir (p : Path) (parents exist_ok : bool) : M unit :=
  fun w =>
    let tr := (trace w ++ [Mkdir p parents exist_ok])%list in
    match Fs.mkdir parents exist_ok (fs w) p with
    | inr m => (Ok tt, mkWorld m tr)
    | inl e => (Raise e, mkWorld (fs w) tr)
    end.

Definition path_exists (p : Path) : M bool :=
  fun w => (Ok (Fs.exists_ (fs w) p), w).

(* ===================================================================== *)
(** ** Network and processes *)
(* ===================================================================== *)

Section Program.

Variable E : env.

(** [requests.get(url, headers=headers)] *)
Definition requests_get (url : string) (headers : list (string * string)) : M response :=
  fun w =>
    let w1 := mkWorld (fs w) (trace w ++ [HttpGet url headers])%list in
    match http E (trace w) url headers with
    | Response r => (Ok r, w1)
    | HttpError e => (Raise e, w1)
    end.

(** [response.json()] *)
Definition response_json (r : response) : M (list repo_data) :=
  match json r with
  | inr l => ret l
  | inl e => raise e
  end.

(** [subprocess.run(argv, capture_output=True, text=True, timeout=t)]:
    a completed process is returned, the other two endings raise.  The
    message of [TimeoutExpired] is left empty: the script never reads
    it. *)
Definition subprocess_run (argv : list string) (timeout : Z) : M (Z * string * string) :=
  fun w =>
    let '(r, m) := git E (trace w) (fs w) argv in
    let w1 := mkWorld m (trace w ++ [Run argv timeout])%list in
    match r with
    | Completed rc out err => (Ok (rc, out, err), w1)
    | TimedOut => (Raise (Exn "TimeoutExpired" ""), w1)
    | SpawnFailed e => (Raise e, w1)
    end.

(* =================================================================== *)
(** ** [get_github_repos] *)
(* =================================================================== *)

Definition per_page : nat := 100.

Definition api_headers (token : string) : list (string * string) :=
  [("Authorization", "token " ++ token);
   ("Accept", "application/vnd.github.v3+json")].

Definition api_url (page : nat) : string :=
  "https://api.github.com/user/repos?page=" ++ PyStr.of_nat page
  ++ "&per_page=" ++ PyStr.of_nat per_page
  ++ "&affiliation=owner,collaborator,organization_member".

Definition api_error (r : response) : exn :=
  Exn "Exception"
      ("GitHub API error: " ++ PyStr.of_Z (status_code r) ++ " - " ++ text r).

(** The [while True] loop; [repos] and [page] are its two variables. *)
Fixpoint fetch_pages (fuel : nat) (token : string) (verbose : bool)
         (repos : list repo_data) (page : nat) : M (list repo_data) :=
  match fuel with
  | O => out_of_fuel
  | S fuel' =>
      when verbose
        (print ("[VERBOSE] Requesting page " ++ PyStr.of_nat page
                ++ " from GitHub API..."));;
      r <- requests_get (api_url page) (api_headers token);;
      if negb (status_code r =? 200)%Z then raise (api_error r)
      else
        page_repos <- response_json r;;
        match page_repos with
        | [] =>
            when verbose
              (print ("[VERBOSE] No more repos found on page "
                      ++ PyStr.of_nat page ++ ", stopping pagination"));;
            ret repos
        | _ =>
            let repos' := (repos ++ page_repos)%list in
            print ("  Found " ++ PyStr.of_nat (List.length repos')
                   ++ " repositories so far...");;
            when verbose (print "[VERBOSE] Sleeping 0.5s before next request...");;
            time_sleep (1 # 2);;
            fetch_pages fuel' token verbose repos' (S page)
        end
  end.

Definition get_github_repos (fuel : nat) (token : string) (verbose : bool)
  : M (list repo_data) :=
  when verbose (print "[VERBOSE] Preparing GitHub API request...");;
  print "Fetching repository list from GitHub...";;
  fetch_pages fuel token verbose [] 1.

(* =================================================================== *)
(** ** [clone_or_update_repo] *)
(* =================================================================== *)

Definition git_timeout : Z := 300.

(** [clone_url.replace("https://", f"https://{token}@")] *)
Definition authenticated_url (clone_url token : string) : string :=
  PyStr.replace "https://" ("https://" ++ token ++ "@") clone_url.

(** [base_dir / repo_name] *)
Definition repo_path (base_dir : Path) (repo : repo_data) : Path :=
  PurePath.div base_dir (full_name repo).

Definition pull_argv (p : Path) : list string :=
  ["git"; "-C"; PurePath.str p; "pull"].

Definition clone_argv (url : string) (p : Path) : list string :=
  ["git"; "clone"; url; PurePath.str p].

(** Truth value of the progress bar argument: [None] is false and a
    bar is true exactly when its total is positive. *)
Definition pbar_truthy (pbar : option nat) : bool :=
  match pbar with
  | Some total => (0 <? total)%nat
  | None => false
  end.

(** The three verbose lines printed after either [git] call. *)
Definition report_git (what : string) (rc : Z) (out err : string) : M unit :=
  tqdm_write ("[VERBOSE] Git " ++ what ++ " exit code: " ++ PyStr.of_Z rc);;
  when (PyStr.truthy out)
    (tqdm_write ("[VERBOSE] Git stdout: " ++ PyStr.strip out));;
  when (PyStr.truthy err)
    (tqdm_write ("[VERBOSE] Git stderr: " ++ PyStr.strip err)).

(** The body of the [try]. *)
Definition clone_or_update_body (repo : repo_data) (base_dir : Path)
           (token : string) (verbose : bool) (pbar : option nat) : M bool :=
  let repo_name := full_name repo in
  let p := repo_path base_dir repo in
  present <- path_exists p;;
  if present then
    when verbose
      (tqdm_write ("[VERBOSE] Repository exists at " ++ PurePath.str p
                   ++ ", performing git pull..."));;
    when (pbar_truthy pbar) (emit (PbarDesc ("Updating " ++ repo_name)));;
    result <- subprocess_run (pull_argv p) git_timeout;;
    let '(rc, out, err) := result in
    when verbose (report_git "pull" rc out err);;
    if negb (rc =? 0)%Z then
      tqdm_write ("Failed to update " ++ repo_name ++ ": " ++ PyStr.strip err);;
      ret false
    else ret true
  else
    when verbose
      (tqdm_write "[VERBOSE] Repository does not exist, performing git clone...";;
       tqdm_write ("[VERBOSE] Creating parent directory: "
                   ++ PurePath.str (PurePath.parent p)));;
    when (pbar_truthy pbar) (emit (PbarDesc ("Cloning " ++ repo_name)));;
    path_mkdir (PurePath.parent p) true true;;
    result <- subprocess_run
                (clone_argv (authenticated_url (clone_url repo) token) p)
                git_timeout;;
    let '(rc, out, err) := result in
    when verbose (report_git "clone" rc out err);;
    if negb (rc =? 0)%Z then
      tqdm_write ("Failed to clone " ++ repo_name ++ ": " ++ PyStr.strip err);;
      ret false
    else ret true.

(** The two [except] clauses. *)
Definition clone_or_update_handler (repo : repo_data) (verbose : bool)
           (e : exn) : M bool :=
  let repo_name := full_name repo in
  if is_timeout e then
    when verbose
      (tqdm_write "[VERBOSE] Git operation timed out after 300 seconds");;
    tqdm_write ("Timeout for " ++ repo_name);;
    ret false
  else
    when verbose
      (tqdm_write ("[VERBOSE] Exception occurred: " ++ exn_class e
                   ++ ": " ++ exn_msg e));;
    tqdm_write ("Error with " ++ repo_name ++ ": " ++ exn_msg e);;
    ret false.

Definition clone_or_update_repo (repo : repo_data) (base_dir : Path)
           (token : string) (verbose : bool) (pbar : option nat) : M bool :=
  let p := repo_path base_dir repo in
  when verbose
    (tqdm_write ("[VERBOSE] Repository: " ++ full_name repo);;
     tqdm_write ("[VERBOSE] Clone URL: " ++ clone_url repo);;
     tqdm_write ("[VERBOSE] Target path: " ++ PurePath.str p);;
     tqdm_write "[VERBOSE] Using authenticated URL for git operations");;
  try_except (clone_or_update_body repo base_dir token verbose pbar)
             (clone_or_update_handler repo verbose).

(* =================================================================== *)
(** ** [main] and the driver loop *)
(* =================================================================== *)

(** The [for repo in repos] loop with its two counters. *)
Fixpoint process_repos (repos : list repo_data) (base_dir : Path)
         (token : string) (verbose : bool) (pbar : option nat)
         (success_count fail_count : nat) : M (nat * nat) :=
  match repos with
  | [] => ret (success_count, fail_count)
  | repo :: rest =>
      when verbose
        (tqdm_write (nl ++ "[VERBOSE] ========== Processing "
                     ++ full_name repo ++ " ==========="));;
      ok <- clone_or_update_repo repo base_dir token verbose pbar;;
      emit (PbarUpdate 1);;
      if ok
      then process_repos rest base_dir token verbose pbar (S success_count) fail_count
      else process_repos rest base_dir token verbose pbar success_count (S fail_count)
  end.

(** [with tqdm(total=...) as pbar: body]: the bar is closed on every
    way out of the block. *)
Definition with_tqdm {A} (total : nat) (body : option nat -> M A) : M A :=
  emit (PbarOpen total);;
  fun w =>
    match body (Some total) w with
    | (r, w') => (r, mkWorld (fs w') (trace w' ++ [PbarClose])%list)
    end.

(** The verbose listing of the repository names, numbered from [i].
    On the records of the model the subscript [repo['full_name']] cannot
    fail; [print_object_list] below is the same loop on the objects as
    decoded, where it can. *)
Fixpoint print_repo_list (i : nat) (repos : list repo_data) : M unit :=
  match repos with
  | [] => ret tt
  | repo :: rest =>
      print ("[VERBOSE]   " ++ PyStr.of_nat i ++ ". " ++ full_name repo);;
      print_repo_list (S i) rest
  end.

Definition rule : string := PyStr.repeat "=" 60.

(** The body of the [try] in [main] up to the end of the loop: the
    enumeration, then one [clone_or_update_repo] per repository. *)
Definition pass_counts (fuel : nat) (token : string) (base_dir : Path)
           (verbose : bool) : M (nat * nat) :=
  repos <- get_github_repos fuel token verbose;;
  print (nl ++ "Found " ++ PyStr.of_nat (List.length repos)
         ++ " total repositories" ++ nl);;
  when verbose
    (print "[VERBOSE] Repository list:";;
     print_repo_list 1 repos;;
     print "");;
  when verbose (print "[VERBOSE] Starting clone/update process...");;
  with_tqdm (List.length repos)
    (fun pbar => process_repos repos base_dir token verbose pbar 0 0).

(** The summary and the value returned. *)
Definition summary (verbose : bool) (counts : nat * nat) : M Z :=
  let '(success_count, fail_count) := counts in
  when verbose (print (nl ++ "[VERBOSE] Processing complete, generating summary..."));;
  print (nl ++ rule);;
  print ("Successfully processed: " ++ PyStr.of_nat success_count);;
  when (0 <? fail_count)%nat (print ("Failed: " ++ PyStr.of_nat fail_count));;
  print rule;;
  ret (if (fail_count =? 0)%nat then 0%Z else 1%Z).

Definition main_body (fuel : nat) (token : string) (base_dir : Path)
           (verbose : bool) : M Z :=
  counts <- pass_counts fuel token base_dir verbose;;
  summary verbose counts.

(** The [except Exception] clause of [main]. *)
Definition main_handler (verbose : bool) (e : exn) : M Z :=
  when verbose (print (nl ++ "[VERBOSE] Fatal exception: " ++ exn_class e));;
  print (nl ++ "Fatal error: " ++ exn_msg e);;
  ret 1%Z.

(** [main] before its [try]: the token and the base directory, or
    [None] where the script gives up with [return 1]. *)
Definition main_setup (cfg : config) : M (option (string * Path)) :=
  let verbose := arg_verbose cfg in
  when verbose (print "[VERBOSE] Verbose mode enabled");;
  when verbose (print "[VERBOSE] Loading .env file...");;
  when verbose (print "[VERBOSE] Reading GITHUB_TOKEN from environment...");;
  match GITHUB_TOKEN cfg with
  | None | Some EmptyString =>
      print "Error: GITHUB_TOKEN not found in .env file or environment";;
      print "Create a .env file with: GITHUB_TOKEN=your_token_here";;
      ret None
  | Some token =>
      when verbose
        (print ("[VERBOSE] Token found (length: "
                ++ PyStr.of_nat (String.length token) ++ " characters)"));;
      let base_dir :=
        PurePath.parse (match REPOS_DIR cfg with Some d => d | None => "repos" end) in
      let shown := PurePath.str (PurePath.absolute (cwd cfg) base_dir) in
      when verbose
        (print ("[VERBOSE] Target directory: " ++ shown);;
         print "[VERBOSE] Creating directory if it doesn't exist...");;
      path_mkdir base_dir false true;;
      print ("Back-Git-Up - Backing up repositories to " ++ shown ++ nl);;
      ret (Some (token, base_dir))
  end.

Definition main (fuel : nat) (cfg : config) : M Z :=
  setup <- main_setup cfg;;
  match setup with
  | None => ret 1%Z
  | Some (token, base_dir) =>
      try_except (main_body fuel token base_dir (arg_verbose cfg))
                 (main_handler (arg_verbose cfg))
  end.

Definition one_day : Q := inject_Z (24 * 60 * 60).

(** The [while True] of the [__main__] block, unrolled [passes] times;
    the value [main] returns is dropped. *)
Fixpoint driver (passes fuel : nat) (cfg : config) : M unit :=
  match passes with
  | O => ret tt
  | S k =>
      main fuel cfg;;
      print "Sleeping for 24 hours before next backup...";;
      time_sleep one_day;;
      driver k fuel cfg
  end.

End Program.

(* ===================================================================== *)
(** ** Reading traces *)
(* ===================================================================== *)

(** The external processes of a trace, with their timeouts. *)
Definition runs (evs : list event) : list (list string * Z) :=
  flat_map (fun e => match e with Run argv t => [(argv, t)] | _ => [] end) evs.

(** The URLs requested. *)
Definition requests (evs : list event) : list string :=
  flat_map (fun e => match e with HttpGet url _ => [url] | _ => [] end) evs.

(** The pauses taken. *)
Definition sleeps (evs : list event) : list Q :=
  flat_map (fun e => match e with Sleep q => [q] | _ => [] end) evs.

(** What the script itself asks of the filesystem and of [git]. *)
Definition is_action (e : event) : bool :=
  match e with
  | Mkdir _ _ _ | Run _ _ => true
  | _ => false
  end.

Definition actions (evs : list event) : list event := List.filter is_action evs.

(** The lines written through [tqdm.write]. *)
Definition written (evs : list event) : list string :=
  flat_map (fun e => match e with TqdmWrite s => [s] | _ => [] end) evs.

(** Pacing of requests: every request but the first comes after a pause
    of at least [delay] seconds taken since the request before it.
    [rested] tells whether such a pause has been taken. *)
Fixpoint paced_from (delay : Q) (rested : bool) (evs : list event) : bool :=
  match evs with
  | [] => true
  | HttpGet _ _ :: rest => rested && paced_from delay false rest
  | Sleep q :: rest => paced_from delay (rested || Qle_bool delay q) rest
  | _ :: rest => paced_from delay rested rest
  end.

Definition paced (delay : Q) (evs : list event) : bool := paced_from delay true evs.

(** The status the interpreter leaves once the driver has stopped: an
    uncaught exception ends the process with status 1; a driver that
    has completed the iterations it was unrolled for, or that sits in
    the enumeration loop, is still running and has left none. *)
Definition exit_status {A} (r : outcome A) : option Z :=
  match r with
  | Raise _ => Some 1%Z
  | Ok _ | OutOfFuel => None
  end.

(** A working copy, as far as the filesystem shows it: the directory
    holds a [.git] entry.  The script never asks this question; the
    definition serves to state what it does with a directory that is
    not one. *)
Definition is_working_copy (m : gmap Path kind) (p : Path) : bool :=
  Fs.exists_ m (PurePath.div p ".git").

(** A full name as the forge gives it: [owner/name]. *)
Definition owner_name (owner name : string) : string := owner ++ "/" ++ name.

(* ===================================================================== *)
(** ** Sample forges, tools and filesystems *)
(* ===================================================================== *)

Module Sample.

(** [n] descriptors [octo/r<i>], numbered from [i]. *)
Fixpoint descriptors (i n : nat) : list repo_data :=
  match n with
  | O => []
  | S k =>
      let name := "octo/r" ++ PyStr.of_nat i in
      mkRepo name ("https://github.com/" ++ name ++ ".git") :: descriptors (S i) k
  end.

(** The page a listing URL asks for, among [pages] numbered from [i];
    past the last page the forge answers with an empty array. *)
Fixpoint page_at (pages : list (list repo_data)) (i : nat) (url : string)
  : list repo_data :=
  match pages with
  | [] => []
  | pg :: rest => if String.eqb url (api_url i) then pg else page_at rest (S i) url
  end.

Definition paged_forge (pages : list (list repo_data))
  : list event -> string -> list (string * string) -> http_result :=
  fun _ url _ => Response (mkResponse 200 "" (inr (page_at pages 1 url))).

(** A forge that answers every request with the given status. *)
Definition failing_forge (status : Z) (body : string)
  : list event -> string -> list (string * string) -> http_result :=
  fun _ _ _ =>
    Response (mkResponse status body (inl (Exn "JSONDecodeError" "Expecting value"))).

(** A [git] that succeeds: [clone] creates the target directory with
    its [.git], [pull] changes nothing. *)
Definition git_ok : list event -> gmap Path kind -> list string
                    -> proc_result * gmap Path kind :=
  fun _ m argv =>
    match argv with
    | ["git"; "clone"; _; target] =>
        let p := PurePath.parse target in
        (Completed 0 "" ("Cloning into '" ++ target ++ "'..." ++ nl),
         <[PurePath.div p ".git" := Dir]> (<[p := Dir]> m))
    | _ => (Completed 0 ("Already up to date." ++ nl) "", m)
    end.

(** A [git] that exits with the given status and message and leaves
    the filesystem as it is. *)
Definition git_exit (rc : Z) (err : string)
  : list event -> gmap Path kind -> list string -> proc_result * gmap Path kind :=
  fun _ m _ => (Completed rc "" err, m).

(** A [git] that never answers within the timeout. *)
Definition git_hangs : list event -> gmap Path kind -> list string
                       -> proc_result * gmap Path kind :=
  fun _ m _ => (TimedOut, m).

(** A system without a [git] executable. *)
Definition git_missing : list event -> gmap Path kind -> list string
                         -> proc_result * gmap Path kind :=
  fun _ m _ =>
    (SpawnFailed (Exn "FileNotFoundError"
                      "[Errno 2] No such file or directory: 'git'"), m).

Definition alice_foo : repo_data :=
  mkRepo "alice/foo" "https://github.com/alice/foo.git".
Definition bob_bar : repo_data :=
  mkRepo "bob/bar" "https://github.com/bob/bar.git".

Definition repos_dir : Path := mkPath "" ["repos"].

(** An empty mirror, and a mirror where [repos/alice/foo] is a plain
    directory without a [.git]. *)
Definition empty_mirror : world :=
  mkWorld {[ repos_dir := Dir ]} [].

Definition collided_mirror : world :=
  mkWorld (<[mkPath "" ["repos"; "alice"; "foo"] := Dir]>
             (<[mkPath "" ["repos"; "alice"] := Dir]> {[ repos_dir := Dir ]})) [].

(** A mirror that holds a working copy of [alice/foo]. *)
Definition cloned_mirror : world :=
  mkWorld (<[mkPath "" ["repos"; "alice"; "foo"; ".git"] := Dir]> (fs collided_mirror)) [].

Definition cli (verbose : bool) (token : option string) : config :=
  mkConfig verbose token None (mkPath "/" ["home"; "octo"]).

(** The forge lists [alice/foo] and [bob/bar] on one page. *)
Definition two_repos : list event -> string -> list (string * string) -> http_result :=
  paged_forge [[alice_foo; bob_bar]].

(** What [git pull] says in a directory that is not a working copy. *)
Definition not_a_repository : string :=
  "fatal: not a git repository (or any of the parent directories): .git" ++ nl.

Definition env_not_a_repository : env :=
  mkEnv two_repos (git_exit 128 not_a_repository).

Definition env_ok : env := mkEnv two_repos git_ok.

(** Three pages of 100, 100 and 37 descriptors. *)
Definition three_pages : list (list repo_data) :=
  [descriptors 0 100; descriptors 100 100; descriptors 200 37].

Definition env_three_pages : env := mkEnv (paged_forge three_pages) git_ok.

Definition three_page_listing : outcome (list repo_data) * world :=
  get_github_repos env_three_pages 10 "TOKEN" false empty_mirror.

(** Two ways for [git pull] to fail in a working copy: the local
    branch has diverged from the remote one, or the credential is
    refused. *)
Definition diverged : string :=
  "hint: You have divergent branches and need to specify how to reconcile them."
  ++ nl ++ "fatal: Need to specify how to reconcile divergent branches." ++ nl.

Definition refused : string :=
  "fatal: Authentication failed for 'https://github.com/alice/foo.git/'" ++ nl.

Definition pull_failing_with (rc : Z) (err : string) : outcome bool * world :=
  clone_or_update_repo (mkEnv two_repos (git_exit rc err)) alice_foo repos_dir
    "TOKEN" false None cloned_mirror.

(** The first clone of [alice/foo] into an empty mirror with the
    given token. *)
Definition clone_with_token (token : string) : outcome bool * world :=
  clone_or_update_repo env_ok alice_foo repos_dir token false None empty_mirror.

(** A clone that fails in an empty mirror. *)
Definition env_clone_fails : env :=
  mkEnv two_repos (git_exit 128 ("fatal: unable to access the remote" ++ nl)).

Definition failed_clone : outcome bool * world :=
  clone_or_update_repo env_clone_fails alice_foo repos_dir "TOKEN" false None
    empty_mirror.

(** The same clone on a system without [git]. *)
Definition clone_without_git : outcome bool * world :=
  clone_or_update_repo (mkEnv two_repos git_missing) alice_foo repos_dir "TOKEN"
    false None empty_mirror.

(** A forge that answers with 429, too many requests. *)
Definition env_rate_limited : env :=
  mkEnv (failing_forge 429 "API rate limit exceeded") git_ok.

Definition rate_limited_listing : outcome (list repo_data) * world :=
  get_github_repos env_rate_limited 10 "TOKEN" false empty_mirror.

(** Passes of the whole script in an empty mirror. *)
Definition env_hangs : env := mkEnv two_repos git_hangs.

Definition first_pass (E : env) : outcome Z * world :=
  main E 10 (cli false (Some "TOKEN")) empty_mirror.


Definition collision_call : outcome bool * world :=
  clone_or_update_repo env_not_a_repository alice_foo repos_dir "TOKEN"
    false None collided_mirror.

End Sample.

(* ===================================================================== *)
(** ** Vocabulary of the statements *)
(* ===================================================================== *)

(** [only P c]: whatever [c] does, the trace grows by events that all
    satisfy [P]. *)
Definition only (P : event -> Prop) {A} (c : M A) : Prop :=
  forall w, exists evs, trace (snd (c w)) = (trace w ++ evs)%list /\ Forall P evs.

Definition is_run (e : event) : bool :=
  match e with Run _ _ => true | _ => false end.

(** No process is spawned. *)
Definition no_process (e : event) : Prop := is_run e = false.

(** Every process spawned runs under the 300 second timeout. *)
Definition bounded_process (e : event) : Prop :=
  match e with Run _ t => t = git_timeout | _ => True end.

(** A spawned process counts as a success exactly when it exits with
    status 0. *)
Definition succeeded (r : proc_result) : bool :=
  match r with
  | Completed rc _ _ => (rc =? 0)%Z
  | TimedOut | SpawnFailed _ => false
  end.

(** The line written for an exception caught by the two [except]
    clauses. *)
Definition raised_line (name : string) (e : exn) : string :=
  if is_timeout e then "Timeout for " ++ name
  else "Error with " ++ name ++ ": " ++ exn_msg e.

(** The lines written, outside verbose mode, for the way a [git] call
    ended; [what] is "update" or "clone". *)
Definition failure_lines (what name : string) (r : proc_result) : list string :=
  match r with
  | Completed rc _ err =>
      if (rc =? 0)%Z then []
      else ["Failed to " ++ what ++ " " ++ name ++ ": " ++ PyStr.strip err]
  | TimedOut => ["Timeout for " ++ name]
  | SpawnFailed e => [raised_line name e]
  end.

(** The lines of a trace that are not verbose diagnostics. *)
Definition plain (evs : list event) : list string :=
  List.filter (fun s => negb (PyStr.startswith "[VERBOSE]" s)) (written evs).

(** The forge [E] answers the request for page [i + 1] with status 200
    and the [i]-th of [pages]; past the last of them the page is empty. *)
Definition serves (E : env) (token : string) (pages : list (list repo_data)) : Prop :=
  forall hist i,
    exists r,
      http E hist (api_url (S i)) (api_headers token) = Response r
      /\ status_code r = 200%Z
      /\ json r = inr (nth i pages []).

(** A plain component of a path: not empty, not "." and not "..". *)
Definition plain_component (x : string) : bool :=
  PurePath.keeps x && negb (String.eqb x "..").

(** A full name the forge can give: exactly two plain components around
    one slash. *)
Definition well_named (s : string) : bool :=
  match PyStr.split PurePath.slash s with
  | [owner; name] => plain_component owner && plain_component name
  | _ => false
  end.

(* ===================================================================== *)
(** ** The listing as the forge sends it *)
(* ===================================================================== *)

(** A value of a decoded JSON object, as far as the script can tell
    values apart: a string, or anything else, of which the name of the
    Python type and the text [str] gives are kept. *)
Inductive json_value : Type :=
| JString (s : string)
| JOther (type_name shown : string).

(** [str(v)], as an f-string shows the value. *)
Definition json_str (v : json_value) : string :=
  match v with
  | JString s => s
  | JOther _ shown => shown
  end.

(** [d[key]] on a dictionary without that key. *)
Definition key_error (key : string) : exn := Exn "KeyError" ("'" ++ key ++ "'").

(** The first statements of [clone_or_update_repo], before its [try]:
    the two subscripts, then [clone_url.replace] and [base_dir / repo_name],
    which need strings. *)
Definition read_descriptor (obj : gmap string json_value) : M repo_data :=
  match obj !! "full_name" with
  | None => raise (key_error "full_name")
  | Some name =>
      match obj !! "clone_url" with
      | None => raise (key_error "clone_url")
      | Some url =>
          match url with
          | JOther ty _ =>
              raise (Exn "AttributeError"
                         ("'" ++ ty ++ "' object has no attribute 'replace'"))
          | JString u =>
              match name with
              | JOther ty _ =>
                  raise (Exn "TypeError"
                             ("unsupported operand type(s) for /: 'PosixPath' and '"
                              ++ ty ++ "'"))
              | JString n => ret (mkRepo n u)
              end
          end
      end
  end.

(** [clone_or_update_repo] on an element of the listing as decoded. *)
Definition clone_or_update_object (E : env) (obj : gmap string json_value)
           (base_dir : Path) (token : string) (verbose : bool) (pbar : option nat)
  : M bool :=
  repo <- read_descriptor obj;;
  clone_or_update_repo E repo base_dir token verbose pbar.

(** The [for repo in repos] loop of [main] on the listing as decoded. *)
Fixpoint process_objects (E : env) (objs : list (gmap string json_value))
         (base_dir : Path) (token : string) (verbose : bool) (pbar : option nat)
         (success_count fail_count : nat) : M (nat * nat) :=
  match objs with
  | [] => ret (success_count, fail_count)
  | obj :: rest =>
      when verbose
        (match obj !! "full_name" with
         | None => raise (key_error "full_name")
         | Some name =>
             tqdm_write (nl ++ "[VERBOSE] ========== Processing "
                         ++ json_str name ++ " ===========")
         end);;
      ok <- clone_or_update_object E obj base_dir token verbose pbar;;
      emit (PbarUpdate 1);;
      if ok
      then process_objects E rest base_dir token verbose pbar (S success_count) fail_count
      else process_objects E rest base_dir token verbose pbar success_count (S fail_count)
  end.

(** The object holds the two keys of the descriptor, as strings. *)
Definition holds (obj : gmap string json_value) (repo : repo_data) : Prop :=
  obj !! "full_name" = Some (JString (full_name repo))
  /\ obj !! "clone_url" = Some (JString (clone_url repo)).

(** The object of a descriptor, with the identifier the forge adds. *)
Definition object_of (repo : repo_data) : gmap string json_value :=
  <["full_name" := JString (full_name repo)]>
    (<["clone_url" := JString (clone_url repo)]>
       {[ "id" := JOther "int" "1296269" ]}).

(* ===================================================================== *)
(** ** More vocabulary *)
(* ===================================================================== *)

(** The headers sent with the requests of a trace. *)
Definition request_headers (evs : list event) : list (list (string * string)) :=
  flat_map (fun e => match e with HttpGet _ h => [h] | _ => [] end) evs.

(** The lines printed with [print]. *)
Definition printed (evs : list event) : list string :=
  flat_map (fun e => match e with Print s => [s] | _ => [] end) evs.

(** The descriptions set on the progress bar. *)
Definition descriptions (evs : list event) : list string :=
  flat_map (fun e => match e with PbarDesc s => [s] | _ => [] end) evs.

(** Whether [old] occurs somewhere in [s]. *)
Fixpoint occurs (old s : string) : bool :=
  PyStr.startswith old s
  || match s with
     | EmptyString => false
     | String _ s' => occurs old s'
     end.

(** The request for page [i] cannot be turned into a list of
    descriptors, and [e] is the exception this raises in the loop: the
    request itself raises [e], or the status is not 200 and [e] is the
    API error made of the response, or the body does not decode and
    [response.json()] raises [e]. *)
Definition page_fails (E : env) (token : string) (i : nat) (e : exn) : Prop :=
  forall hist,
    match http E hist (api_url i) (api_headers token) with
    | HttpError e' => e' = e
    | Response r =>
        if (status_code r =? 200)%Z then json r = inl e else e = api_error r
    end.

(** The request for page [i] is answered with status 200 and the
    descriptors [pg]. *)
Definition page_is (E : env) (token : string) (i : nat) (pg : list repo_data) : Prop :=
  forall hist,
    exists r,
      http E hist (api_url i) (api_headers token) = Response r
      /\ status_code r = 200%Z
      /\ json r = inr pg.

(** The base directory [main] works in. *)
Definition base_dir_of (cfg : config) : Path :=
  PurePath.parse (match REPOS_DIR cfg with Some d => d | None => "repos" end).


(** A line that reports the failure of one repository: the three
    messages of [clone_or_update_repo] that are not verbose
    diagnostics. *)
Definition is_report (line : string) : bool :=
  PyStr.startswith "Failed to update " line
  || PyStr.startswith "Failed to clone " line
  || PyStr.startswith "Timeout for " line
  || PyStr.startswith "Error with " line.

Definition reports (evs : list event) : list string :=
  List.filter is_report (written evs).

(** The number of times the progress bar was advanced. *)
Definition bar_steps (evs : list event) : nat :=
  List.length (List.filter (fun e => match e with PbarUpdate _ => true | _ => false end) evs).

(** A description of the progress bar names the repository. *)
Definition describes (d : string) (repo : repo_data) : Prop :=
  d = "Updating " ++ full_name repo \/ d = "Cloning " ++ full_name repo.

(** What the progress bar shows for a descriptor: "Updating" when its
    target path exists, "Cloning" when it does not. *)
Definition description (m : gmap Path kind) (base_dir : Path) (repo : repo_data) : string :=
  (if Fs.exists_ m (repo_path base_dir repo) then "Updating " else "Cloning ")
  ++ full_name repo.

(** A line of verbose diagnostics: it starts with the tag, possibly
    after a line feed, or it is the empty line printed after the
    verbose listing. *)
Definition is_verbose_line (s : string) : bool :=
  PyStr.startswith "[VERBOSE]" s
  || PyStr.startswith (nl ++ "[VERBOSE]") s
  || String.eqb s "".

Definition is_diagnostic (e : event) : bool :=
  match e with
  | Print s | TqdmWrite s => is_verbose_line s
  | _ => false
  end.

(** An event that is not a verbose diagnostic. *)
Definition plain_event (e : event) : Prop := is_diagnostic e = false.

(** A trace without its verbose diagnostics. *)
Definition without_diagnostics (evs : list event) : list event :=
  List.filter (fun e => negb (is_diagnostic e)) evs.

(** The forge and [git] do not read the verbose diagnostics of the
    script: histories that differ in them only get the same answers. *)
Definition deaf_to_diagnostics (E : env) : Prop :=
  forall h h',
    without_diagnostics h = without_diagnostics h' ->
    (forall url headers, http E h url headers = http E h' url headers)
    /\ (forall m argv, git E h m argv = git E h' m argv).

(** The same process inputs with another [--verbose]. *)
Definition with_verbose (b : bool) (cfg : config) : config :=
  mkConfig b (GITHUB_TOKEN cfg) (REPOS_DIR cfg) (cwd cfg).

(** Two worlds that differ in verbose diagnostics only. *)
Definition agree (wv wq : world) : Prop :=
  fs wv = fs wq
  /\ without_diagnostics (trace wv) = without_diagnostics (trace wq).

(** [sim cv cq]: from worlds that agree, the two computations end the
    same way in worlds that agree. *)
Definition sim {A} (cv cq : M A) : Prop :=
  forall wv wq,
    agree wv wq ->
    fst (cv wv) = fst (cq wq) /\ agree (snd (cv wv)) (snd (cq wq)).

(** [chatter c]: [c] returns after writing diagnostics and nothing
    else. *)
Definition chatter (c : M unit) : Prop :=
  forall w,
    exists evs,
      c w = (Ok tt, mkWorld (fs w) (trace w ++ evs))
      /\ without_diagnostics evs = [].

(** [git] never removes an entry of the filesystem nor changes what it
    is. *)
Definition git_keeps_entries (E : env) : Prop :=
  forall hist m argv, m ⊆ snd (git E hist m argv).

(** [c] never removes an entry of the filesystem nor changes what it
    is. *)
Definition keeps_entries {A} (c : M A) : Prop :=
  forall w, fs w ⊆ fs (snd (c w)).

(** What one call asks of the filesystem and of [git] for a
    descriptor, all of it aimed at the target path of the descriptor: a
    pull inside the target; or the directory above the target and a
    clone into the target; or that directory alone, when it could not be
    made. *)
Definition acts_on (base_dir : Path) (token : string) (repo : repo_data)
           (acts : list event) : Prop :=
  let p := repo_path base_dir repo in
  acts = [Run (pull_argv p) git_timeout]
  \/ acts = [Mkdir (PurePath.parent p) true true;
             Run (clone_argv (authenticated_url (clone_url repo) token) p) git_timeout]
  \/ acts = [Mkdir (PurePath.parent p) true true].

(** The verbose listing of [main] on the objects as decoded: the
    subscript [repo['full_name']] of the f-string raises when the key is
    missing. *)
Fixpoint print_object_list (i : nat) (objs : list (gmap string json_value)) : M unit :=
  match objs with
  | [] => ret tt
  | obj :: rest =>
      match obj !! "full_name" with
      | None => raise (key_error "full_name")
      | Some name =>
          print ("[VERBOSE]   " ++ PyStr.of_nat i ++ ". " ++ json_str name);;
          print_object_list (S i) rest
      end
  end.

(** The [try] of [main] from the point where [get_github_repos] has
    returned the decoded listing [objs], up to the end of the loop. *)
Definition listed_counts (E : env) (objs : list (gmap string json_value))
           (token : string) (base_dir : Path) (verbose : bool) : M (nat * nat) :=
  print (nl ++ "Found " ++ PyStr.of_nat (List.length objs)
         ++ " total repositories" ++ nl);;
  when verbose
    (print "[VERBOSE] Repository list:";;
     print_object_list 1 objs;;
     print "");;
  when verbose (print "[VERBOSE] Starting clone/update process...");;
  with_tqdm (List.length objs)
    (fun pbar => process_objects E objs base_dir token verbose pbar 0 0).

(** The rest of the pass on the decoded listing: the loop, the summary,
    and the [except Exception] clause of [main] around them. *)
Definition pass_on_listing (E : env) (objs : list (gmap string json_value))
           (token : string) (base_dir : Path) (verbose : bool) : M Z :=
  try_except
    (counts <- listed_counts E objs token base_dir verbose;;
     summary verbose counts)
    (main_handler verbose).

Module More.

(** A forge whose connection fails on the third page, after two full
    pages. *)
Definition breaks_on_third : list event -> string -> list (string * string) -> http_result :=
  fun _ url _ =>
    if String.eqb url (api_url 3)
    then HttpError (Exn "ConnectionError" "Connection aborted.")
    else Response (mkResponse 200 ""
                     (inr (Sample.page_at [Sample.descriptors 0 100;
                                           Sample.descriptors 100 100] 1 url))).

(** A forge that never runs out of repositories. *)
Definition endless : list event -> string -> list (string * string) -> http_result :=
  fun _ _ _ => Response (mkResponse 200 "" (inr [Sample.alice_foo])).


(** An environment that asks for a mirror below a directory that does
    not exist. *)
Definition nested_cli : config :=
  mkConfig false (Some "TOKEN") (Some "backups/github") (mkPath "/" ["home"; "octo"]).

Definition env_breaks_on_third : env := mkEnv breaks_on_third Sample.git_ok.


(** An object of the listing that lacks its full name. *)
Definition nameless : gmap string json_value :=
  {[ "clone_url" := JString "https://github.com/bob/bar.git" ]}.


(** Two full names that differ and are the same path, and a full name
    that is a rooted path. *)
Definition alice_slash_foo : repo_data :=
  mkRepo "alice//foo" "https://github.com/alice/foo.git".

Definition rooted : repo_data :=
  mkRepo "/etc/cron.d" "https://github.com/etc/cron.d.git".

Definition same_target_twice : outcome (nat * nat) * world :=
  process_repos Sample.env_ok [Sample.alice_foo; alice_slash_foo] Sample.repos_dir
    "TOKEN" false None 0 0 Sample.empty_mirror.

(** A mirror where [repos/alice] is a regular file. *)
Definition owner_is_a_file : world :=
  mkWorld (<[mkPath "" ["repos"; "alice"] := File]> {[ Sample.repos_dir := Dir ]}) [].

(** A listing of three objects, the second without its full name. *)
Definition broken_listing : list (gmap string json_value) :=
  [object_of Sample.alice_foo; nameless; object_of Sample.bob_bar].

(** A [git] that times out on [alice/foo] and works for the others. *)
Definition git_hangs_on_alice : list event -> gmap Path kind -> list string
                                -> proc_result * gmap Path kind :=
  fun hist m argv =>
    match argv with
    | ["git"; "clone"; "https://TOKEN@github.com/alice/foo.git"; _] => (TimedOut, m)
    | ["git"; "-C"; "repos/alice/foo"; "pull"] => (TimedOut, m)
    | _ => Sample.git_ok hist m argv
    end.

Definition env_hangs_on_alice : env := mkEnv Sample.two_repos git_hangs_on_alice.

End More.

(* ===================================================================== *)
(** * Properties *)
(* ===================================================================== *)

(** ** The string and path functions on examples *)

Example parse_nested :
  PurePath.parse "repos//alice/./foo/" = mkPath "" ["repos"; "alice"; "foo"].
Proof. reflexivity. Qed.

Example div_full_name :
  PurePath.str (PurePath.div (PurePath.parse "repos") "alice/foo") = "repos/alice/foo".
Proof. reflexivity. Qed.

Example div_rooted :
  PurePath.div (PurePath.parse "repos") "/etc/passwd" = mkPath "/" ["etc"; "passwd"].
Proof. reflexivity. Qed.

Example replace_all :
  PyStr.replace "https://" "https://T@" "https://github.com/a/b.git"
  = "https://T@github.com/a/b.git".
Proof. reflexivity. Qed.

Example strip_both : PyStr.strip (" fatal: not a repo " ++ nl) = "fatal: not a repo".
Proof. reflexivity. Qed.

Example mkdir_parents_creates_chain :
  Fs.mkdir true true ∅ (mkPath "" ["repos"; "alice"])
  = inr (<[mkPath "" ["repos"; "alice"] := Dir]> (<[mkPath "" ["repos"] := Dir]> ∅)).
Proof. reflexivity. Qed.

Example mkdir_without_parents_fails :
  Fs.mkdir false true ∅ (mkPath "" ["repos"; "alice"])
  = inl (Exn "FileNotFoundError" "[Errno 2] No such file or directory: 'repos/alice'").
Proof. reflexivity. Qed.

(** ** Events a computation may add to the trace *)

Section Only.

Variable P : event -> Prop.

Lemma only_ret {A} (a : A) : only P (ret a).
Proof. intros w; exists []; simpl; rewrite app_nil_r; auto. Qed.

Lemma only_raise {A} (e : exn) : only P (@raise A e).
Proof. intros w; exists []; simpl; rewrite app_nil_r; auto. Qed.

Lemma only_out_of_fuel {A} : only P (@out_of_fuel A).
Proof. intros w; exists []; simpl; rewrite app_nil_r; auto. Qed.

Lemma only_emit (e : event) : P e -> only P (emit e).
Proof. intros He w; exists [e]; simpl; auto. Qed.

Lemma only_bind {A B} (c : M A) (k : A -> M B) :
  only P c -> (forall a, only P (k a)) -> only P (bind c k).
Proof.
  intros Hc Hk w. unfold bind.
  destruct (Hc w) as (e1 & H1 & F1).
  destruct (c w) as [[a | e | ] w1]; simpl in *.
  - destruct (Hk a w1) as (e2 & H2 & F2).
    exists (e1 ++ e2)%list. rewrite H2, H1, app_assoc.
    split; [reflexivity | apply Forall_app; auto].
  - exists e1; auto.
  - exists e1; auto.
Qed.

Lemma only_when (b : bool) (c : M unit) : only P c -> only P (when b c).
Proof. destruct b; simpl; auto using only_ret. Qed.

Lemma only_try_except {A} (body : M A) (handler : exn -> M A) :
  only P body -> (forall e, only P (handler e)) -> only P (try_except body handler).
Proof.
  intros Hc Hk w. unfold try_except.
  destruct (Hc w) as (e1 & H1 & F1).
  destruct (body w) as [[a | e | ] w1]; simpl in *.
  - exists e1; auto.
  - destruct (Hk e w1) as (e2 & H2 & F2).
    exists (e1 ++ e2)%list. rewrite H2, H1, app_assoc.
    split; [reflexivity | apply Forall_app; auto].
  - exists e1; auto.
Qed.

Lemma only_path_exists (p : Path) : only P (path_exists p).
Proof. intros w; exists []; simpl; rewrite app_nil_r; auto. Qed.

Lemma only_path_mkdir (p : Path) (parents exist_ok : bool) :
  P (Mkdir p parents exist_ok) -> only P (path_mkdir p parents exist_ok).
Proof.
  intros He w; exists [Mkdir p parents exist_ok]. unfold path_mkdir.
  destruct (Fs.mkdir _ _ _ _); simpl; auto.
Qed.

Lemma only_requests_get E url headers :
  P (HttpGet url headers) -> only P (requests_get E url headers).
Proof.
  intros He w; exists [HttpGet url headers]. unfold requests_get.
  destruct (http _ _ _ _); simpl; auto.
Qed.

Lemma only_response_json r : only P (response_json r).
Proof. unfold response_json. destruct (json r); auto using only_ret, only_raise. Qed.

Lemma only_subprocess_run E argv t :
  P (Run argv t) -> only P (subprocess_run E argv t).
Proof.
  intros He w; exists [Run argv t]. unfold subprocess_run.
  destruct (git _ _ _ _) as [[rc out err | | e] m]; simpl; auto.
Qed.

Lemma only_with_tqdm {A} total (body : option nat -> M A) :
  P (PbarOpen total) -> P PbarClose ->
  (forall pbar, only P (body pbar)) -> only P (with_tqdm total body).
Proof.
  intros Ho Hc Hb. unfold with_tqdm. apply only_bind; [apply only_emit, Ho |].
  intros _ w. destruct (Hb (Some total) w) as (evs & H & F).
  destruct (body (Some total) w) as [r w1]; simpl in *.
  exists (evs ++ [PbarClose])%list. rewrite H, app_assoc.
  split; [reflexivity | apply Forall_app; auto].
Qed.

End Only.

Ltac only_step :=
  match goal with
  | |- only _ (bind _ _) => apply only_bind; [ | intros ? ]
  | |- only _ (ret _) => apply only_ret
  | |- only _ (raise _) => apply only_raise
  | |- only _ out_of_fuel => apply only_out_of_fuel
  | |- only _ (when _ _) => apply only_when
  | |- only _ (emit _) => apply only_emit
  | |- only _ (print _) => apply only_emit
  | |- only _ (tqdm_write _) => apply only_emit
  | |- only _ (time_sleep _) => apply only_emit
  | |- only _ (path_exists _) => apply only_path_exists
  | |- only _ (path_mkdir _ _ _) => apply only_path_mkdir
  | |- only _ (requests_get _ _ _) => apply only_requests_get
  | |- only _ (response_json _) => apply only_response_json
  | |- only _ (subprocess_run _ _ _) => apply only_subprocess_run
  | |- only _ (try_except _ _) => apply only_try_except; [ | intros ? ]
  | |- only _ (with_tqdm _ _) => apply only_with_tqdm; [ | | intros ? ]
  | |- only _ (if ?b then _ else _) => destruct b
  | |- only _ (match ?x with _ => _ end) => destruct x
  end.

Section OnlyProgram.

Variable E : env.
Variable P : event -> Prop.
Hypothesis P_other : forall e, is_run e = false -> P e.

Lemma only_fetch_pages fuel token verbose repos page :
  only P (fetch_pages E fuel token verbose repos page).
Proof.
  revert repos page.
  induction fuel as [| fuel IH]; intros repos page; simpl;
    repeat only_step; auto.
Qed.

Lemma only_get_github_repos fuel token verbose :
  only P (get_github_repos E fuel token verbose).
Proof.
  unfold get_github_repos; repeat only_step; auto using only_fetch_pages.
Qed.

Lemma only_main_setup cfg : only P (main_setup cfg).
Proof. unfold main_setup; repeat only_step; auto. Qed.

Lemma only_main_handler verbose e : only P (main_handler verbose e).
Proof. unfold main_handler; repeat only_step; auto. Qed.

Lemma only_print_repo_list i repos : only P (print_repo_list i repos).
Proof.
  revert i; induction repos as [| r rest IH]; intros i; simpl;
    repeat only_step; auto.
Qed.

Lemma only_summary verbose counts : only P (summary verbose counts).
Proof. unfold summary; repeat only_step; auto. Qed.

Hypothesis P_git : forall argv, P (Run argv git_timeout).

Lemma only_report_git what rc out err : only P (report_git what rc out err).
Proof. unfold report_git; repeat only_step; auto. Qed.

Lemma only_clone_or_update_repo repo base_dir token verbose pbar :
  only P (clone_or_update_repo E repo base_dir token verbose pbar).
Proof.
  unfold clone_or_update_repo, clone_or_update_body, clone_or_update_handler.
  repeat only_step; auto using only_report_git.
Qed.

Lemma only_process_repos repos base_dir token verbose pbar s f :
  only P (process_repos E repos base_dir token verbose pbar s f).
Proof.
  revert s f; induction repos as [| r rest IH]; intros s f; simpl;
    repeat only_step; auto using only_clone_or_update_repo.
Qed.

Lemma only_pass_counts fuel token base_dir verbose :
  only P (pass_counts E fuel token base_dir verbose).
Proof.
  unfold pass_counts; repeat only_step;
    auto using only_get_github_repos, only_print_repo_list, only_process_repos.
Qed.

Lemma only_main fuel cfg : only P (main E fuel cfg).
Proof.
  unfold main, main_body; repeat only_step;
    auto using only_main_setup, only_pass_counts, only_summary, only_main_handler.
Qed.

Lemma only_driver passes fuel cfg : only P (driver E passes fuel cfg).
Proof.
  induction passes as [| k IH]; simpl; repeat only_step; auto using only_main.
Qed.

End OnlyProgram.

(** ** What one call of [clone_or_update_repo] does *)

Arguments PurePath.str : simpl never.
Arguments PurePath.div : simpl never.
Arguments PurePath.parent : simpl never.
Arguments PyStr.of_Z : simpl never.
Arguments PyStr.of_nat : simpl never.
Arguments PyStr.strip : simpl never.
Arguments PyStr.replace : simpl never.
Arguments Fs.mkdir : simpl never.
Arguments Fs.exists_ : simpl never.
Arguments repo_path : simpl never.
Arguments authenticated_url : simpl never.
Arguments api_url : simpl never.
Arguments api_headers : simpl never.

Ltac run_script :=
  unfold clone_or_update_repo, clone_or_update_body, clone_or_update_handler,
    report_git, bind, try_except, when, path_exists, path_mkdir, subprocess_run,
    ret, raise, tqdm_write, print, time_sleep, emit;
  simpl.

Ltac tidy_trace := simpl; rewrite <- ?app_assoc; simpl.

Ltac case_git E :=
  match goal with
  | |- context [git E ?h ?m ?a] =>
      exists h; destruct (git E h m a) as [[rc out err | | e] m'] eqn:Hgit
  end.

Ltac finish_call :=
  cbv zeta; unfold failure_lines, raised_line; simpl;
  repeat match goal with
         | |- context [(?rc =? 0)%Z] => destruct (rc =? 0)%Z eqn:?; simpl
         | |- context [PyStr.truthy ?s] => destruct s; simpl
         | |- context [is_timeout ?e] => destruct (is_timeout e) eqn:?; simpl
         end;
  (eexists; split; [ tidy_trace; reflexivity | split; reflexivity ]).

Section CloneOrUpdate.

Variable E : env.
Variables (repo : repo_data) (base_dir : Path) (token : string).
Variables (verbose : bool) (pbar : option nat).

(** The target exists: one [git pull] inside it, and the verdict is
    the one of that process. *)
Lemma update_call w :
  Fs.exists_ (fs w) (repo_path base_dir repo) = true ->
  exists hist evs,
    let r := git E hist (fs w) (pull_argv (repo_path base_dir repo)) in
    clone_or_update_repo E repo base_dir token verbose pbar w
    = (Ok (succeeded (fst r)), mkWorld (snd r) (trace w ++ evs))
    /\ actions evs = [Run (pull_argv (repo_path base_dir repo)) git_timeout]
    /\ plain evs = failure_lines "update" (full_name repo) (fst r).
Proof.
  intros Hex. run_script.
  destruct verbose, (pbar_truthy pbar); simpl; rewrite Hex; simpl;
    case_git E; finish_call.
Qed.

(** The target does not exist and its parent cannot be made: the
    exception is caught, and no process is spawned. *)
Lemma clone_call_no_parent w e :
  Fs.exists_ (fs w) (repo_path base_dir repo) = false ->
  Fs.mkdir true true (fs w) (PurePath.parent (repo_path base_dir repo)) = inl e ->
  exists evs,
    clone_or_update_repo E repo base_dir token verbose pbar w
    = (Ok false, mkWorld (fs w) (trace w ++ evs))
    /\ actions evs = [Mkdir (PurePath.parent (repo_path base_dir repo)) true true]
    /\ plain evs = [raised_line (full_name repo) e].
Proof.
  intros Hex Hmk. run_script. unfold raised_line.
  destruct verbose, (pbar_truthy pbar); simpl; rewrite Hex; simpl;
    rewrite Hmk; finish_call.
Qed.

(** The target does not exist: the parent is made, then one
    [git clone] of the URL that carries the token. *)
Lemma clone_call w m1 :
  Fs.exists_ (fs w) (repo_path base_dir repo) = false ->
  Fs.mkdir true true (fs w) (PurePath.parent (repo_path base_dir repo)) = inr m1 ->
  exists hist evs,
    let r := git E hist m1
               (clone_argv (authenticated_url (clone_url repo) token)
                           (repo_path base_dir repo)) in
    clone_or_update_repo E repo base_dir token verbose pbar w
    = (Ok (succeeded (fst r)), mkWorld (snd r) (trace w ++ evs))
    /\ actions evs = [Mkdir (PurePath.parent (repo_path base_dir repo)) true true;
                      Run (clone_argv (authenticated_url (clone_url repo) token)
                                      (repo_path base_dir repo)) git_timeout]
    /\ plain evs = failure_lines "clone" (full_name repo) (fst r).
Proof.
  intros Hex Hmk. run_script. unfold raised_line.
  destruct verbose, (pbar_truthy pbar); simpl; rewrite Hex; simpl;
    rewrite Hmk; simpl; case_git E; finish_call.
Qed.

End CloneOrUpdate.

(** ** Facts about strings and paths *)

Module StrFacts.

Lemma list_of_append (a b : string) :
  list_ascii_of_string (a ++ b)
  = (list_ascii_of_string a ++ list_ascii_of_string b)%list.
Proof. induction a as [| c a IH]; simpl; [reflexivity | now rewrite IH]. Qed.

Lemma list_of_inj (a b : string) :
  list_ascii_of_string a = list_ascii_of_string b -> a = b.
Proof.
  intros H. rewrite <- (string_of_list_ascii_of_string a),
                    <- (string_of_list_ascii_of_string b).
  now rewrite H.
Qed.

Lemma append_assoc (a b c : string) : (a ++ b) ++ c = a ++ (b ++ c).
Proof. apply list_of_inj. now rewrite !list_of_append, app_assoc. Qed.

(** A common suffix can be cancelled. *)
Lemma append_inv_tail (a b t : string) : a ++ t = b ++ t -> a = b.
Proof.
  intros H. apply list_of_inj.
  apply (f_equal list_ascii_of_string) in H.
  rewrite !list_of_append in H. now apply app_inv_tail in H.
Qed.

(** Decimal printing is injective. *)
Lemma of_nat_inj (i j : nat) : PyStr.of_nat i = PyStr.of_nat j -> i = j.
Proof.
  unfold PyStr.of_nat. intros H.
  assert (Hn : forall n, Nat.to_uint n <> Decimal.Nil).
  { intros n. rewrite <- (DecimalNat.Unsigned.of_to n) at 1.
    rewrite DecimalNat.Unsigned.to_of. apply DecimalFacts.unorm_nonnil. }
  apply DecimalNat.Unsigned.to_uint_inj.
  apply (f_equal NilZero.uint_of_string) in H.
  rewrite !NilZero.usu in H by apply Hn. now injection H.
Qed.

(** Joining what [split] produced gives the string back. *)
Lemma split_nonempty sep s : PyStr.split sep s <> [].
Proof.
  destruct s as [| c s]; simpl; [discriminate |].
  destruct (Ascii.eqb c sep); [discriminate |].
  destruct (PyStr.split sep s); discriminate.
Qed.

Lemma join_cons sep x y ys :
  PyStr.join sep (x :: y :: ys) = x ++ sep ++ PyStr.join sep (y :: ys).
Proof. reflexivity. Qed.

Lemma join_split sep s :
  PyStr.join (String sep EmptyString) (PyStr.split sep s) = s.
Proof.
  induction s as [| c s IH]; simpl; [reflexivity |].
  destruct (Ascii.eqb_spec c sep) as [-> | Hne].
  - pose proof (split_nonempty sep s) as Hs.
    destruct (PyStr.split sep s) as [| y ys]; [contradiction |].
    rewrite join_cons, IH. reflexivity.
  - pose proof (split_nonempty sep s) as Hs.
    destruct (PyStr.split sep s) as [| y ys]; [contradiction |].
    destruct ys as [| z zs]; simpl in *; now rewrite <- IH.
Qed.

(** The first piece of a split is empty when the string starts with
    the separator. *)
Lemma split_head_sep sep s xs :
  PyStr.split sep (String sep s) = xs -> exists ys, xs = EmptyString :: ys.
Proof. simpl. rewrite Ascii.eqb_refl. intros <-. eauto. Qed.

End StrFacts.

Module PathFacts.

Lemma well_named_inv s :
  well_named s = true ->
  exists owner name,
    PyStr.split PurePath.slash s = [owner; name]
    /\ s = owner_name owner name
    /\ PurePath.keeps owner = true /\ PurePath.keeps name = true.
Proof.
  unfold well_named. intros H.
  pose proof (StrFacts.join_split PurePath.slash s) as J.
  destruct (PyStr.split PurePath.slash s) as [| o [| n [| ? ?]]]; try discriminate.
  apply andb_true_iff in H as [Ho Hn].
  apply andb_true_iff in Ho as [Ho _]. apply andb_true_iff in Hn as [Hn _].
  exists o, n. repeat split; auto.
Qed.

(** A well-formed full name is a relative path. *)
Lemma well_named_relative s : well_named s = true -> PurePath.root_of s = "".
Proof.
  intros H. destruct (well_named_inv s H) as (o & n & Hs & _ & Ho & _).
  destruct s as [| c s]; [reflexivity |].
  destruct (Ascii.eqb_spec c PurePath.slash) as [-> | Hne].
  - destruct (StrFacts.split_head_sep _ _ _ Hs) as (ys & Hy).
    injection Hy as -> _. discriminate Ho.
  - apply Ascii.eqb_neq in Hne. simpl.
    destruct s as [| c1 [| c2 s]]; now rewrite Hne.
Qed.

(** The target path of a well-formed full name: the base directory,
    then the owner, then the name. *)
Lemma div_well_named base s :
  well_named s = true ->
  exists owner name,
    s = owner_name owner name
    /\ PurePath.div base s = mkPath (root base) (parts base ++ [owner; name]).
Proof.
  intros H. destruct (well_named_inv s H) as (o & n & Hs & Hj & Ho & Hn).
  exists o, n. split; [exact Hj |].
  unfold PurePath.div, PurePath.parts_of.
  rewrite (well_named_relative s H), Hs. simpl. now rewrite Ho, Hn.
Qed.

Lemma div_inj base s t :
  well_named s = true -> well_named t = true ->
  PurePath.div base s = PurePath.div base t -> s = t.
Proof.
  intros Hs Ht.
  destruct (div_well_named base s Hs) as (o & n & -> & ->).
  destruct (div_well_named base t Ht) as (o' & n' & -> & ->).
  intros [= H]. apply app_inv_head in H. now injection H as -> ->.
Qed.

End PathFacts.

(** ** Every call returns *)

Lemma clone_or_update_total E repo base_dir token verbose pbar w :
  exists b w', clone_or_update_repo E repo base_dir token verbose pbar w = (Ok b, w').
Proof.
  destruct (Fs.exists_ (fs w) (repo_path base_dir repo)) eqn:Hex.
  - destruct (update_call E repo base_dir token verbose pbar w Hex)
      as (hist & evs & H & _). eauto.
  - destruct (Fs.mkdir true true (fs w) (PurePath.parent (repo_path base_dir repo)))
      as [e | m1] eqn:Hmk.
    + destruct (clone_call_no_parent E repo base_dir token verbose pbar w e Hex Hmk)
        as (evs & H & _). eauto.
    + destruct (clone_call E repo base_dir token verbose pbar w m1 Hex Hmk)
        as (hist & evs & H & _). eauto.
Qed.

(** ** What every call acts on *)

Lemma actions_app (a b : list event) : actions (a ++ b) = (actions a ++ actions b)%list.
Proof. apply List.filter_app. Qed.

(** Every call acts on the target path of its descriptor. *)
Lemma call_acts E repo base_dir token verbose pbar w :
  exists b m evs,
    clone_or_update_repo E repo base_dir token verbose pbar w
    = (Ok b, mkWorld m (trace w ++ evs))
    /\ acts_on base_dir token repo (actions evs).
Proof.
  unfold acts_on.
  destruct (Fs.exists_ (fs w) (repo_path base_dir repo)) eqn:Hex.
  - destruct (update_call E repo base_dir token verbose pbar w Hex)
      as (hist & evs & H & Ha & _). eauto 10.
  - destruct (Fs.mkdir true true (fs w) (PurePath.parent (repo_path base_dir repo)))
      as [e | m1] eqn:Hmk.
    + destruct (clone_call_no_parent E repo base_dir token verbose pbar w e Hex Hmk)
        as (evs & H & Ha & _). eauto 10.
    + destruct (clone_call E repo base_dir token verbose pbar w m1 Hex Hmk)
        as (hist & evs & H & Ha & _). eauto 10.
Qed.

(** The loop acts on the target path of every descriptor, in the order
    of the listing, whatever the calls before returned. *)
Lemma process_repos_acts E base_dir token verbose pbar :
  forall repos s f w,
  exists counts m evs parts,
    process_repos E repos base_dir token verbose pbar s f w
    = (Ok counts, mkWorld m (trace w ++ evs))
    /\ actions evs = concat parts
    /\ Forall2 (acts_on base_dir token) repos parts.
Proof.
  induction repos as [| r rest IH]; intros s f w.
  - exists (s, f), (fs w), [], []. simpl. rewrite app_nil_r. destruct w.
    repeat split; constructor.
  - cbn [process_repos]. unfold bind at 1.
    assert (Hw0 : exists hd,
               when verbose
                 (tqdm_write (nl ++ "[VERBOSE] ========== Processing "
                              ++ full_name r ++ " ===========")) w
               = (Ok tt, mkWorld (fs w) (trace w ++ hd))
               /\ actions hd = []).
    { destruct verbose; simpl.
      - eexists. split; reflexivity.
      - exists []. rewrite app_nil_r. destruct w. split; reflexivity. }
    destruct Hw0 as (hd & -> & Hhd).
    unfold bind at 1.
    destruct (call_acts E r base_dir token verbose pbar (mkWorld (fs w) (trace w ++ hd)))
      as (b & m1 & evs1 & -> & Hacts).
    unfold bind at 1, emit at 1. cbn [fs trace].
    assert (Hrest : forall s' f',
               exists counts m evs parts,
                 process_repos E rest base_dir token verbose pbar s' f'
                   (mkWorld m1 (((trace w ++ hd) ++ evs1) ++ [PbarUpdate 1]))
                 = (Ok counts, mkWorld m (trace w ++ evs))
                 /\ actions evs = concat parts
                 /\ Forall2 (acts_on base_dir token) (r :: rest) parts).
    { intros s' f'.
      destruct (IH s' f' (mkWorld m1 (((trace w ++ hd) ++ evs1) ++ [PbarUpdate 1])))
        as (counts & m & evs2 & parts & -> & Ha & Hf).
      exists counts, m, (hd ++ evs1 ++ [PbarUpdate 1] ++ evs2)%list,
        (actions evs1 :: parts).
      cbn [trace]. split; [now rewrite <- !app_assoc |].
      rewrite !actions_app, Hhd, Ha. split; [reflexivity |].
      constructor; assumption. }
    destruct b; apply Hrest.
Qed.

(** ** C1: what is done with a target path *)

(** C1 (as amended).  What [clone_or_update_repo] does with a
    descriptor is decided by the existence of the target path alone,
    working copy or not.  If the path exists, the script asks nothing of
    the filesystem and spawns exactly one process, [git -C path pull];
    the call returns [True] exactly when that process exits with status
    0, and otherwise reports the failed update ("Failed to update", or
    the line of the exception).  If the path does not exist, the script
    asks for the directory above it; when that is made, it spawns
    exactly one [git clone] into the path, and the verdict and the
    report are those of the clone; when it cannot be made, no process is
    spawned, the filesystem stays as it was, the call writes "Error
    with" and the message, and returns [False].  There is no outcome
    that skips a descriptor. *)
Theorem existence_decides_pull_or_clone E repo base_dir token verbose pbar w :
  let p := repo_path base_dir repo in
  exists hist evs,
    if Fs.exists_ (fs w) p then
      let r := git E hist (fs w) (pull_argv p) in
      clone_or_update_repo E repo base_dir token verbose pbar w
      = (Ok (succeeded (fst r)), mkWorld (snd r) (trace w ++ evs))
      /\ actions evs = [Run (pull_argv p) git_timeout]
      /\ plain evs = failure_lines "update" (full_name repo) (fst r)
    else
      match Fs.mkdir true true (fs w) (PurePath.parent p) with
      | inr m1 =>
          let r := git E hist m1
                     (clone_argv (authenticated_url (clone_url repo) token) p) in
          clone_or_update_repo E repo base_dir token verbose pbar w
          = (Ok (succeeded (fst r)), mkWorld (snd r) (trace w ++ evs))
          /\ actions evs
             = [Mkdir (PurePath.parent p) true true;
                Run (clone_argv (authenticated_url (clone_url repo) token) p)
                    git_timeout]
          /\ plain evs = failure_lines "clone" (full_name repo) (fst r)
      | inl e =>
          clone_or_update_repo E repo base_dir token verbose pbar w
          = (Ok false, mkWorld (fs w) (trace w ++ evs))
          /\ actions evs = [Mkdir (PurePath.parent p) true true]
          /\ plain evs = [raised_line (full_name repo) e]
      end.
Proof.
  intros p. subst p.
  destruct (Fs.exists_ (fs w) (repo_path base_dir repo)) eqn:Hex.
  - destruct (update_call E repo base_dir token verbose pbar w Hex)
      as (hist & evs & H). exists hist, evs. exact H.
  - destruct (Fs.mkdir true true (fs w) (PurePath.parent (repo_path base_dir repo)))
      as [e | m1] eqn:Hmk.
    + destruct (clone_call_no_parent E repo base_dir token verbose pbar w e Hex Hmk)
        as (evs & H). exists (trace w), evs. exact H.
    + destruct (clone_call E repo base_dir token verbose pbar w m1 Hex Hmk)
        as (hist & evs & H). exists hist, evs. exact H.
Qed.

(** C1 (as stated) fails.  [repos/alice/foo] exists and holds no [.git]:
    the script does not skip the descriptor, it runs [git pull] inside
    that directory and reports the failure of the pull as a failed
    update. *)
Lemma collision_is_pulled_not_skipped :
  Fs.exists_ (fs Sample.collided_mirror)
             (repo_path Sample.repos_dir Sample.alice_foo) = true
  /\ is_working_copy (fs Sample.collided_mirror)
                     (repo_path Sample.repos_dir Sample.alice_foo) = false
  /\ fst Sample.collision_call = Ok false
  /\ runs (trace (snd Sample.collision_call))
     = [(["git"; "-C"; "repos/alice/foo"; "pull"], 300%Z)]
  /\ written (trace (snd Sample.collision_call))
     = ["Failed to update alice/foo: fatal: not a git repository (or any of the parent directories): .git"].
Proof. vm_compute. repeat split; reflexivity. Qed.

(** The directory of the owner cannot be made because [repos/alice] is
    a regular file: nothing is cloned and the call reports an error. *)
Example owner_path_is_a_file :
  Fs.exists_ (fs More.owner_is_a_file) (repo_path Sample.repos_dir Sample.alice_foo) = false
  /\ clone_or_update_repo Sample.env_ok Sample.alice_foo Sample.repos_dir "TOKEN" false
       None More.owner_is_a_file
     = (Ok false,
        mkWorld (fs More.owner_is_a_file)
                [Mkdir (mkPath "" ["repos"; "alice"]) true true;
                 TqdmWrite "Error with alice/foo: [Errno 17] File exists: 'repos/alice'"]).
Proof. vm_compute. split; reflexivity. Qed.

(** ** C3: target paths *)

(** C3 (as amended).  For descriptors whose full name is [owner/name],
    two plain components around one slash, the target path is the base
    directory followed by the owner and the name; the path depends on
    the base directory and the full name and on nothing else of the
    descriptor; distinct full names give distinct target paths; and, in
    every pass and whatever [git] answers, the loop acts once on every
    descriptor, in the order of the listing, at the target path of that
    descriptor: a pull inside it, or the directory above it followed by
    a clone into it (the directory alone when it cannot be made). *)
Theorem target_path_per_descriptor E base_dir repos :
  Forall (fun r => well_named (full_name r) = true) repos ->
  (forall r, In r repos ->
     exists owner name,
       full_name r = owner_name owner name
       /\ repo_path base_dir r
          = mkPath (root base_dir) (parts base_dir ++ [owner; name]))
  /\ (forall r r', full_name r = full_name r' ->
        repo_path base_dir r = repo_path base_dir r')
  /\ (NoDup (map full_name repos) -> NoDup (map (repo_path base_dir) repos))
  /\ (forall token verbose pbar w,
        exists counts m evs parts,
          process_repos E repos base_dir token verbose pbar 0 0 w
          = (Ok counts, mkWorld m (trace w ++ evs))
          /\ actions evs = concat parts
          /\ Forall2 (acts_on base_dir token) repos parts).
Proof.
  intros Hwf. repeat split.
  - intros r Hr. rewrite List.Forall_forall in Hwf.
    apply (PathFacts.div_well_named base_dir), (Hwf r Hr).
  - intros r r' Heq. unfold repo_path. now rewrite Heq.
  - induction Hwf as [| r rest Hr Hrest IH]; simpl; intros Hnd; [constructor |].
    inversion Hnd as [| ? ? Hnotin Hnd']; subst.
    constructor; [| now apply IH].
    intros Hin. apply Hnotin.
    apply list_elem_of_In, in_map_iff in Hin as (r' & Heq & Hin').
    apply list_elem_of_In, in_map_iff. exists r'. split; [| exact Hin'].
    rewrite List.Forall_forall in Hrest.
    apply (PathFacts.div_inj base_dir); auto.
  - intros token verbose pbar w. apply process_repos_acts.
Qed.

Lemma target_path_per_descriptor_witness :
  Forall (fun r => well_named (full_name r) = true) [Sample.alice_foo; Sample.bob_bar]
  /\ repo_path Sample.repos_dir Sample.alice_foo = mkPath "" ["repos"; "alice"; "foo"]
  /\ NoDup (map (repo_path Sample.repos_dir) [Sample.alice_foo; Sample.bob_bar])
  /\ exists counts m evs parts,
       process_repos Sample.env_ok [Sample.alice_foo; Sample.bob_bar] Sample.repos_dir
         "TOKEN" false None 0 0 Sample.empty_mirror
       = (Ok counts, mkWorld m (trace Sample.empty_mirror ++ evs))
       /\ actions evs = concat parts
       /\ Forall2 (acts_on Sample.repos_dir "TOKEN")
                  [Sample.alice_foo; Sample.bob_bar] parts.
Proof.
  assert (Hwf : Forall (fun r => well_named (full_name r) = true)
                       [Sample.alice_foo; Sample.bob_bar])
    by (repeat constructor).
  destruct (target_path_per_descriptor Sample.env_ok Sample.repos_dir
              [Sample.alice_foo; Sample.bob_bar] Hwf) as (_ & _ & Hnd & Hacts).
  split; [exact Hwf |]. split; [reflexivity |]. split.
  - apply Hnd. apply (bool_decide_unpack _). vm_compute. reflexivity.
  - apply Hacts.
Defined.

(** C3 (as stated) fails.  The script takes any string for a full
    name.  [alice/foo] and [alice//foo] are distinct full names with the
    same target path: the loop clones into [repos/alice/foo] for the
    first and pulls inside the same directory for the second.  And the
    target path of the rooted name [/etc/cron.d] is not below the base
    directory. *)
Lemma distinct_full_names_can_share_a_target :
  full_name Sample.alice_foo <> full_name More.alice_slash_foo
  /\ repo_path Sample.repos_dir Sample.alice_foo
     = repo_path Sample.repos_dir More.alice_slash_foo
  /\ fst More.same_target_twice = Ok (2, 0)
  /\ List.map fst (runs (trace (snd More.same_target_twice)))
     = [["git"; "clone"; "https://TOKEN@github.com/alice/foo.git"; "repos/alice/foo"];
        ["git"; "-C"; "repos/alice/foo"; "pull"]]
  /\ repo_path Sample.repos_dir More.rooted = mkPath "/" ["etc"; "cron.d"].
Proof. vm_compute. repeat split; try reflexivity. discriminate. Qed.

(** ** C2: pagination *)

Lemma api_url_inj i j : api_url i = api_url j -> i = j.
Proof.
  unfold api_url. intros H.
  apply (inj (String.app _)) in H.
  apply StrFacts.append_inv_tail in H.
  now apply StrFacts.of_nat_inj.
Qed.

Lemma page_at_nth pages :
  forall start i, Sample.page_at pages start (api_url (start + i)) = nth i pages [].
Proof.
  induction pages as [| pg rest IH]; intros start i; cbn [Sample.page_at nth].
  - now destruct i.
  - destruct i as [| i].
    + now rewrite Nat.add_0_r, String.eqb_refl.
    + destruct (String.eqb_spec (api_url (start + S i)) (api_url start)) as [Heq | _].
      * apply api_url_inj in Heq. lia.
      * rewrite <- Nat.add_succ_comm. apply IH.
Qed.

Lemma paged_forge_serves pages git token :
  serves (mkEnv (Sample.paged_forge pages) git) token pages.
Proof.
  intros hist i. eexists. split; [reflexivity |]. split; [reflexivity |].
  simpl. f_equal. apply (page_at_nth pages 1 i).
Qed.

(** The loop on a forge that serves [pages] from page number [page] on:
    one request per page and one more for the empty page that ends it. *)
Lemma fetch_pages_walk E token verbose :
  forall pages repos page fuel w,
    (forall hist k,
        exists r,
          http E hist (api_url (page + k)) (api_headers token) = Response r
          /\ status_code r = 200%Z /\ json r = inr (nth k pages [])) ->
    Forall (fun pg => pg <> []) pages ->
    List.length pages < fuel ->
    exists evs,
      fetch_pages E fuel token verbose repos page w
      = (Ok (repos ++ concat pages)%list, mkWorld (fs w) (trace w ++ evs))
      /\ requests evs = map api_url (seq page (S (List.length pages)))
      /\ sleeps evs = repeat (1 # 2)%Q (List.length pages).
Proof.
  induction pages as [| pg rest IH]; intros repos page fuel w Hsrv Hne Hfuel;
    (destruct fuel as [| fuel]; [simpl in Hfuel; lia |]); simpl fetch_pages.
  - unfold bind, when, print, emit, requests_get, response_json, ret, raise.
    destruct verbose; simpl;
      match goal with
      | |- context [http E ?h _ _] => destruct (Hsrv h 0) as (r & Hr & Hst & Hj)
      end;
      rewrite Nat.add_0_r in Hr; rewrite Hr; simpl; rewrite Hst, Hj; simpl;
      rewrite app_nil_r;
      (eexists; split; [tidy_trace; reflexivity | split; reflexivity]).
  - inversion Hne as [| ? ? Hpg Hrest]; subst.
    assert (Hshift : forall hist k,
               exists r,
                 http E hist (api_url (S page + k)) (api_headers token) = Response r
                 /\ status_code r = 200%Z /\ json r = inr (nth k rest [])).
    { intros hist k. destruct (Hsrv hist (S k)) as (r & Hr & Hst & Hj).
      exists r. rewrite <- Nat.add_succ_comm in Hr. auto. }
    simpl in Hfuel. apply PeanoNat.lt_S_n in Hfuel.
    unfold bind, when, print, time_sleep, emit, requests_get, response_json, ret, raise.
    destruct pg as [| d pg]; [contradiction |].
    destruct verbose; simpl;
      match goal with
      | |- context [http E ?h _ _] => destruct (Hsrv h 0) as (r & Hr & Hst & Hj)
      end;
      rewrite Nat.add_0_r in Hr; rewrite Hr; simpl; rewrite Hst, Hj; simpl;
      match goal with
      | |- context [fetch_pages E fuel token ?v ?rs (S page) ?w1] =>
          destruct (IH rs (S page) fuel w1 Hshift Hrest Hfuel) as (evs & -> & Hreq & Hsl)
      end;
      simpl; rewrite <- app_assoc; simpl;
      (eexists; split; [tidy_trace; reflexivity |]);
      simpl; rewrite Hreq, Hsl; split; reflexivity.
Qed.

(** C2 (as amended).  On a forge that serves [n] non-empty pages the
    enumeration returns their concatenation, in order, after [n + 1]
    requests, for pages 1 to [n + 1]: only the empty page ends it, with
    a normal return and not with an error.  A page shorter than
    [per_page] is followed by one more request like any other. *)
Theorem enumeration_ends_at_first_empty_page E token verbose pages fuel w :
  serves E token pages ->
  Forall (fun pg => pg <> []) pages ->
  List.length pages < fuel ->
  exists evs,
    get_github_repos E fuel token verbose w
    = (Ok (concat pages), mkWorld (fs w) (trace w ++ evs))
    /\ requests evs = map api_url (seq 1 (S (List.length pages)))
    /\ sleeps evs = repeat (1 # 2)%Q (List.length pages).
Proof.
  intros Hsrv Hne Hfuel. unfold get_github_repos.
  unfold bind at 1.
  assert (Hshift : forall hist k,
             exists r,
               http E hist (api_url (1 + k)) (api_headers token) = Response r
               /\ status_code r = 200%Z /\ json r = inr (nth k pages []))
    by (intros hist k; apply Hsrv).
  unfold when, print, emit, ret, bind.
  destruct verbose; simpl;
    match goal with
    | |- context [fetch_pages E fuel token ?v ?rs 1 ?w1] =>
        destruct (fetch_pages_walk E token v pages rs 1 fuel w1 Hshift Hne Hfuel)
          as (evs & -> & Hreq & Hsl)
    end;
    simpl;
    (eexists; split; [tidy_trace; reflexivity |]);
    simpl; rewrite Hreq, Hsl; split; reflexivity.
Qed.

Lemma enumeration_ends_at_first_empty_page_witness :
  serves Sample.env_three_pages "TOKEN" Sample.three_pages
  /\ Forall (fun pg : list repo_data => pg <> []) Sample.three_pages
  /\ List.length Sample.three_pages < 10
  /\ exists evs,
       Sample.three_page_listing
       = (Ok (concat Sample.three_pages),
          mkWorld (fs Sample.empty_mirror) (trace Sample.empty_mirror ++ evs))
       /\ requests evs = map api_url (seq 1 (S (List.length Sample.three_pages)))
       /\ sleeps evs = repeat (1 # 2)%Q (List.length Sample.three_pages).
Proof.
  assert (H1 : serves Sample.env_three_pages "TOKEN" Sample.three_pages)
    by apply paged_forge_serves.
  assert (H2 : Forall (fun pg : list repo_data => pg <> []) Sample.three_pages)
    by (repeat constructor; discriminate).
  assert (H3 : List.length Sample.three_pages < 10) by (simpl; lia).
  repeat split; try assumption.
  apply (enumeration_ends_at_first_empty_page Sample.env_three_pages "TOKEN" false
           Sample.three_pages 10 Sample.empty_mirror H1 H2 H3).
Defined.

(** C2 (as stated) fails.  With pages of 100, 100 and 37 descriptors the
    listing does return 237 of them, but the short third page does not
    stop it: a fourth page is requested, and the enumeration ends when
    that one comes back empty. *)
Lemma short_page_is_followed_by_another_request :
  List.map (@List.length repo_data) Sample.three_pages = [100; 100; 37]
  /\ fst Sample.three_page_listing = Ok (concat Sample.three_pages)
  /\ List.length (concat Sample.three_pages) = 237
  /\ requests (trace (snd Sample.three_page_listing))
     = [api_url 1; api_url 2; api_url 3; api_url 4]
  /\ requests (trace (snd Sample.three_page_listing))
     <> [api_url 1; api_url 2; api_url 3].
Proof.
  assert (Hreq : requests (trace (snd Sample.three_page_listing))
                 = [api_url 1; api_url 2; api_url 3; api_url 4])
    by (vm_compute; reflexivity).
  repeat split; try (vm_compute; reflexivity); try exact Hreq.
  rewrite Hreq. discriminate.
Qed.

(** ** Reading traces: helper facts *)

Lemma runs_app (a b : list event) : runs (a ++ b) = (runs a ++ runs b)%list.
Proof. apply flat_map_app. Qed.

Lemma runs_actions (evs : list event) : runs (actions evs) = runs evs.
Proof.
  induction evs as [| e evs IH]; [reflexivity |].
  destruct e; simpl; rewrite ?IH; reflexivity.
Qed.

Lemma runs_no_process (evs : list event) : Forall no_process evs -> runs evs = [].
Proof.
  induction 1 as [| e evs He _ IH]; [reflexivity |].
  destruct e; simpl; try exact IH. discriminate He.
Qed.

Lemma plain_app (a b : list event) : plain (a ++ b) = (plain a ++ plain b)%list.
Proof. unfold plain, written. now rewrite flat_map_app, List.filter_app. Qed.

(** A directory the script managed to make is there afterwards. *)
Lemma mkdir_is_dir parents exist_ok m p m1 :
  Fs.mkdir parents exist_ok m p = inr m1 -> Fs.is_dir m1 p = true.
Proof.
  assert (Hos : forall m0 m2, Fs.os_mkdir m0 p = inr m2 -> Fs.is_dir m2 p = true).
  { intros m0 m2. unfold Fs.os_mkdir, Fs.is_dir, Fs.entry.
    destruct (parts p) eqn:Hp; [discriminate |].
    destruct (parts (PurePath.parent p)); [| destruct (m0 !! PurePath.parent p) as [[] |]];
      try discriminate; destruct (m0 !! p); try discriminate;
      intros [= <-]; now rewrite lookup_insert_eq. }
  assert (Hretry : forall m0 m2,
             match Fs.os_mkdir m0 p with
             | inr m3 => inr m3
             | inl e =>
                 if is_not_found e then inl e
                 else if negb exist_ok || negb (Fs.is_dir m0 p) then inl e else inr m0
             end = inr m2 -> Fs.is_dir m2 p = true).
  { intros m0 m2. destruct (Fs.os_mkdir m0 p) as [e | m3] eqn:Hm.
    - destruct (is_not_found e); [discriminate |].
      destruct exist_ok; [| discriminate]. simpl.
      destruct (Fs.is_dir m0 p) eqn:Hd; [| discriminate]. now intros [= <-].
    - intros [= <-]. eapply Hos, Hm. }
  unfold Fs.mkdir. destruct (List.length (parts p)) as [| d]; simpl.
  - destruct (Fs.os_mkdir m p) as [e | m3] eqn:Hm.
    + destruct (is_not_found e);
        [destruct (negb parents || bool_decide (PurePath.parent p = p)); discriminate |].
      destruct exist_ok; [| discriminate]. simpl.
      destruct (Fs.is_dir m p) eqn:Hd; [| discriminate]. now intros [= <-].
    + intros [= <-]. eapply Hos, Hm.
  - destruct (Fs.os_mkdir m p) as [e | m3] eqn:Hm.
    + destruct (is_not_found e).
      * destruct (negb parents || bool_decide (PurePath.parent p = p)); [discriminate |].
        destruct (Fs.mkdir_at d true true m (PurePath.parent p)) as [e' | m4];
          [discriminate |].
        apply Hretry.
      * destruct exist_ok; [| discriminate]. simpl.
        destruct (Fs.is_dir m p) eqn:Hd; [| discriminate]. now intros [= <-].
    + intros [= <-]. eapply Hos, Hm.
Qed.

(** ** C4: a pull that cannot fast-forward *)

(** C4 (as amended).  A pull that ends with a non-zero exit status, a
    diverged history being one cause among others, is reported as the
    same failure as any other failed update: the call returns [False]
    and writes the line "Failed to update", followed by what [git] said
    on its error stream.  The only process spawned is [git -C path pull],
    which carries no option that forces anything. *)
Theorem failed_pull_is_a_plain_failure
        E repo base_dir token verbose pbar w rc out err m :
  Fs.exists_ (fs w) (repo_path base_dir repo) = true ->
  (forall hist,
      git E hist (fs w) (pull_argv (repo_path base_dir repo)) = (Completed rc out err, m)) ->
  rc <> 0%Z ->
  exists evs,
    clone_or_update_repo E repo base_dir token verbose pbar w
    = (Ok false, mkWorld m (trace w ++ evs))
    /\ runs evs
       = [(["git"; "-C"; PurePath.str (repo_path base_dir repo); "pull"], 300%Z)]
    /\ plain evs = ["Failed to update " ++ full_name repo ++ ": " ++ PyStr.strip err].
Proof.
  intros Hex Hgit Hrc.
  destruct (update_call E repo base_dir token verbose pbar w Hex)
    as (hist & evs & H & Ha & Hp).
  rewrite Hgit in H, Hp. simpl in H, Hp.
  apply Z.eqb_neq in Hrc. rewrite Hrc in H, Hp.
  exists evs. split; [exact H |]. split; [| exact Hp].
  rewrite <- runs_actions, Ha. reflexivity.
Qed.

Lemma failed_pull_is_a_plain_failure_witness :
  Fs.exists_ (fs Sample.cloned_mirror)
             (repo_path Sample.repos_dir Sample.alice_foo) = true
  /\ (128 <> 0)%Z
  /\ exists evs,
       Sample.pull_failing_with 128 Sample.diverged
       = (Ok false,
          mkWorld (fs Sample.cloned_mirror) (trace Sample.cloned_mirror ++ evs))
       /\ runs evs = [(["git"; "-C"; "repos/alice/foo"; "pull"], 300%Z)]
       /\ plain evs
          = ["Failed to update alice/foo: " ++ PyStr.strip Sample.diverged].
Proof.
  split; [reflexivity |]. split; [discriminate |].
  apply (failed_pull_is_a_plain_failure
           (mkEnv Sample.two_repos (Sample.git_exit 128 Sample.diverged))
           Sample.alice_foo Sample.repos_dir "TOKEN" false None Sample.cloned_mirror
           128%Z "" Sample.diverged (fs Sample.cloned_mirror)).
  - reflexivity.
  - intros hist. reflexivity.
  - discriminate.
Defined.

(** C4 (as stated) fails.  A pull that stops on a diverged history and a
    pull that stops on a refused credential end in the same outcome,
    [False]; nothing in it names the divergence. *)
Lemma diverged_pull_has_no_kind_of_its_own :
  fst (Sample.pull_failing_with 128 Sample.diverged) = Ok false
  /\ fst (Sample.pull_failing_with 128 Sample.refused) = Ok false
  /\ fst (Sample.pull_failing_with 128 Sample.diverged)
     = fst (Sample.pull_failing_with 128 Sample.refused)
  /\ runs (trace (snd (Sample.pull_failing_with 128 Sample.diverged)))
     = [(["git"; "-C"; "repos/alice/foo"; "pull"], 300%Z)].
Proof. vm_compute. repeat split; reflexivity. Qed.

(** ** C9: where the token goes *)

Lemma authenticated_url_https rest token :
  authenticated_url ("https://" ++ rest) token
  = "https://" ++ token ++ "@" ++ authenticated_url rest token.
Proof.
  change (authenticated_url ("https://" ++ rest) token)
    with (("https://" ++ token ++ "@") ++ authenticated_url rest token).
  now rewrite !StrFacts.append_assoc.
Qed.

(** C9 (as amended).  The token is written into the URL handed to
    [git clone]: the argument vector of a clone is [git clone URL path]
    where URL is the clone URL with the token and an at sign inserted
    after every "https://", so for a clone URL that starts with
    "https://" it starts with "https://", the token, and "@".  The
    argument vector of a pull, [git -C path pull], does not mention the
    token. *)
Theorem token_is_written_into_the_clone_url E repo base_dir token verbose pbar w :
  (exists evs,
      trace (snd (clone_or_update_repo E repo base_dir token verbose pbar w))
      = (trace w ++ evs)%list
      /\ runs evs =
           if Fs.exists_ (fs w) (repo_path base_dir repo)
           then [(["git"; "-C"; PurePath.str (repo_path base_dir repo); "pull"], 300%Z)]
           else match Fs.mkdir true true (fs w)
                        (PurePath.parent (repo_path base_dir repo)) with
                | inr _ =>
                    [(["git"; "clone"; authenticated_url (clone_url repo) token;
                       PurePath.str (repo_path base_dir repo)], 300%Z)]
                | inl _ => []
                end)
  /\ (forall rest,
         authenticated_url ("https://" ++ rest) token
         = "https://" ++ token ++ "@" ++ authenticated_url rest token).
Proof.
  split; [| intros rest; apply authenticated_url_https].
  destruct (Fs.exists_ (fs w) (repo_path base_dir repo)) eqn:Hex.
  - destruct (update_call E repo base_dir token verbose pbar w Hex)
      as (hist & evs & H & Ha & _).
    exists evs. rewrite H. split; [reflexivity |].
    now rewrite <- runs_actions, Ha.
  - destruct (Fs.mkdir true true (fs w) (PurePath.parent (repo_path base_dir repo)))
      as [e | m1] eqn:Hmk.
    + destruct (clone_call_no_parent E repo base_dir token verbose pbar w e Hex Hmk)
        as (evs & H & Ha & _).
      exists evs. rewrite H. split; [reflexivity |].
      now rewrite <- runs_actions, Ha.
    + destruct (clone_call E repo base_dir token verbose pbar w m1 Hex Hmk)
        as (hist & evs & H & Ha & _).
      exists evs. rewrite H. split; [reflexivity |].
      now rewrite <- runs_actions, Ha.
Qed.

(** C9 (as stated) fails.  Two clones that differ in the token alone
    spawn [git] with different argument vectors: each carries its
    token in the URL. *)
Lemma clone_argv_depends_on_the_token :
  runs (trace (snd (Sample.clone_with_token "SECRET1")))
  = [(["git"; "clone"; "https://SECRET1@github.com/alice/foo.git"; "repos/alice/foo"],
      300%Z)]
  /\ runs (trace (snd (Sample.clone_with_token "SECRET2")))
     = [(["git"; "clone"; "https://SECRET2@github.com/alice/foo.git"; "repos/alice/foo"],
         300%Z)]
  /\ runs (trace (snd (Sample.clone_with_token "SECRET1")))
     <> runs (trace (snd (Sample.clone_with_token "SECRET2"))).
Proof.
  assert (H1 : runs (trace (snd (Sample.clone_with_token "SECRET1")))
               = [(["git"; "clone"; "https://SECRET1@github.com/alice/foo.git";
                    "repos/alice/foo"], 300%Z)]) by (vm_compute; reflexivity).
  assert (H2 : runs (trace (snd (Sample.clone_with_token "SECRET2")))
               = [(["git"; "clone"; "https://SECRET2@github.com/alice/foo.git";
                    "repos/alice/foo"], 300%Z)]) by (vm_compute; reflexivity).
  split; [exact H1 |]. split; [exact H2 |]. rewrite H1, H2. discriminate.
Qed.

(** ** C10: a failed clone leaves the parent directory *)

(** C10.  When the target path does not exist, the parent directory has
    been made and the clone then fails (a non-zero exit status, a
    timeout, or an exception raised by the call), the script reports the
    failure and does nothing else: the filesystem it leaves is the one
    [git] left, and its own requests were the [mkdir] and the [clone]
    and none after them.  So the parent directory is still there, unless
    [git] itself removed it. *)
Theorem failed_clone_keeps_parent_directory
        E repo base_dir token verbose pbar w m1 :
  Fs.exists_ (fs w) (repo_path base_dir repo) = false ->
  Fs.mkdir true true (fs w) (PurePath.parent (repo_path base_dir repo)) = inr m1 ->
  (forall hist,
      succeeded (fst (git E hist m1
                        (clone_argv (authenticated_url (clone_url repo) token)
                                    (repo_path base_dir repo)))) = false) ->
  (forall hist,
      Fs.entry (snd (git E hist m1
                       (clone_argv (authenticated_url (clone_url repo) token)
                                   (repo_path base_dir repo))))
               (PurePath.parent (repo_path base_dir repo))
      = Fs.entry m1 (PurePath.parent (repo_path base_dir repo))) ->
  exists hist evs,
    clone_or_update_repo E repo base_dir token verbose pbar w
    = (Ok false,
       mkWorld (snd (git E hist m1
                       (clone_argv (authenticated_url (clone_url repo) token)
                                   (repo_path base_dir repo))))
               (trace w ++ evs))
    /\ actions evs
       = [Mkdir (PurePath.parent (repo_path base_dir repo)) true true;
          Run (clone_argv (authenticated_url (clone_url repo) token)
                          (repo_path base_dir repo)) git_timeout]
    /\ Fs.is_dir (fs (snd (clone_or_update_repo E repo base_dir token verbose pbar w)))
                 (PurePath.parent (repo_path base_dir repo)) = true.
Proof.
  intros Hex Hmk Hfail Hframe.
  destruct (clone_call E repo base_dir token verbose pbar w m1 Hex Hmk)
    as (hist & evs & H & Ha & _).
  cbv zeta in H. rewrite Hfail in H.
  exists hist, evs. split; [exact H |]. split; [exact Ha |].
  rewrite H. simpl. unfold Fs.is_dir. rewrite Hframe.
  apply (mkdir_is_dir true true (fs w)), Hmk.
Qed.

Lemma failed_clone_keeps_parent_directory_witness :
  Fs.exists_ (fs Sample.empty_mirror)
             (repo_path Sample.repos_dir Sample.alice_foo) = false
  /\ Fs.exists_ (fs Sample.empty_mirror) (mkPath "" ["repos"; "alice"]) = false
  /\ fst Sample.failed_clone = Ok false
  /\ Fs.is_dir (fs (snd Sample.failed_clone)) (mkPath "" ["repos"; "alice"]) = true.
Proof.
  split; [reflexivity |]. split; [reflexivity |].
  destruct (failed_clone_keeps_parent_directory Sample.env_clone_fails
              Sample.alice_foo Sample.repos_dir "TOKEN" false None Sample.empty_mirror
              (<[mkPath "" ["repos"; "alice"] := Dir]> (fs Sample.empty_mirror)))
    as (hist & evs & H & _ & Hdir).
  - reflexivity.
  - reflexivity.
  - intros hist. reflexivity.
  - intros hist. reflexivity.
  - split; [| exact Hdir].
    unfold Sample.failed_clone. rewrite H. reflexivity.
Defined.

(** ** C5: rate limits and pacing *)

(** A response with a status other than 200 ends the loop at once. *)
Lemma fetch_pages_api_error E fuel token verbose repos page w r :
  (forall hist, http E hist (api_url page) (api_headers token) = Response r) ->
  status_code r <> 200%Z ->
  exists evs,
    fetch_pages E (S fuel) token verbose repos page w
    = (Raise (api_error r), mkWorld (fs w) (trace w ++ evs))
    /\ requests evs = [api_url page]
    /\ sleeps evs = [].
Proof.
  intros Hr Hst. apply Z.eqb_neq in Hst. simpl fetch_pages.
  unfold bind, when, print, emit, requests_get, ret, raise.
  destruct verbose; simpl; rewrite Hr; simpl; rewrite Hst; simpl;
    (eexists; split; [tidy_trace; reflexivity | split; reflexivity]).
Qed.

(** Every turn of the loop after the first starts half a second, at
    least, after the request of the turn before. *)
Lemma fetch_pages_paced E token verbose :
  forall fuel repos page w,
  exists evs,
    snd (fetch_pages E fuel token verbose repos page w)
    = mkWorld (fs w) (trace w ++ evs)
    /\ paced_from (1 # 2) true evs = true.
Proof.
  induction fuel as [| fuel IH]; intros repos page w; simpl fetch_pages.
  - exists []. simpl. rewrite app_nil_r. now destruct w.
  - unfold bind, when, print, time_sleep, emit, requests_get, response_json, ret, raise.
    destruct verbose; simpl;
      match goal with
      | |- context [http E ?h ?u ?hd] => destruct (http E h u hd) as [r | e]
      end; simpl;
      try (eexists; split; [tidy_trace; reflexivity | reflexivity]);
      destruct (status_code r =? 200)%Z; simpl;
      try (eexists; split; [tidy_trace; reflexivity | reflexivity]);
      destruct (json r) as [e | [| d pg]]; simpl;
      try (eexists; split; [tidy_trace; reflexivity | reflexivity]);
      match goal with
      | |- context [fetch_pages E fuel token ?v ?rs (S page) ?w1] =>
          destruct (IH rs (S page) w1) as (evs & Hw & Hp); rewrite Hw
      end;
      (eexists; split; [tidy_trace; reflexivity | exact Hp]).
Qed.

Lemma get_github_repos_paced E fuel token verbose w :
  exists evs,
    snd (get_github_repos E fuel token verbose w) = mkWorld (fs w) (trace w ++ evs)
    /\ paced (1 # 2) evs = true.
Proof.
  unfold get_github_repos, bind, when, print, emit, ret, paced.
  destruct verbose; simpl;
    match goal with
    | |- context [fetch_pages E fuel token ?v ?rs 1 ?w1] =>
        destruct (fetch_pages_paced E token v fuel rs 1 w1) as (evs & Hw & Hp);
        destruct (fetch_pages E fuel token v rs 1 w1) as [[l | e | ] w2];
        simpl in Hw; subst w2
    end;
    simpl; (eexists; split; [tidy_trace; reflexivity | simpl; exact Hp]).
Qed.

(** C5 (as amended).  A response whose status is not 200, a rate-limit
    response included, makes the enumeration fail at once with the
    exception "GitHub API error", after that one request and without a
    pause or a second attempt.  Between two successive page requests
    the client always pauses for half a second. *)
Theorem api_error_is_immediate_and_requests_are_paced E fuel token verbose w :
  (forall repos page r,
      (forall hist, http E hist (api_url page) (api_headers token) = Response r) ->
      status_code r <> 200%Z ->
      exists evs,
        fetch_pages E (S fuel) token verbose repos page w
        = (Raise (api_error r), mkWorld (fs w) (trace w ++ evs))
        /\ requests evs = [api_url page]
        /\ sleeps evs = [])
  /\ (exists evs,
         snd (get_github_repos E fuel token verbose w)
         = mkWorld (fs w) (trace w ++ evs)
         /\ paced (1 # 2) evs = true).
Proof.
  split.
  - intros repos page r Hr Hst. now apply fetch_pages_api_error.
  - apply get_github_repos_paced.
Qed.

Lemma api_error_is_immediate_and_requests_are_paced_witness :
  (429 <> 200)%Z
  /\ exists evs,
       fetch_pages Sample.env_rate_limited 10 "TOKEN" false [] 1 Sample.empty_mirror
       = (Raise (Exn "Exception" "GitHub API error: 429 - API rate limit exceeded"),
          mkWorld (fs Sample.empty_mirror) (trace Sample.empty_mirror ++ evs))
       /\ requests evs = [api_url 1]
       /\ sleeps evs = [].
Proof.
  split; [discriminate |].
  destruct (api_error_is_immediate_and_requests_are_paced
              Sample.env_rate_limited 9 "TOKEN" false Sample.empty_mirror) as [H _].
  apply (H [] 1 (mkResponse 429 "API rate limit exceeded"
                            (inl (Exn "JSONDecodeError" "Expecting value")))).
  - intros hist. reflexivity.
  - discriminate.
Defined.

(** C5 (as stated) fails.  The forge answers the first request with
    status 429: the enumeration raises after that single request, with
    no pause taken and no second request made. *)
Lemma rate_limit_is_not_retried :
  fst Sample.rate_limited_listing
  = Raise (Exn "Exception" "GitHub API error: 429 - API rate limit exceeded")
  /\ requests (trace (snd Sample.rate_limited_listing)) = [api_url 1]
  /\ sleeps (trace (snd Sample.rate_limited_listing)) = [].
Proof. vm_compute. repeat split; reflexivity. Qed.

(** The three ways a clone can fail leave the owner directory behind:
    here [git] is not installed and the call itself raises. *)
Example clone_without_git_keeps_parent_directory :
  fst Sample.clone_without_git = Ok false
  /\ written (trace (snd Sample.clone_without_git))
     = ["Error with alice/foo: [Errno 2] No such file or directory: 'git'"]
  /\ Fs.is_dir (fs (snd Sample.clone_without_git)) (mkPath "" ["repos"; "alice"]) = true.
Proof. vm_compute. repeat split; reflexivity. Qed.

(** ** What the loop counts *)

Lemma written_app (a b : list event) : written (a ++ b) = (written a ++ written b)%list.
Proof. apply flat_map_app. Qed.

Lemma reports_app (a b : list event) : reports (a ++ b) = (reports a ++ reports b)%list.
Proof. unfold reports. now rewrite written_app, List.filter_app. Qed.

Lemma descriptions_app (a b : list event) :
  descriptions (a ++ b) = (descriptions a ++ descriptions b)%list.
Proof. apply flat_map_app. Qed.

(** A report is never taken for a verbose diagnostic. *)
Lemma is_report_not_verbose line :
  is_report line = true -> PyStr.startswith "[VERBOSE]" line = false.
Proof.
  destruct line as [| c line]; [discriminate |].
  unfold is_report. cbn [PyStr.startswith].
  destruct (Ascii.eqb_spec "[" c) as [<- | _]; [discriminate | reflexivity].
Qed.

Lemma reports_plain (evs : list event) :
  reports evs = List.filter is_report (plain evs).
Proof.
  unfold reports, plain.
  induction (written evs) as [| l ls IH]; [reflexivity |].
  cbn [List.filter]. destruct (is_report l) eqn:Hl.
  - rewrite (is_report_not_verbose l Hl). cbn [negb List.filter]. now rewrite Hl, IH.
  - destruct (negb (PyStr.startswith "[VERBOSE]" l)); cbn [List.filter];
      now rewrite ?Hl, IH.
Qed.

Lemma reports_failure_lines what name r :
  what = "update" \/ what = "clone" ->
  List.length (List.filter is_report (failure_lines what name r))
  = if succeeded r then 0 else 1.
Proof.
  intros [-> | ->]; destruct r as [rc out err | | e]; simpl;
    try destruct (rc =? 0)%Z; try reflexivity;
    unfold raised_line; destruct (is_timeout e); reflexivity.
Qed.

(** The events a world has gained over [base], read off its trace. *)
Ltac suffix_of T base :=
  match T with
  | base => constr:(@nil event)
  | (?T' ++ ?l)%list => let s := suffix_of T' base in constr:((s ++ l)%list)
  end.

Ltac give_events w :=
  match goal with
  | |- context [pair ?o (mkWorld ?m ?T)] =>
      let s := suffix_of T (trace w) in
      let s' := eval simpl in s in
      exists o, m, s';
      split; [simpl; rewrite <- ?app_assoc; reflexivity |]
  end.

(** What one call shows on the progress bar. *)
Lemma call_description E repo base_dir token verbose pbar w :
  exists r m evs,
    clone_or_update_repo E repo base_dir token verbose pbar w
    = (r, mkWorld m (trace w ++ evs))
    /\ descriptions evs
       = (if pbar_truthy pbar then [description (fs w) base_dir repo] else [])
    /\ bar_steps evs = 0.
Proof.
  unfold description. run_script.
  destruct verbose, (pbar_truthy pbar); simpl;
    destruct (Fs.exists_ (fs w) (repo_path base_dir repo)); simpl;
    try match goal with
      | |- context [Fs.mkdir ?a ?b ?m ?p] => destruct (Fs.mkdir a b m p); simpl
      end;
    try match goal with
      | |- context [git E ?h ?m ?a] =>
          destruct (git E h m a) as [[rc out err | | e] m']; simpl
      end;
    repeat match goal with
      | |- context [(?rc =? 0)%Z] => destruct (rc =? 0)%Z; simpl
      | |- context [PyStr.truthy ?s] => destruct s; simpl
      | |- context [is_timeout ?e] => destruct (is_timeout e); simpl
      end;
    give_events w; split; reflexivity.
Qed.

Lemma bar_steps_app (a b : list event) : bar_steps (a ++ b) = bar_steps a + bar_steps b.
Proof. unfold bar_steps. now rewrite List.filter_app, length_app. Qed.

(** Everything the loop needs to know about one call. *)
Lemma call_facts E repo base_dir token verbose pbar w :
  exists b m evs,
    clone_or_update_repo E repo base_dir token verbose pbar w
    = (Ok b, mkWorld m (trace w ++ evs))
    /\ List.length (reports evs) = (if b then 0 else 1)
    /\ List.length (runs evs) <= 1
    /\ (b = true -> List.length (runs evs) = 1)
    /\ bar_steps evs = 0
    /\ descriptions evs
       = if pbar_truthy pbar then [description (fs w) base_dir repo] else [].
Proof.
  destruct (call_description E repo base_dir token verbose pbar w)
    as (r' & m' & evs' & Hd & Hdesc & Hbar).
  assert (Hsame : forall b m evs,
             clone_or_update_repo E repo base_dir token verbose pbar w
             = (Ok b, mkWorld m (trace w ++ evs)) -> evs' = evs).
  { intros b m evs H. rewrite H in Hd. injection Hd as _ _ Hd.
    now apply app_inv_head in Hd. }
  destruct (Fs.exists_ (fs w) (repo_path base_dir repo)) eqn:Hex.
  - destruct (update_call E repo base_dir token verbose pbar w Hex)
      as (hist & evs & H & Ha & Hp).
    cbv zeta in H, Hp. rewrite (Hsame _ _ _ H) in Hdesc, Hbar.
    eexists; eexists; exists evs. split; [exact H |].
    rewrite reports_plain, Hp, reports_failure_lines by auto.
    rewrite <- (runs_actions evs), Ha. simpl. repeat split; auto.
  - destruct (Fs.mkdir true true (fs w) (PurePath.parent (repo_path base_dir repo)))
      as [e | m1] eqn:Hmk.
    + destruct (clone_call_no_parent E repo base_dir token verbose pbar w e Hex Hmk)
        as (evs & H & Ha & Hp).
      rewrite (Hsame _ _ _ H) in Hdesc, Hbar.
      eexists; eexists; exists evs. split; [exact H |].
      rewrite reports_plain, Hp. rewrite <- (runs_actions evs), Ha.
      unfold raised_line. destruct (is_timeout e); simpl;
        repeat split; auto; discriminate.
    + destruct (clone_call E repo base_dir token verbose pbar w m1 Hex Hmk)
        as (hist & evs & H & Ha & Hp).
      cbv zeta in H, Hp. rewrite (Hsame _ _ _ H) in Hdesc, Hbar.
      eexists; eexists; exists evs. split; [exact H |].
      rewrite reports_plain, Hp, reports_failure_lines by auto.
      rewrite <- (runs_actions evs), Ha. simpl. repeat split; auto.
Qed.

(** The loop, turn after turn. *)
Lemma process_repos_facts E base_dir token verbose pbar :
  forall repos s f w,
  exists s' f' m evs,
    process_repos E repos base_dir token verbose pbar s f w
    = (Ok (s', f'), mkWorld m (trace w ++ evs))
    /\ s' + f' = s + f + List.length repos
    /\ f' = f + List.length (reports evs)
    /\ s' <= s + List.length (runs evs)
    /\ List.length (runs evs) <= List.length repos
    /\ bar_steps evs = List.length repos
    /\ (pbar_truthy pbar = true -> Forall2 describes (descriptions evs) repos).
Proof.
  induction repos as [| r rest IH]; intros s f w.
  - exists s, f, (fs w), []. simpl. rewrite app_nil_r. destruct w.
    repeat split; auto; try lia; intros _; constructor.
  - cbn [process_repos]. unfold bind at 1.
    assert (Hw0 : exists hd,
               when verbose
                 (tqdm_write (nl ++ "[VERBOSE] ========== Processing "
                              ++ full_name r ++ " ===========")) w
               = (Ok tt, mkWorld (fs w) (trace w ++ hd))
               /\ reports hd = [] /\ runs hd = [] /\ bar_steps hd = 0
               /\ descriptions hd = []).
    { destruct verbose; simpl.
      - eexists. split; [reflexivity |]. repeat split; reflexivity.
      - exists []. rewrite app_nil_r. destruct w. repeat split; reflexivity. }
    destruct Hw0 as (hd & -> & Hhr & Hhp & Hhb & Hhd).
    unfold bind at 1.
    destruct (call_facts E r base_dir token verbose pbar
                (mkWorld (fs w) (trace w ++ hd)))
      as (b & m1 & evs1 & -> & Hrep & Hle & Hone & Hbar & Hdesc).
    unfold bind at 1, emit at 1. cbn [fs trace].
    destruct b.
    + destruct (IH (S s) f (mkWorld m1 (((trace w ++ hd) ++ evs1) ++ [PbarUpdate 1])))
        as (s' & f' & m & evs2 & -> & Hsum & Hf & Hs & Hruns & Hsteps & Hds).
      exists s', f', m, (hd ++ evs1 ++ [PbarUpdate 1] ++ evs2)%list.
      cbn [trace]. split; [now rewrite <- !app_assoc |].
      rewrite !reports_app, !runs_app, !bar_steps_app, !descriptions_app, !length_app.
      rewrite Hhr, Hhp, Hhb, Hhd, Hrep, Hbar. specialize (Hone eq_refl).
      cbn. repeat split; try lia.
      intros Ht. rewrite Hdesc, Ht. constructor; [| now apply Hds].
      unfold describes, description.
      destruct (Fs.exists_ _ _); auto.
    + destruct (IH s (S f) (mkWorld m1 (((trace w ++ hd) ++ evs1) ++ [PbarUpdate 1])))
        as (s' & f' & m & evs2 & -> & Hsum & Hf & Hs & Hruns & Hsteps & Hds).
      exists s', f', m, (hd ++ evs1 ++ [PbarUpdate 1] ++ evs2)%list.
      cbn [trace]. split; [now rewrite <- !app_assoc |].
      rewrite !reports_app, !runs_app, !bar_steps_app, !descriptions_app, !length_app.
      rewrite Hhr, Hhp, Hhb, Hhd, Hrep, Hbar.
      cbn. repeat split; try lia.
      intros Ht. rewrite Hdesc, Ht. constructor; [| now apply Hds].
      unfold describes, description.
      destruct (Fs.exists_ _ _); auto.
Qed.

(** ** C6: the timeout of every process *)

Lemma bounded_runs (evs : list event) :
  Forall bounded_process evs -> Forall (fun r => snd r = 300%Z) (runs evs).
Proof.
  induction 1 as [| e evs He _ IH]; [constructor |].
  destruct e; simpl; try exact IH. constructor; [exact He | exact IH].
Qed.

(** The turn of the loop on a descriptor whose process does not return
    in time: one process, one line of report, one more failure, and the
    loop goes on with the descriptors that are left. *)
Lemma timed_out_turn E repo rest base_dir token verbose pbar s f w :
  (forall hist m argv,
      In argv [pull_argv (repo_path base_dir repo);
               clone_argv (authenticated_url (clone_url repo) token)
                          (repo_path base_dir repo)] ->
      fst (git E hist m argv) = TimedOut) ->
  Fs.exists_ (fs w) (repo_path base_dir repo) = true
  \/ (exists m1, Fs.mkdir true true (fs w)
                   (PurePath.parent (repo_path base_dir repo)) = inr m1) ->
  exists m evs,
    process_repos E (repo :: rest) base_dir token verbose pbar s f w
    = process_repos E rest base_dir token verbose pbar s (S f)
        (mkWorld m (trace w ++ evs))
    /\ List.length (runs evs) = 1
    /\ reports evs = ["Timeout for " ++ full_name repo].
Proof.
  intros Hto Hspawn. cbn [process_repos]. unfold bind at 1.
  assert (Hw0 : exists hd,
             when verbose
               (tqdm_write (nl ++ "[VERBOSE] ========== Processing "
                            ++ full_name repo ++ " ===========")) w
             = (Ok tt, mkWorld (fs w) (trace w ++ hd))
             /\ reports hd = [] /\ runs hd = []).
  { destruct verbose; simpl.
    - eexists. split; [reflexivity |]. split; reflexivity.
    - exists []. rewrite app_nil_r. destruct w. repeat split; reflexivity. }
  destruct Hw0 as (hd & -> & Hhr & Hhp).
  unfold bind at 1.
  assert (Hcall : exists m evs1,
             clone_or_update_repo E repo base_dir token verbose pbar
               (mkWorld (fs w) (trace w ++ hd))
             = (Ok false, mkWorld m ((trace w ++ hd) ++ evs1))
             /\ List.length (runs evs1) = 1
             /\ plain evs1 = ["Timeout for " ++ full_name repo]).
  { destruct (Fs.exists_ (fs w) (repo_path base_dir repo)) eqn:Hex.
    - destruct (update_call E repo base_dir token verbose pbar
                  (mkWorld (fs w) (trace w ++ hd)) Hex)
        as (hist & evs & H & Ha & Hp).
      cbv zeta in H, Hp. cbn [fs trace] in H, Hp.
      rewrite Hto in H, Hp by (simpl; auto).
      eexists; exists evs. split; [exact H |]. split; [| exact Hp].
      now rewrite <- runs_actions, Ha.
    - destruct Hspawn as [Habs | (m1 & Hmk)]; [discriminate |].
      destruct (clone_call E repo base_dir token verbose pbar
                  (mkWorld (fs w) (trace w ++ hd)) m1 Hex Hmk)
        as (hist & evs & H & Ha & Hp).
      cbv zeta in H, Hp. cbn [fs trace] in H, Hp.
      rewrite Hto in H, Hp by (simpl; auto).
      eexists; exists evs. split; [exact H |]. split; [| exact Hp].
      now rewrite <- runs_actions, Ha. }
  destruct Hcall as (m & evs1 & -> & Hruns & Hplain).
  unfold bind at 1, emit at 1. cbn [fs trace].
  exists m, (hd ++ evs1 ++ [PbarUpdate 1])%list.
  split; [now rewrite <- !app_assoc |].
  rewrite !runs_app, !reports_app, !length_app, Hhr, Hhp, Hruns.
  split; [reflexivity |].
  rewrite (reports_plain evs1), Hplain. reflexivity.
Qed.

(** C6.  Every [git] process the script spawns, in any number of
    passes, runs under a timeout of 300 seconds.  A call whose process
    does not return in time counts as failed, [False], and is reported
    with the line "Timeout for" and the name of the repository.  In the
    loop such a turn spawns its one process, writes that one report,
    adds one to the count of failures and hands the descriptors that are
    left to the loop; and whatever [git] does, timeouts included, the
    loop acts on every descriptor of the listing at its target path.  So
    a timeout keeps no later action from being executed. *)
Theorem every_process_is_bounded_and_a_timeout_fails_one_action E :
  (forall passes fuel cfg w,
      exists evs,
        trace (snd (driver E passes fuel cfg w)) = (trace w ++ evs)%list
        /\ Forall (fun r => snd r = 300%Z) (runs evs))
  /\ (forall repo base_dir token verbose pbar w,
         (forall hist m argv,
             In argv [pull_argv (repo_path base_dir repo);
                      clone_argv (authenticated_url (clone_url repo) token)
                                 (repo_path base_dir repo)] ->
             fst (git E hist m argv) = TimedOut) ->
         Fs.exists_ (fs w) (repo_path base_dir repo) = true
         \/ (exists m1, Fs.mkdir true true (fs w)
                          (PurePath.parent (repo_path base_dir repo)) = inr m1) ->
         exists evs,
           fst (clone_or_update_repo E repo base_dir token verbose pbar w) = Ok false
           /\ trace (snd (clone_or_update_repo E repo base_dir token verbose pbar w))
              = (trace w ++ evs)%list
           /\ List.length (runs evs) = 1
           /\ plain evs = ["Timeout for " ++ full_name repo])
  /\ (forall repo rest base_dir token verbose pbar success_count fail_count w,
         (forall hist m argv,
             In argv [pull_argv (repo_path base_dir repo);
                      clone_argv (authenticated_url (clone_url repo) token)
                                 (repo_path base_dir repo)] ->
             fst (git E hist m argv) = TimedOut) ->
         Fs.exists_ (fs w) (repo_path base_dir repo) = true
         \/ (exists m1, Fs.mkdir true true (fs w)
                          (PurePath.parent (repo_path base_dir repo)) = inr m1) ->
         exists m evs,
           process_repos E (repo :: rest) base_dir token verbose pbar
             success_count fail_count w
           = process_repos E rest base_dir token verbose pbar
               success_count (S fail_count) (mkWorld m (trace w ++ evs))
           /\ List.length (runs evs) = 1
           /\ reports evs = ["Timeout for " ++ full_name repo])
  /\ (forall repos base_dir token verbose pbar w,
         exists counts m evs parts,
           process_repos E repos base_dir token verbose pbar 0 0 w
           = (Ok counts, mkWorld m (trace w ++ evs))
           /\ actions evs = concat parts
           /\ Forall2 (acts_on base_dir token) repos parts).
Proof.
  split; [| split; [| split]].
  - intros passes fuel cfg w.
    destruct (only_driver E bounded_process) with (passes := passes) (fuel := fuel)
      (cfg := cfg) (w := w) as (evs & H & F).
    + intros [] He; try exact I. discriminate He.
    + intros argv. reflexivity.
    + exists evs. split; [exact H | now apply bounded_runs].
  - intros repo base_dir token verbose pbar w Hto Hspawn.
    destruct (Fs.exists_ (fs w) (repo_path base_dir repo)) eqn:Hex.
    + destruct (update_call E repo base_dir token verbose pbar w Hex)
        as (hist & evs & H & Ha & Hp).
      cbv zeta in H, Hp. rewrite Hto in H, Hp by (simpl; auto).
      exists evs. rewrite H. repeat split; auto.
      now rewrite <- runs_actions, Ha.
    + destruct Hspawn as [Habs | (m1 & Hmk)]; [discriminate |].
      destruct (clone_call E repo base_dir token verbose pbar w m1 Hex Hmk)
        as (hist & evs & H & Ha & Hp).
      cbv zeta in H, Hp. rewrite Hto in H, Hp by (simpl; auto).
      exists evs. rewrite H. repeat split; auto.
      now rewrite <- runs_actions, Ha.
  - intros repo rest base_dir token verbose pbar s f w. apply timed_out_turn.
  - intros repos base_dir token verbose pbar w. apply process_repos_acts.
Qed.

Lemma every_process_is_bounded_and_a_timeout_fails_one_action_witness :
  Fs.exists_ (fs Sample.cloned_mirror)
             (repo_path Sample.repos_dir Sample.alice_foo) = true
  /\ (exists evs,
       fst (clone_or_update_repo Sample.env_hangs Sample.alice_foo Sample.repos_dir
              "TOKEN" false None Sample.cloned_mirror) = Ok false
       /\ trace (snd (clone_or_update_repo Sample.env_hangs Sample.alice_foo
                        Sample.repos_dir "TOKEN" false None Sample.cloned_mirror))
          = (trace Sample.cloned_mirror ++ evs)%list
       /\ List.length (runs evs) = 1
       /\ plain evs = ["Timeout for alice/foo"])
  /\ exists m evs,
       process_repos Sample.env_hangs [Sample.alice_foo; Sample.bob_bar]
         Sample.repos_dir "TOKEN" false None 0 0 Sample.cloned_mirror
       = process_repos Sample.env_hangs [Sample.bob_bar]
           Sample.repos_dir "TOKEN" false None 0 1
           (mkWorld m (trace Sample.cloned_mirror ++ evs))
       /\ List.length (runs evs) = 1
       /\ reports evs = ["Timeout for alice/foo"].
Proof.
  split; [reflexivity |].
  destruct (every_process_is_bounded_and_a_timeout_fails_one_action Sample.env_hangs)
    as (_ & Hcall & Hturn & _).
  split.
  - apply (Hcall Sample.alice_foo Sample.repos_dir "TOKEN" false None
             Sample.cloned_mirror).
    + intros hist m argv _. reflexivity.
    + left. reflexivity.
  - apply (Hturn Sample.alice_foo [Sample.bob_bar] Sample.repos_dir "TOKEN" false None
             0 0 Sample.cloned_mirror).
    + intros hist m argv _. reflexivity.
    + left. reflexivity.
Defined.

(** Both repositories time out; both are attempted, and the pass ends
    with status 1. *)
Example timeouts_do_not_stop_the_pass :
  fst (Sample.first_pass Sample.env_hangs) = Ok 1%Z
  /\ List.map snd (runs (trace (snd (Sample.first_pass Sample.env_hangs))))
     = [300%Z; 300%Z]
  /\ written (trace (snd (Sample.first_pass Sample.env_hangs)))
     = ["Timeout for alice/foo"; "Timeout for bob/bar"].
Proof. vm_compute. repeat split; reflexivity. Qed.

(** The clone of [alice/foo] times out; [bob/bar] is cloned all the
    same, and the pass ends with status 1. *)
Example a_timeout_does_not_stop_the_next_clone :
  fst (Sample.first_pass More.env_hangs_on_alice) = Ok 1%Z
  /\ List.map fst (runs (trace (snd (Sample.first_pass More.env_hangs_on_alice))))
     = [["git"; "clone"; "https://TOKEN@github.com/alice/foo.git"; "repos/alice/foo"];
        ["git"; "clone"; "https://TOKEN@github.com/bob/bar.git"; "repos/bob/bar"]]
  /\ written (trace (snd (Sample.first_pass More.env_hangs_on_alice)))
     = ["Timeout for alice/foo"]
  /\ Fs.is_dir (fs (snd (Sample.first_pass More.env_hangs_on_alice)))
               (mkPath "" ["repos"; "bob"; "bar"]) = true.
Proof. vm_compute. repeat split; reflexivity. Qed.

(** ** The driver loop *)


Lemma main_handler_returns verbose e w :
  exists evs,
    main_handler verbose e w = (Ok 1%Z, mkWorld (fs w) (trace w ++ evs))
    /\ Forall no_process evs.
Proof.
  unfold main_handler, bind, when, print, emit, ret.
  destruct verbose; simpl;
    (eexists; split; [tidy_trace; reflexivity | repeat constructor]).
Qed.

(** ** C7: the status of a pass *)








(** Both clones fail: both are reported, the summary counts them, and
    [main] returns 1. *)
Example failed_clones_make_the_pass_return_1 :
  fst (Sample.first_pass Sample.env_clone_fails) = Ok 1%Z
  /\ reports (trace (snd (Sample.first_pass Sample.env_clone_fails)))
     = ["Failed to clone alice/foo: fatal: unable to access the remote";
        "Failed to clone bob/bar: fatal: unable to access the remote"]
  /\ In "Failed: 2" (printed (trace (snd (Sample.first_pass Sample.env_clone_fails)))).
Proof. vm_compute. repeat split; try reflexivity. auto 10. Qed.

(** ** C8: a fatal enumeration error *)



(* ===================================================================== *)
(** * Further properties of the script *)
(* ===================================================================== *)


(** ** Before the enumeration *)



(** X2.  The base directory is made outside the [try] of [main] and
    without [parents]: when that fails (the path is a file, or its
    parent is missing) the exception leaves [main], before any request,
    and ends the driver loop with it; the process ends with status 1. *)
Theorem base_directory_failure_ends_the_driver E fuel cfg w c t e :
  GITHUB_TOKEN cfg = Some (String c t) ->
  Fs.mkdir false true (fs w) (base_dir_of cfg) = inl e ->
  exists evs,
    main E fuel cfg w = (Raise e, mkWorld (fs w) (trace w ++ evs))
    /\ requests evs = []
    /\ runs evs = []
    /\ forall k,
         fst (driver E (S k) fuel cfg w) = Raise e
         /\ exit_status (fst (driver E (S k) fuel cfg w)) = Some 1%Z.
Proof.
  intros Htok Hmk.
  assert (Hmain : exists evs,
             main E fuel cfg w = (Raise e, mkWorld (fs w) (trace w ++ evs))
             /\ requests evs = [] /\ runs evs = []).
  { unfold base_dir_of in Hmk.
    unfold main, main_setup, bind, when, print, emit, ret, path_mkdir.
    rewrite Htok. destruct (arg_verbose cfg); simpl; rewrite Hmk; simpl;
      (eexists; split; [tidy_trace; reflexivity | split; reflexivity]). }
  destruct Hmain as (evs & Hm & Hr & Hp).
  exists evs. repeat split; auto.
  - simpl. unfold bind at 1. now rewrite Hm.
  - simpl. unfold bind at 1. now rewrite Hm.
Qed.

Lemma base_directory_failure_ends_the_driver_witness :
  Fs.mkdir false true ∅ (base_dir_of More.nested_cli)
  = inl (Exn "FileNotFoundError"
             "[Errno 2] No such file or directory: 'backups/github'")
  /\ forall k,
       fst (driver Sample.env_ok (S k) 10 More.nested_cli (mkWorld ∅ []))
       = Raise (Exn "FileNotFoundError"
                    "[Errno 2] No such file or directory: 'backups/github'").
Proof.
  split; [reflexivity |].
  destruct (base_directory_failure_ends_the_driver Sample.env_ok 10 More.nested_cli
              (mkWorld ∅ []) "T"%char "OKEN"
              (Exn "FileNotFoundError"
                   "[Errno 2] No such file or directory: 'backups/github'"))
    as (evs & _ & _ & _ & H).
  - reflexivity.
  - reflexivity.
  - intros k. apply H.
Defined.

(** ** The enumeration *)

Lemma request_headers_app (a b : list event) :
  request_headers (a ++ b) = (request_headers a ++ request_headers b)%list.
Proof. apply flat_map_app. Qed.

(** The loop asks for consecutive pages, at most one per unit of fuel,
    always with the same headers, and does nothing else outside the
    terminal than to pause. *)
Lemma fetch_pages_requests E token verbose :
  forall fuel repos page w,
  exists evs n,
    snd (fetch_pages E fuel token verbose repos page w)
    = mkWorld (fs w) (trace w ++ evs)
    /\ n <= fuel
    /\ requests evs = map api_url (seq page n)
    /\ request_headers evs = repeat (api_headers token) n
    /\ actions evs = [].
Proof.
  induction fuel as [| fuel IH]; intros repos page w; simpl fetch_pages.
  - exists [], 0. simpl. rewrite app_nil_r. destruct w. repeat split; auto.
  - unfold bind, when, print, time_sleep, emit, requests_get, response_json, ret, raise.
    destruct verbose; simpl;
      match goal with
      | |- context [http E ?h ?u ?hd] => destruct (http E h u hd) as [r | e]
      end; simpl;
      try (eexists; exists 1; split; [tidy_trace; reflexivity |];
           repeat split; [lia | reflexivity ..]);
      destruct (status_code r =? 200)%Z; simpl;
      try (eexists; exists 1; split; [tidy_trace; reflexivity |];
           repeat split; [lia | reflexivity ..]);
      destruct (json r) as [e | [| d pg]]; simpl;
      try (eexists; exists 1; split; [tidy_trace; reflexivity |];
           repeat split; [lia | reflexivity ..]);
      match goal with
      | |- context [fetch_pages E fuel token ?v ?rs (S page) ?w1] =>
          destruct (IH rs (S page) w1) as (evs & n & Hw & Hn & Hreq & Hhd & Hact);
          rewrite Hw
      end;
      (eexists; exists (S n); split; [tidy_trace; reflexivity |]);
      simpl; rewrite Hreq, Hhd, Hact; repeat split; auto; lia.
Qed.

(** X3.  Whatever the forge answers, [get_github_repos] leaves the
    filesystem as it is, spawns no process and makes no directory; its
    requests go to the listing URL for pages 1, 2, 3, ... in this order
    without a gap, each with the two headers that carry the token, and
    there are no more of them than turns of the loop. *)
Theorem enumeration_reads_consecutive_pages_and_nothing_else E fuel token verbose w :
  exists evs n,
    snd (get_github_repos E fuel token verbose w) = mkWorld (fs w) (trace w ++ evs)
    /\ n <= fuel
    /\ requests evs = map api_url (seq 1 n)
    /\ request_headers evs
       = repeat [("Authorization", "token " ++ token);
                 ("Accept", "application/vnd.github.v3+json")] n
    /\ actions evs = [].
Proof.
  unfold get_github_repos, bind, when, print, emit, ret.
  destruct verbose; simpl;
    match goal with
    | |- context [fetch_pages E fuel token ?v ?rs 1 ?w1] =>
        destruct (fetch_pages_requests E token v fuel rs 1 w1)
          as (evs & n & Hw & Hn & Hreq & Hhd & Hact);
        destruct (fetch_pages E fuel token v rs 1 w1) as [[l | e | ] w2];
        simpl in Hw; subst w2
    end;
    simpl;
    (eexists; exists n; split; [tidy_trace; reflexivity |]);
    simpl; rewrite Hreq, Hhd, Hact; repeat split; auto.
Qed.

(** The loop on a forge that serves [pages] from page number [page] on
    and fails on the page after them. *)
Lemma fetch_pages_fails_late E token verbose e :
  forall pages repos page fuel w,
    (forall k, k < List.length pages -> page_is E token (page + k) (nth k pages [])) ->
    Forall (fun pg => pg <> []) pages ->
    page_fails E token (page + List.length pages) e ->
    List.length pages < fuel ->
    exists evs,
      fetch_pages E fuel token verbose repos page w
      = (Raise e, mkWorld (fs w) (trace w ++ evs))
      /\ requests evs = map api_url (seq page (S (List.length pages))).
Proof.
  induction pages as [| pg rest IH]; intros repos page fuel w Hsrv Hne Hfail Hfuel;
    (destruct fuel as [| fuel]; [simpl in Hfuel; lia |]); simpl fetch_pages.
  - simpl in Hfail. rewrite Nat.add_0_r in Hfail.
    unfold bind, when, print, emit, requests_get, response_json, ret, raise.
    destruct verbose; simpl;
      match goal with
      | |- context [http E ?h ?u ?hd] =>
          pose proof (Hfail h) as Hf; destruct (http E h u hd) as [r | e']
      end; simpl;
      try (subst e'; eexists; split; [tidy_trace; reflexivity | reflexivity]);
      destruct (status_code r =? 200)%Z; simpl;
      try (subst e; eexists; split; [tidy_trace; reflexivity | reflexivity]);
      rewrite Hf; simpl;
      (eexists; split; [tidy_trace; reflexivity | reflexivity]).
  - inversion Hne as [| ? ? Hpg Hrest]; subst.
    assert (Hshift : forall k, k < List.length rest ->
                               page_is E token (S page + k) (nth k rest [])).
    { intros k Hk. rewrite Nat.add_succ_comm. apply (Hsrv (S k)). simpl. lia. }
    assert (Hfail' : page_fails E token (S page + List.length rest) e).
    { rewrite Nat.add_succ_comm. exact Hfail. }
    assert (H0 : page_is E token page pg).
    { rewrite <- (Nat.add_0_r page). apply (Hsrv 0). simpl. lia. }
    simpl in Hfuel. apply PeanoNat.lt_S_n in Hfuel.
    unfold bind, when, print, time_sleep, emit, requests_get, response_json, ret, raise.
    destruct pg as [| d pg]; [contradiction |].
    destruct verbose; simpl;
      match goal with
      | |- context [http E ?h _ _] => destruct (H0 h) as (r & Hr & Hst & Hj)
      end;
      rewrite Hr; simpl; rewrite Hst, Hj; simpl;
      match goal with
      | |- context [fetch_pages E fuel token ?v ?rs (S page) ?w1] =>
          destruct (IH rs (S page) fuel w1 Hshift Hrest Hfail' Hfuel) as (evs & -> & Hreq)
      end;
      simpl;
      (eexists; split; [tidy_trace; reflexivity |]);
      simpl; rewrite Hreq; reflexivity.
Qed.

(** A pass whose enumeration raises: the exception is caught, the pass
    returns 1, and no process was spawned. *)
Lemma pass_after_failed_enumeration E fuel cfg w token base_dir w1 e w2 :
  main_setup cfg w = (Ok (Some (token, base_dir)), w1) ->
  get_github_repos E fuel token (arg_verbose cfg) w1 = (Raise e, w2) ->
  exists w3,
    main E fuel cfg w = (Ok 1%Z, w3)
    /\ runs (trace w3) = runs (trace w)
    /\ fs w3 = fs w1.
Proof.
  intros Hsetup Hget.
  destruct (main_handler_returns (arg_verbose cfg) e w2) as (evs3 & Hh & F3).
  exists (mkWorld (fs w2) (trace w2 ++ evs3)). split.
  { unfold main, bind at 1. rewrite Hsetup.
    unfold try_except, main_body, pass_counts, bind at 1. unfold bind at 1.
    rewrite Hget. exact Hh. }
  destruct (only_main_setup no_process (fun e H => H) cfg w) as (evs1 & H1 & F1).
  destruct (only_get_github_repos E no_process (fun e H => H) fuel token
              (arg_verbose cfg) w1) as (evs2 & H2 & F2).
  destruct (get_github_repos_paced E fuel token (arg_verbose cfg) w1)
    as (evs2' & Hfs & _).
  rewrite Hsetup in H1. rewrite Hget in H2, Hfs. simpl in H1, H2, Hfs.
  split.
  - simpl. rewrite H2, H1, !runs_app.
    rewrite (runs_no_process evs1 F1), (runs_no_process evs2 F2),
      (runs_no_process evs3 F3).
    now rewrite !app_nil_r.
  - simpl. now rewrite Hfs.
Qed.

(** X4.  The descriptors gathered from earlier pages are lost when a
    later page fails: if pages 1 to [n] are served and the request for
    page [n + 1] raises, or is answered with another status than 200, or
    with a body that does not decode, then [get_github_repos] raises
    after [n + 1] requests and returns nothing, and the pass that called
    it returns 1 without having cloned or pulled any of the
    repositories it had already listed. *)
Theorem a_failing_page_discards_the_pages_before_it
        E fuel cfg w token base_dir w1 pages e :
  main_setup cfg w = (Ok (Some (token, base_dir)), w1) ->
  (forall k, k < List.length pages -> page_is E token (S k) (nth k pages [])) ->
  Forall (fun pg => pg <> []) pages ->
  page_fails E token (S (List.length pages)) e ->
  List.length pages < fuel ->
  (exists evs,
      get_github_repos E fuel token (arg_verbose cfg) w1
      = (Raise e, mkWorld (fs w1) (trace w1 ++ evs))
      /\ requests evs = map api_url (seq 1 (S (List.length pages))))
  /\ exists w3,
       main E fuel cfg w = (Ok 1%Z, w3)
       /\ runs (trace w3) = runs (trace w)
       /\ fs w3 = fs w1.
Proof.
  intros Hsetup Hsrv Hne Hfail Hfuel.
  assert (Hget : exists evs,
             get_github_repos E fuel token (arg_verbose cfg) w1
             = (Raise e, mkWorld (fs w1) (trace w1 ++ evs))
             /\ requests evs = map api_url (seq 1 (S (List.length pages)))).
  { unfold get_github_repos, bind, when, print, emit, ret.
    destruct (arg_verbose cfg); simpl;
      match goal with
      | |- context [fetch_pages E fuel token ?v ?rs 1 ?w0] =>
          destruct (fetch_pages_fails_late E token v e pages rs 1 fuel w0
                      Hsrv Hne Hfail Hfuel) as (evs & -> & Hreq)
      end;
      simpl; (eexists; split; [tidy_trace; reflexivity |]);
      simpl; rewrite Hreq; reflexivity. }
  split; [exact Hget |].
  destruct Hget as (evs & Hget & _).
  exact (pass_after_failed_enumeration E fuel cfg w token base_dir w1 e _ Hsetup Hget).
Qed.

Lemma a_failing_page_discards_the_pages_before_it_witness :
  fst (get_github_repos More.env_breaks_on_third 10 "TOKEN" false Sample.empty_mirror)
  = Raise (Exn "ConnectionError" "Connection aborted.")
  /\ exists w3,
       Sample.first_pass More.env_breaks_on_third = (Ok 1%Z, w3)
       /\ runs (trace w3) = runs (trace Sample.empty_mirror)
       /\ fs w3 = fs Sample.empty_mirror.
Proof.
  destruct (a_failing_page_discards_the_pages_before_it More.env_breaks_on_third 10
              (Sample.cli false (Some "TOKEN")) Sample.empty_mirror "TOKEN"
              Sample.repos_dir
              (snd (main_setup (Sample.cli false (Some "TOKEN")) Sample.empty_mirror))
              [Sample.descriptors 0 100; Sample.descriptors 100 100]
              (Exn "ConnectionError" "Connection aborted."))
    as [_ Hmain].
  - reflexivity.
  - intros k Hk hist.
    exists (mkResponse 200 ""
              (inr (Sample.page_at [Sample.descriptors 0 100; Sample.descriptors 100 100]
                                   1 (api_url (S k))))).
    split; [| split; [reflexivity |]].
    + unfold More.env_breaks_on_third, More.breaks_on_third. cbn [http].
      destruct (String.eqb_spec (api_url (S k)) (api_url 3)) as [Heq | _].
      * apply api_url_inj in Heq. simpl in Hk. lia.
      * reflexivity.
    + cbn [json]. f_equal.
      apply (page_at_nth [Sample.descriptors 0 100; Sample.descriptors 100 100] 1 k).
  - repeat constructor; discriminate.
  - intros hist. reflexivity.
  - simpl. lia.
  - split; [vm_compute; reflexivity | exact Hmain].
Defined.


Lemma fetch_pages_endless E token verbose :
  (forall hist i,
      exists r d l,
        http E hist (api_url i) (api_headers token) = Response r
        /\ status_code r = 200%Z /\ json r = inr (d :: l)) ->
  forall fuel repos page w,
  exists evs,
    fetch_pages E fuel token verbose repos page w
    = (OutOfFuel, mkWorld (fs w) (trace w ++ evs))
    /\ requests evs = map api_url (seq page fuel)
    /\ sleeps evs = repeat (1 # 2)%Q fuel.
Proof.
  intros Hsrv. induction fuel as [| fuel IH]; intros repos page w; simpl fetch_pages.
  - exists []. simpl. rewrite app_nil_r. destruct w. auto.
  - unfold bind, when, print, time_sleep, emit, requests_get, response_json, ret, raise.
    destruct verbose; simpl;
      match goal with
      | |- context [http E ?h ?u ?hd] =>
          destruct (Hsrv h page) as (r & d & l & Hr & Hst & Hj)
      end;
      rewrite Hr; simpl; rewrite Hst, Hj; simpl;
      match goal with
      | |- context [fetch_pages E fuel token ?v ?rs (S page) ?w1] =>
          destruct (IH rs (S page) w1) as (evs & -> & Hreq & Hsl)
      end;
      simpl;
      (eexists; split; [tidy_trace; reflexivity |]);
      simpl; rewrite Hreq, Hsl; split; reflexivity.
Qed.

(** X5.  The enumeration has no limit of its own on the number of
    pages: on a forge that answers every request with a non-empty page
    the loop never ends.  After any number of turns it has made that
    many requests, for pages 1, 2, 3, ..., has paused half a second
    after each, and is about to ask for the next page. *)
Theorem enumeration_has_no_page_limit E token verbose :
  (forall hist i,
      exists r d l,
        http E hist (api_url i) (api_headers token) = Response r
        /\ status_code r = 200%Z /\ json r = inr (d :: l)) ->
  forall fuel w,
  exists evs,
    get_github_repos E fuel token verbose w
    = (OutOfFuel, mkWorld (fs w) (trace w ++ evs))
    /\ requests evs = map api_url (seq 1 fuel)
    /\ sleeps evs = repeat (1 # 2)%Q fuel.
Proof.
  intros Hsrv fuel w. unfold get_github_repos, bind, when, print, emit, ret.
  destruct verbose; simpl;
    match goal with
    | |- context [fetch_pages E fuel token ?v ?rs 1 ?w1] =>
        destruct (fetch_pages_endless E token v Hsrv fuel rs 1 w1)
          as (evs & -> & Hreq & Hsl)
    end;
    simpl; (eexists; split; [tidy_trace; reflexivity |]);
    simpl; rewrite Hreq, Hsl; split; reflexivity.
Qed.

Lemma enumeration_has_no_page_limit_witness :
  exists evs,
    get_github_repos (mkEnv More.endless Sample.git_ok) 7 "TOKEN" false
      Sample.empty_mirror
    = (OutOfFuel, mkWorld (fs Sample.empty_mirror) (trace Sample.empty_mirror ++ evs))
    /\ requests evs = map api_url (seq 1 7)
    /\ sleeps evs = repeat (1 # 2)%Q 7.
Proof.
  apply (enumeration_has_no_page_limit (mkEnv More.endless Sample.git_ok) "TOKEN" false).
  intros hist i. eexists. exists Sample.alice_foo, []. repeat split; reflexivity.
Defined.




(** ** The loop over the repositories *)

(** X7.  No exception leaves [clone_or_update_repo]: whatever the
    filesystem holds and whatever [git] does, the call returns a
    boolean.  It spawns one process at most; it returns [True] only
    after a process it spawned, and then writes no failure line; when it
    returns [False] it has written exactly one failure line ("Failed to
    update", "Failed to clone", "Timeout for" or "Error with"). *)
Theorem a_call_returns_a_verdict_and_reports_each_failure_once
        E repo base_dir token verbose pbar w :
  exists b m evs,
    clone_or_update_repo E repo base_dir token verbose pbar w
    = (Ok b, mkWorld m (trace w ++ evs))
    /\ List.length (runs evs) <= 1
    /\ (b = true -> List.length (runs evs) = 1 /\ reports evs = [])
    /\ (b = false -> List.length (reports evs) = 1).
Proof.
  destruct (call_facts E repo base_dir token verbose pbar w)
    as (b & m & evs & H & Hrep & Hle & Hone & _).
  exists b, m, evs. split; [exact H |]. split; [exact Hle |]. split.
  - intros ->. split; [now apply Hone |].
    destruct (reports evs); [reflexivity | discriminate Hrep].
  - intros ->. exact Hrep.
Qed.

Lemma a_call_returns_a_verdict_and_reports_each_failure_once_witness :
  fst (Sample.clone_with_token "TOKEN") = Ok true
  /\ List.length (runs (trace (snd (Sample.clone_with_token "TOKEN")))) = 1
  /\ reports (trace (snd (Sample.clone_with_token "TOKEN"))) = [].
Proof.
  destruct (a_call_returns_a_verdict_and_reports_each_failure_once Sample.env_ok
              Sample.alice_foo Sample.repos_dir "TOKEN" false None Sample.empty_mirror)
    as (b & m & evs & H & _ & Ht & _).
  unfold Sample.clone_with_token. rewrite H.
  assert (Hb : b = true).
  { apply (f_equal fst) in H. vm_compute in H. now injection H as <-. }
  destruct (Ht Hb) as [Hruns Hrep]. subst b. simpl.
  repeat split; assumption.
Defined.

(** X8.  The loop of [main] ends for every listing and every behaviour
    of [git], with one verdict per descriptor.  Its count of failures
    is the number of failure lines written, its count of successes is
    not larger than the number of processes spawned, there is at most
    one process per descriptor, and the progress bar advances once per
    descriptor. *)
Theorem the_loop_counts_what_it_reports E repos base_dir token verbose pbar w :
  exists success_count fail_count m evs,
    process_repos E repos base_dir token verbose pbar 0 0 w
    = (Ok (success_count, fail_count), mkWorld m (trace w ++ evs))
    /\ success_count + fail_count = List.length repos
    /\ fail_count = List.length (reports evs)
    /\ success_count <= List.length (runs evs)
    /\ List.length (runs evs) <= List.length repos
    /\ bar_steps evs = List.length repos.
Proof.
  destruct (process_repos_facts E base_dir token verbose pbar repos 0 0 w)
    as (s & f & m & evs & H & Hsum & Hf & Hs & Hr & Hb & _).
  exists s, f, m, evs. repeat split; auto.
Qed.

(** X9.  The repositories are taken in the order of the listing, each
    once: with a progress bar that shows, the descriptions set on it
    during the loop name the descriptors one by one, in their order, as
    "Updating" or "Cloning" followed by the full name. *)
Theorem the_loop_follows_the_listing E repos base_dir token verbose total w :
  0 < total ->
  exists counts m evs,
    process_repos E repos base_dir token verbose (Some total) 0 0 w
    = (Ok counts, mkWorld m (trace w ++ evs))
    /\ Forall2 describes (descriptions evs) repos.
Proof.
  intros Htotal.
  destruct (process_repos_facts E base_dir token verbose (Some total) repos 0 0 w)
    as (s & f & m & evs & H & _ & _ & _ & _ & _ & Hd).
  exists (s, f), m, evs. split; [exact H |].
  apply Hd. simpl. now apply Nat.ltb_lt.
Qed.

Lemma the_loop_follows_the_listing_witness :
  0 < 2
  /\ descriptions
       (trace (snd (process_repos Sample.env_ok [Sample.alice_foo; Sample.bob_bar]
                      Sample.repos_dir "TOKEN" false (Some 2) 0 0 Sample.cloned_mirror)))
     = ["Updating alice/foo"; "Cloning bob/bar"].
Proof.
  split; [lia |].
  destruct (the_loop_follows_the_listing Sample.env_ok [Sample.alice_foo; Sample.bob_bar]
              Sample.repos_dir "TOKEN" false 2 Sample.cloned_mirror)
    as (counts & m & evs & H & _); [lia |].
  rewrite H. vm_compute in H. injection H as _ _ <-. reflexivity.
Defined.

(** ** The URL handed to [git clone] *)

Lemma replace_from_absent old new :
  forall s, occurs old s = false -> PyStr.replace_from old new 0 s = s.
Proof.
  induction s as [| c s IH]; [reflexivity |].
  intros H. cbn [occurs] in H. apply orb_false_iff in H as [Hs Ho].
  cbn [PyStr.replace_from]. rewrite Hs. now rewrite IH.
Qed.

(** X10.  A clone URL in which "https://" does not occur, such as an
    [ssh] or a plain [http] URL, is handed to [git clone] as it is: the
    token is not used for it. *)
Theorem token_is_not_used_without_https url :
  occurs "https://" url = false ->
  forall token, authenticated_url url token = url.
Proof.
  intros H token. unfold authenticated_url, PyStr.replace.
  now apply replace_from_absent.
Qed.

Lemma token_is_not_used_without_https_witness :
  occurs "https://" "git@github.com:alice/foo.git" = false
  /\ authenticated_url "git@github.com:alice/foo.git" "TOKEN"
     = "git@github.com:alice/foo.git".
Proof.
  split; [reflexivity |].
  apply (token_is_not_used_without_https "git@github.com:alice/foo.git").
  reflexivity.
Defined.

(** ** What [--verbose] changes *)

Lemma without_diagnostics_app (a b : list event) :
  without_diagnostics (a ++ b)
  = (without_diagnostics a ++ without_diagnostics b)%list.
Proof. apply List.filter_app. Qed.

Lemma agree_refl w : agree w w.
Proof. split; reflexivity. Qed.

Lemma agree_emit wv wq e :
  agree wv wq ->
  agree (mkWorld (fs wv) (trace wv ++ [e])) (mkWorld (fs wq) (trace wq ++ [e])).
Proof.
  intros [Hfs Ht]. split; simpl; [exact Hfs |].
  now rewrite !without_diagnostics_app, Ht.
Qed.

Section Sim.

Variable E : env.
Hypothesis E_deaf : deaf_to_diagnostics E.

Lemma sim_ret {A} (a : A) : sim (ret a) (ret a).
Proof. intros wv wq H. split; [reflexivity | exact H]. Qed.

Lemma sim_raise {A} (e : exn) : sim (@raise A e) (raise e).
Proof. intros wv wq H. split; [reflexivity | exact H]. Qed.

Lemma sim_out_of_fuel {A} : sim (@out_of_fuel A) out_of_fuel.
Proof. intros wv wq H. split; [reflexivity | exact H]. Qed.

Lemma sim_emit e : sim (emit e) (emit e).
Proof. intros wv wq H. split; [reflexivity | now apply agree_emit]. Qed.

Lemma sim_bind {A B} (cv cq : M A) (kv kq : A -> M B) :
  sim cv cq -> (forall a, sim (kv a) (kq a)) -> sim (bind cv kv) (bind cq kq).
Proof.
  intros Hc Hk wv wq H. unfold bind.
  destruct (Hc wv wq H) as [Hr Hw].
  destruct (cv wv) as [rv wv'], (cq wq) as [rq wq']. simpl in Hr, Hw. subst rq.
  destruct rv as [a | e | ]; [apply Hk, Hw | split; auto | split; auto].
Qed.

Lemma sim_try_except {A} (bv bq : M A) (hv hq : exn -> M A) :
  sim bv bq -> (forall e, sim (hv e) (hq e)) ->
  sim (try_except bv hv) (try_except bq hq).
Proof.
  intros Hc Hk wv wq H. unfold try_except.
  destruct (Hc wv wq H) as [Hr Hw].
  destruct (bv wv) as [rv wv'], (bq wq) as [rq wq']. simpl in Hr, Hw. subst rq.
  destruct rv as [a | e | ]; [split; auto | apply Hk, Hw | split; auto].
Qed.

Lemma sim_when_same b (cv cq : M unit) : sim cv cq -> sim (when b cv) (when b cq).
Proof. destruct b; simpl; auto using sim_ret. Qed.

(** The heart of it: what verbose mode adds is chatter. *)
Lemma sim_when_verbose (c : M unit) : chatter c -> sim (when true c) (when false c).
Proof.
  intros Hc wv wq [Hfs Ht]. simpl.
  destruct (Hc wv) as (evs & -> & Hevs). simpl.
  split; [reflexivity |]. split; simpl; [exact Hfs |].
  now rewrite without_diagnostics_app, Hevs, app_nil_r.
Qed.

Lemma sim_path_exists p : sim (path_exists p) (path_exists p).
Proof.
  intros wv wq [Hfs Ht]. unfold path_exists. simpl. rewrite Hfs.
  split; [reflexivity | split; auto].
Qed.

Lemma sim_path_mkdir p parents exist_ok :
  sim (path_mkdir p parents exist_ok) (path_mkdir p parents exist_ok).
Proof.
  intros wv wq [Hfs Ht]. unfold path_mkdir. rewrite Hfs.
  destruct (Fs.mkdir parents exist_ok (fs wq) p); simpl;
    (split; [reflexivity |]); split; simpl; auto;
    now rewrite !without_diagnostics_app, Ht.
Qed.

Lemma sim_requests_get url headers :
  sim (requests_get E url headers) (requests_get E url headers).
Proof.
  intros wv wq [Hfs Ht]. unfold requests_get.
  destruct (E_deaf _ _ Ht) as [Hh _]. rewrite Hh.
  destruct (http E (trace wq) url headers); simpl;
    (split; [reflexivity |]); split; simpl; auto;
    now rewrite !without_diagnostics_app, Ht.
Qed.

Lemma sim_response_json r : sim (response_json r) (response_json r).
Proof. unfold response_json. destruct (json r); auto using sim_ret, sim_raise. Qed.

Lemma sim_subprocess_run argv t :
  sim (subprocess_run E argv t) (subprocess_run E argv t).
Proof.
  intros wv wq [Hfs Ht]. unfold subprocess_run.
  destruct (E_deaf _ _ Ht) as [_ Hg]. rewrite Hg, Hfs.
  destruct (git E (trace wq) (fs wq) argv) as [[rc out err | | e] m]; simpl;
    (split; [reflexivity |]); split; simpl; auto;
    now rewrite !without_diagnostics_app, Ht.
Qed.

Lemma sim_with_tqdm {A} total (bv bq : option nat -> M A) :
  (forall pbar, sim (bv pbar) (bq pbar)) ->
  sim (with_tqdm total bv) (with_tqdm total bq).
Proof.
  intros Hb. unfold with_tqdm. apply sim_bind; [apply sim_emit |].
  intros _ wv wq H. destruct (Hb (Some total) wv wq H) as [Hr [Hfs Ht]].
  destruct (bv (Some total) wv) as [rv wv'], (bq (Some total) wq) as [rq wq'].
  simpl in *. split; [exact Hr |]. split; simpl; [exact Hfs |].
  now rewrite !without_diagnostics_app, Ht.
Qed.

Lemma chatter_ret : chatter (ret tt).
Proof. intros w. exists []. simpl. rewrite app_nil_r. now destruct w. Qed.

Lemma chatter_print s : is_verbose_line s = true -> chatter (print s).
Proof.
  intros Hs w. exists [Print s]. split; [reflexivity |].
  unfold without_diagnostics. simpl. now rewrite Hs.
Qed.

Lemma chatter_tqdm_write s : is_verbose_line s = true -> chatter (tqdm_write s).
Proof.
  intros Hs w. exists [TqdmWrite s]. split; [reflexivity |].
  unfold without_diagnostics. simpl. now rewrite Hs.
Qed.

Lemma chatter_seq (c k : M unit) :
  chatter c -> chatter k -> chatter (bind c (fun _ => k)).
Proof.
  intros Hc Hk w. unfold bind.
  destruct (Hc w) as (e1 & -> & H1).
  destruct (Hk (mkWorld (fs w) (trace w ++ e1))) as (e2 & -> & H2). simpl.
  exists (e1 ++ e2)%list. rewrite app_assoc. split; [reflexivity |].
  now rewrite without_diagnostics_app, H1, H2.
Qed.

Lemma chatter_when b (c : M unit) : chatter c -> chatter (when b c).
Proof. destruct b; simpl; auto using chatter_ret. Qed.

End Sim.

Ltac chatter_step :=
  match goal with
  | |- chatter (bind _ _) => apply chatter_seq
  | |- chatter (ret tt) => apply chatter_ret
  | |- chatter (when _ _) => apply chatter_when
  | |- chatter (print _) => apply chatter_print; reflexivity
  | |- chatter (tqdm_write _) => apply chatter_tqdm_write; reflexivity
  end.

Ltac sim_step :=
  match goal with
  | |- sim (bind _ _) (bind _ _) => apply sim_bind; [ | intros ? ]
  | |- sim (ret _) (ret _) => apply sim_ret
  | |- sim (raise _) (raise _) => apply sim_raise
  | |- sim out_of_fuel out_of_fuel => apply sim_out_of_fuel
  | |- sim (when true _) (when false _) => apply sim_when_verbose
  | |- sim (when _ _) (when _ _) => apply sim_when_same
  | |- sim (emit _) (emit _) => apply sim_emit
  | |- sim (print _) (print _) => apply sim_emit
  | |- sim (tqdm_write _) (tqdm_write _) => apply sim_emit
  | |- sim (time_sleep _) (time_sleep _) => apply sim_emit
  | |- sim (path_exists _) (path_exists _) => apply sim_path_exists
  | |- sim (path_mkdir _ _ _) (path_mkdir _ _ _) => apply sim_path_mkdir
  | |- sim (requests_get _ _ _) (requests_get _ _ _) => apply sim_requests_get
  | |- sim (response_json _) (response_json _) => apply sim_response_json
  | |- sim (subprocess_run _ _ _) (subprocess_run _ _ _) => apply sim_subprocess_run
  | |- sim (try_except _ _) (try_except _ _) => apply sim_try_except; [ | intros ? ]
  | |- sim (with_tqdm _ _) (with_tqdm _ _) => apply sim_with_tqdm; intros ?
  | |- sim (if ?b then _ else _) (if ?b then _ else _) => destruct b
  | |- sim (match ?x with _ => _ end) (match ?x with _ => _ end) => destruct x
  | |- chatter _ => chatter_step
  end.

Section SimProgram.

Variable E : env.
Hypothesis E_deaf : deaf_to_diagnostics E.

Lemma sim_fetch_pages token :
  forall fuel repos page,
    sim (fetch_pages E fuel token true repos page)
        (fetch_pages E fuel token false repos page).
Proof.
  induction fuel as [| fuel IH]; intros repos page; cbn [fetch_pages];
    repeat sim_step; auto.
Qed.

Lemma sim_get_github_repos fuel token :
  sim (get_github_repos E fuel token true) (get_github_repos E fuel token false).
Proof.
  unfold get_github_repos; repeat sim_step; auto using sim_fetch_pages.
Qed.

Lemma chatter_report_git what rc out err : chatter (report_git what rc out err).
Proof. unfold report_git; repeat chatter_step. Qed.

Lemma sim_clone_or_update_repo repo base_dir token pbar :
  sim (clone_or_update_repo E repo base_dir token true pbar)
      (clone_or_update_repo E repo base_dir token false pbar).
Proof.
  unfold clone_or_update_repo, clone_or_update_body, clone_or_update_handler.
  repeat sim_step; auto using chatter_report_git.
Qed.

Lemma sim_process_repos base_dir token pbar :
  forall repos s f,
    sim (process_repos E repos base_dir token true pbar s f)
        (process_repos E repos base_dir token false pbar s f).
Proof.
  induction repos as [| r rest IH]; intros s f; cbn [process_repos];
    repeat sim_step; auto using sim_clone_or_update_repo.
Qed.

Lemma chatter_print_repo_list :
  forall repos i, chatter (print_repo_list i repos).
Proof.
  induction repos as [| r rest IH]; intros i; cbn [print_repo_list];
    repeat chatter_step; auto.
Qed.

Lemma sim_pass_counts fuel token base_dir :
  sim (pass_counts E fuel token base_dir true) (pass_counts E fuel token base_dir false).
Proof.
  unfold pass_counts; repeat sim_step;
    auto using sim_get_github_repos, sim_process_repos, chatter_print_repo_list.
Qed.

Lemma sim_summary counts : sim (summary true counts) (summary false counts).
Proof. unfold summary; repeat sim_step. Qed.

Lemma sim_main_handler e : sim (main_handler true e) (main_handler false e).
Proof. unfold main_handler; repeat sim_step. Qed.

Lemma sim_main_setup cfg :
  sim (main_setup (with_verbose true cfg)) (main_setup (with_verbose false cfg)).
Proof.
  unfold main_setup, with_verbose. cbn [arg_verbose GITHUB_TOKEN REPOS_DIR cwd].
  repeat sim_step.
Qed.

Lemma sim_main fuel cfg :
  sim (main E fuel (with_verbose true cfg)) (main E fuel (with_verbose false cfg)).
Proof.
  unfold main, main_body. apply sim_bind; [apply sim_main_setup |].
  intros setup. cbn [arg_verbose with_verbose].
  repeat sim_step; auto using sim_pass_counts, sim_summary, sim_main_handler.
Qed.

Lemma sim_driver fuel cfg :
  forall passes,
    sim (driver E passes fuel (with_verbose true cfg))
        (driver E passes fuel (with_verbose false cfg)).
Proof.
  induction passes as [| k IH]; cbn [driver]; repeat sim_step; auto using sim_main.
Qed.

End SimProgram.

(** Without [--verbose] the script writes no diagnostics. *)

Ltac quiet_step :=
  first [ only_step
        | match goal with
          | |- plain_event _ => reflexivity
          end ].

Section Quiet.

Variable E : env.

Lemma quiet_fetch_pages token :
  forall fuel repos page, only plain_event (fetch_pages E fuel token false repos page).
Proof.
  induction fuel as [| fuel IH]; intros repos page; cbn [fetch_pages];
    cbv beta iota delta [when]; repeat quiet_step; auto.
Qed.

Lemma quiet_get_github_repos fuel token : only plain_event (get_github_repos E fuel token false).
Proof.
  unfold get_github_repos; cbv beta iota delta [when];
    repeat quiet_step; auto using quiet_fetch_pages.
Qed.

Lemma quiet_clone_or_update_repo repo base_dir token pbar :
  only plain_event (clone_or_update_repo E repo base_dir token false pbar).
Proof.
  unfold clone_or_update_repo, clone_or_update_body, clone_or_update_handler.
  cbv beta iota delta [when]. repeat quiet_step.
Qed.

Lemma quiet_process_repos base_dir token pbar :
  forall repos s f, only plain_event (process_repos E repos base_dir token false pbar s f).
Proof.
  induction repos as [| r rest IH]; intros s f; cbn [process_repos];
    cbv beta iota delta [when]; repeat quiet_step;
    auto using quiet_clone_or_update_repo.
Qed.

Lemma quiet_main fuel cfg : only plain_event (main E fuel (with_verbose false cfg)).
Proof.
  unfold main, main_setup, main_body, pass_counts, summary, main_handler, with_verbose.
  cbn [arg_verbose GITHUB_TOKEN REPOS_DIR cwd]. cbv beta iota delta [when].
  repeat quiet_step; auto using quiet_get_github_repos, quiet_process_repos.
Qed.

Lemma quiet_driver fuel cfg :
  forall passes, only plain_event (driver E passes fuel (with_verbose false cfg)).
Proof.
  induction passes as [| k IH]; cbn [driver]; repeat quiet_step; auto using quiet_main.
Qed.

End Quiet.

Lemma without_diagnostics_plain (evs : list event) :
  Forall plain_event evs -> without_diagnostics evs = evs.
Proof.
  induction 1 as [| e evs He _ IH]; [reflexivity |].
  unfold without_diagnostics, plain_event in *. simpl. now rewrite He, IH.
Qed.

(** What two computations that simulate each other leave in the trace,
    when the quiet one writes no diagnostics. *)
Lemma sim_traces {A} (cv cq : M A) w :
  sim cv cq ->
  only (fun _ => True) cv ->
  only plain_event cq ->
  fst (cv w) = fst (cq w)
  /\ fs (snd (cv w)) = fs (snd (cq w))
  /\ exists evs_v evs_q,
       trace (snd (cv w)) = (trace w ++ evs_v)%list
       /\ trace (snd (cq w)) = (trace w ++ evs_q)%list
       /\ evs_q = without_diagnostics evs_v.
Proof.
  intros Hsim Hv Hq.
  destruct (Hsim w w (agree_refl w)) as (Hr & Hfs & Ht).
  destruct (Hv w) as (ev & Hev & _). destruct (Hq w) as (eq' & Heq & Fq).
  split; [exact Hr |]. split; [exact Hfs |].
  exists ev, eq'. split; [exact Hev |]. split; [exact Heq |].
  rewrite Hev, Heq, !without_diagnostics_app in Ht.
  apply app_inv_head in Ht. rewrite (without_diagnostics_plain eq' Fq) in Ht.
  now symmetry.
Qed.

(** The trace of a quiet first pass is the trace of a verbose one
    without its diagnostics. *)
Example quiet_trace_of_a_first_pass :
  trace (snd (main Sample.env_ok 10 (Sample.cli false (Some "TOKEN")) Sample.empty_mirror))
  = without_diagnostics
      (trace (snd (main Sample.env_ok 10 (Sample.cli true (Some "TOKEN"))
                     Sample.empty_mirror))).
Proof. vm_compute. reflexivity. Qed.

(** ** What the script does to the filesystem *)

Lemma os_mkdir_grows m p m1 : Fs.os_mkdir m p = inr m1 -> m ⊆ m1.
Proof.
  unfold Fs.os_mkdir, Fs.entry.
  destruct (parts p) eqn:Hp; [discriminate |].
  destruct (parts (PurePath.parent p)); [| destruct (m !! PurePath.parent p) as [[] |]];
    try discriminate; destruct (m !! p) eqn:Hm; try discriminate;
    intros [= <-]; now apply insert_subseteq.
Qed.

Lemma mkdir_at_grows :
  forall depth parents exist_ok m p m1,
    Fs.mkdir_at depth parents exist_ok m p = inr m1 -> m ⊆ m1.
Proof.
  induction depth as [| d IH]; intros parents exist_ok m p m1; cbn [Fs.mkdir_at].
  - destruct (Fs.os_mkdir m p) as [e | m2] eqn:Hm.
    + destruct (is_not_found e);
        [destruct (negb parents || bool_decide (PurePath.parent p = p)); discriminate |].
      destruct (negb exist_ok || negb (Fs.is_dir m p)); [discriminate |].
      now intros [= <-].
    + intros [= <-]. eapply os_mkdir_grows, Hm.
  - destruct (Fs.os_mkdir m p) as [e | m2] eqn:Hm.
    + destruct (is_not_found e).
      * destruct (negb parents || bool_decide (PurePath.parent p = p)); [discriminate |].
        destruct (Fs.mkdir_at d true true m (PurePath.parent p)) as [e' | m3] eqn:Hrec;
          [discriminate |].
        apply IH in Hrec.
        destruct (Fs.os_mkdir m3 p) as [e2 | m4] eqn:Hm3.
        -- destruct (is_not_found e2); [discriminate |].
           destruct (negb exist_ok || negb (Fs.is_dir m3 p)); [discriminate |].
           now intros [= <-].
        -- intros [= <-]. etransitivity; [exact Hrec | eapply os_mkdir_grows, Hm3].
      * destruct (negb exist_ok || negb (Fs.is_dir m p)); [discriminate |].
        now intros [= <-].
    + intros [= <-]. eapply os_mkdir_grows, Hm.
Qed.

Lemma mkdir_grows parents exist_ok m p m1 :
  Fs.mkdir parents exist_ok m p = inr m1 -> m ⊆ m1.
Proof. apply mkdir_at_grows. Qed.

Section KeepsEntries.

Variable E : env.
Hypothesis E_keeps : git_keeps_entries E.

Lemma keeps_ret {A} (a : A) : keeps_entries (ret a).
Proof. intros w. reflexivity. Qed.

Lemma keeps_raise {A} (e : exn) : keeps_entries (@raise A e).
Proof. intros w. reflexivity. Qed.

Lemma keeps_out_of_fuel {A} : keeps_entries (@out_of_fuel A).
Proof. intros w. reflexivity. Qed.

Lemma keeps_emit e : keeps_entries (emit e).
Proof. intros w. reflexivity. Qed.

Lemma keeps_bind {A B} (c : M A) (k : A -> M B) :
  keeps_entries c -> (forall a, keeps_entries (k a)) -> keeps_entries (bind c k).
Proof.
  intros Hc Hk w. unfold bind. specialize (Hc w).
  destruct (c w) as [[a | e | ] w1]; simpl in *; auto.
  etransitivity; [exact Hc | apply Hk].
Qed.

Lemma keeps_try_except {A} (body : M A) (handler : exn -> M A) :
  keeps_entries body -> (forall e, keeps_entries (handler e)) ->
  keeps_entries (try_except body handler).
Proof.
  intros Hc Hk w. unfold try_except. specialize (Hc w).
  destruct (body w) as [[a | e | ] w1]; simpl in *; auto.
  etransitivity; [exact Hc | apply Hk].
Qed.

Lemma keeps_when b (c : M unit) : keeps_entries c -> keeps_entries (when b c).
Proof. destruct b; simpl; auto using keeps_ret. Qed.

Lemma keeps_path_exists p : keeps_entries (path_exists p).
Proof. intros w. reflexivity. Qed.

Lemma keeps_path_mkdir p parents exist_ok :
  keeps_entries (path_mkdir p parents exist_ok).
Proof.
  intros w. unfold path_mkdir.
  destruct (Fs.mkdir parents exist_ok (fs w) p) as [e | m] eqn:Hm; simpl;
    [reflexivity | eapply mkdir_grows, Hm].
Qed.

Lemma keeps_requests_get url headers : keeps_entries (requests_get E url headers).
Proof.
  intros w. unfold requests_get. destruct (http E (trace w) url headers); reflexivity.
Qed.

Lemma keeps_response_json r : keeps_entries (response_json r).
Proof. unfold response_json. destruct (json r); auto using keeps_ret, keeps_raise. Qed.

Lemma keeps_subprocess_run argv t : keeps_entries (subprocess_run E argv t).
Proof.
  intros w. unfold subprocess_run. pose proof (E_keeps (trace w) (fs w) argv) as H.
  destruct (git E (trace w) (fs w) argv) as [[rc out err | | e] m]; exact H.
Qed.

Lemma keeps_with_tqdm {A} total (body : option nat -> M A) :
  (forall pbar, keeps_entries (body pbar)) -> keeps_entries (with_tqdm total body).
Proof.
  intros Hb. unfold with_tqdm. apply keeps_bind; [apply keeps_emit |].
  intros _ w. specialize (Hb (Some total) w).
  destruct (body (Some total) w) as [r w1]. exact Hb.
Qed.

End KeepsEntries.

Ltac keeps_step :=
  match goal with
  | |- keeps_entries (bind _ _) => apply keeps_bind; [ | intros ? ]
  | |- keeps_entries (ret _) => apply keeps_ret
  | |- keeps_entries (raise _) => apply keeps_raise
  | |- keeps_entries out_of_fuel => apply keeps_out_of_fuel
  | |- keeps_entries (when _ _) => apply keeps_when
  | |- keeps_entries (emit _) => apply keeps_emit
  | |- keeps_entries (print _) => apply keeps_emit
  | |- keeps_entries (tqdm_write _) => apply keeps_emit
  | |- keeps_entries (time_sleep _) => apply keeps_emit
  | |- keeps_entries (path_exists _) => apply keeps_path_exists
  | |- keeps_entries (path_mkdir _ _ _) => apply keeps_path_mkdir
  | |- keeps_entries (requests_get _ _ _) => apply keeps_requests_get
  | |- keeps_entries (response_json _) => apply keeps_response_json
  | |- keeps_entries (subprocess_run _ _ _) => apply keeps_subprocess_run
  | |- keeps_entries (try_except _ _) => apply keeps_try_except; [ | intros ? ]
  | |- keeps_entries (with_tqdm _ _) => apply keeps_with_tqdm; intros ?
  | |- keeps_entries (if ?b then _ else _) => destruct b
  | |- keeps_entries (match ?x with _ => _ end) => destruct x
  end.

Section KeepsProgram.

Variable E : env.
Hypothesis E_keeps : git_keeps_entries E.

Lemma keeps_fetch_pages token verbose :
  forall fuel repos page, keeps_entries (fetch_pages E fuel token verbose repos page).
Proof.
  induction fuel as [| fuel IH]; intros repos page; cbn [fetch_pages];
    repeat keeps_step; auto.
Qed.

Lemma keeps_clone_or_update_repo repo base_dir token verbose pbar :
  keeps_entries (clone_or_update_repo E repo base_dir token verbose pbar).
Proof.
  unfold clone_or_update_repo, clone_or_update_body, clone_or_update_handler, report_git.
  repeat keeps_step; auto.
Qed.

Lemma keeps_process_repos base_dir token verbose pbar :
  forall repos s f, keeps_entries (process_repos E repos base_dir token verbose pbar s f).
Proof.
  induction repos as [| r rest IH]; intros s f; cbn [process_repos];
    repeat keeps_step; auto using keeps_clone_or_update_repo.
Qed.

Lemma keeps_print_repo_list :
  forall repos i, keeps_entries (print_repo_list i repos).
Proof.
  induction repos as [| r rest IH]; intros i; cbn [print_repo_list];
    repeat keeps_step; auto.
Qed.

Lemma keeps_main fuel cfg : keeps_entries (main E fuel cfg).
Proof.
  unfold main, main_setup, main_body, pass_counts, get_github_repos, summary, main_handler.
  repeat keeps_step;
    auto using keeps_fetch_pages, keeps_process_repos, keeps_print_repo_list.
Qed.

Lemma keeps_driver fuel cfg :
  forall passes, keeps_entries (driver E passes fuel cfg).
Proof.
  induction passes as [| k IH]; cbn [driver]; repeat keeps_step; auto using keeps_main.
Qed.

End KeepsProgram.

(** X12.  The script deletes nothing and overwrites nothing by itself:
    what it asks of the filesystem is to make directories that are
    missing.  So if [git] never removes an entry nor changes what an
    entry is, then after a call of [clone_or_update_repo], after a
    pass, and after any number of passes of the driver, every file and
    directory that was there before is still there, as what it was. *)
Theorem the_script_removes_nothing E :
  git_keeps_entries E ->
  (forall repo base_dir token verbose pbar w,
      fs w ⊆ fs (snd (clone_or_update_repo E repo base_dir token verbose pbar w)))
  /\ (forall fuel cfg w, fs w ⊆ fs (snd (main E fuel cfg w)))
  /\ (forall passes fuel cfg w, fs w ⊆ fs (snd (driver E passes fuel cfg w))).
Proof.
  intros HE. split; [| split].
  - intros repo base_dir token verbose pbar w.
    now apply keeps_clone_or_update_repo.
  - intros fuel cfg w. now apply keeps_main.
  - intros passes fuel cfg w. now apply keeps_driver.
Qed.

Lemma the_script_removes_nothing_witness :
  git_keeps_entries Sample.env_clone_fails
  /\ fs Sample.collided_mirror
     ⊆ fs (snd (driver Sample.env_clone_fails 2 10 (Sample.cli false (Some "TOKEN"))
                  Sample.collided_mirror)).
Proof.
  assert (H : git_keeps_entries Sample.env_clone_fails)
    by (intros hist m argv; reflexivity).
  split; [exact H |].
  destruct (the_script_removes_nothing Sample.env_clone_fails H) as (_ & _ & Hd).
  apply Hd.
Defined.

(** ** The listing as the forge sends it *)

Lemma read_descriptor_holds obj repo w :
  holds obj repo -> read_descriptor obj w = (Ok repo, w).
Proof.
  intros [Hn Hu]. unfold read_descriptor. rewrite Hn, Hu. now destruct repo.
Qed.

Lemma clone_or_update_object_holds E obj repo base_dir token verbose pbar w :
  holds obj repo ->
  clone_or_update_object E obj base_dir token verbose pbar w
  = clone_or_update_repo E repo base_dir token verbose pbar w.
Proof.
  intros H. unfold clone_or_update_object, bind.
  now rewrite (read_descriptor_holds obj repo w H).
Qed.

(** One turn of the loop on an object that holds a descriptor is the
    turn on that descriptor. *)
Lemma process_objects_turn E obj repo objs base_dir token verbose pbar s f w :
  holds obj repo ->
  process_objects E (obj :: objs) base_dir token verbose pbar s f w
  = bind (when verbose
            (tqdm_write (nl ++ "[VERBOSE] ========== Processing "
                         ++ full_name repo ++ " ===========")))
         (fun _ =>
            bind (clone_or_update_repo E repo base_dir token verbose pbar)
                 (fun ok =>
                    bind (emit (PbarUpdate 1))
                         (fun _ =>
                            if ok
                            then process_objects E objs base_dir token verbose pbar
                                   (S s) f
                            else process_objects E objs base_dir token verbose pbar
                                   s (S f)))) w.
Proof.
  intros H. cbn [process_objects]. destruct H as [Hn Hu]. rewrite Hn. cbn [json_str].
  unfold bind.
  destruct (when verbose _ w) as [[[] | e | ] w0]; try reflexivity.
  now rewrite (clone_or_update_object_holds E obj repo base_dir token verbose pbar w0
                 (conj Hn Hu)).
Qed.

(** X13.  On a listing whose objects all hold the two keys as strings,
    whatever else they hold, the loop over the decoded objects is the
    loop over the descriptors: the record of two strings loses nothing
    of what the script does with such a listing. *)
Theorem a_well_formed_listing_is_a_list_of_descriptors
        E base_dir token verbose pbar objs repos :
  Forall2 holds objs repos ->
  forall s f w,
    process_objects E objs base_dir token verbose pbar s f w
    = process_repos E repos base_dir token verbose pbar s f w.
Proof.
  induction 1 as [| obj repo objs repos Hh _ IH]; intros s f w; [reflexivity |].
  rewrite (process_objects_turn E obj repo objs base_dir token verbose pbar s f w Hh).
  cbn [process_repos]. unfold bind.
  destruct (when verbose _ w) as [[[] | e | ] w0]; try reflexivity.
  destruct (clone_or_update_repo E repo base_dir token verbose pbar w0)
    as [[[] | e | ] w1]; try reflexivity; simpl; apply IH.
Qed.

Lemma a_well_formed_listing_is_a_list_of_descriptors_witness :
  Forall2 holds [object_of Sample.alice_foo; object_of Sample.bob_bar]
          [Sample.alice_foo; Sample.bob_bar]
  /\ process_objects Sample.env_ok [object_of Sample.alice_foo; object_of Sample.bob_bar]
       Sample.repos_dir "TOKEN" false (Some 2) 0 0 Sample.empty_mirror
     = process_repos Sample.env_ok [Sample.alice_foo; Sample.bob_bar]
         Sample.repos_dir "TOKEN" false (Some 2) 0 0 Sample.empty_mirror.
Proof.
  assert (H : Forall2 holds [object_of Sample.alice_foo; object_of Sample.bob_bar]
                      [Sample.alice_foo; Sample.bob_bar])
    by (repeat constructor).
  split; [exact H |].
  apply (a_well_formed_listing_is_a_list_of_descriptors Sample.env_ok Sample.repos_dir
           "TOKEN" false (Some 2) _ _ H).
Defined.

(** ** [--verbose] and the listing as decoded *)

Lemma process_objects_holds E base_dir token verbose pbar objs repos :
  Forall2 holds objs repos ->
  forall s f w,
    process_objects E objs base_dir token verbose pbar s f w
    = process_repos E repos base_dir token verbose pbar s f w.
Proof.
  induction 1 as [| obj repo objs repos Hh _ IH]; intros s f w; [reflexivity |].
  rewrite (process_objects_turn E obj repo objs base_dir token verbose pbar s f w Hh).
  cbn [process_repos]. unfold bind.
  destruct (when verbose _ w) as [[[] | e | ] w0]; try reflexivity.
  destruct (clone_or_update_repo E repo base_dir token verbose pbar w0)
    as [[[] | e | ] w1]; try reflexivity; simpl; apply IH.
Qed.

Lemma print_object_list_holds objs repos :
  Forall2 holds objs repos ->
  forall i w, print_object_list i objs w = print_repo_list i repos w.
Proof.
  induction 1 as [| obj repo objs repos [Hn _] _ IH]; intros i w; [reflexivity |].
  cbn [print_object_list print_repo_list]. rewrite Hn. cbn [json_str].
  unfold bind. destruct (print _ w) as [[[] | e | ] w0]; try reflexivity. apply IH.
Qed.

Lemma bind_ext {A B} (c c' : M A) (k k' : A -> M B) w :
  (forall w, c w = c' w) -> (forall a w, k a w = k' a w) -> bind c k w = bind c' k' w.
Proof.
  intros Hc Hk. unfold bind. rewrite Hc.
  destruct (c' w) as [[a | e | ] w1]; auto.
Qed.

Lemma object_of_holds repos : Forall2 holds (map object_of repos) repos.
Proof.
  induction repos as [| r rest IH]; constructor; [| exact IH].
  unfold holds, object_of. split; [apply lookup_insert_eq |].
  rewrite lookup_insert_ne by discriminate. apply lookup_insert_eq.
Qed.

(** Once the enumeration has returned, [main] goes on as
    [pass_on_listing] does on the objects of the descriptors listed. *)
Lemma main_continues_on_the_listing E fuel token base_dir verbose w1 repos w2 :
  get_github_repos E fuel token verbose w1 = (Ok repos, w2) ->
  try_except (main_body E fuel token base_dir verbose) (main_handler verbose) w1
  = pass_on_listing E (map object_of repos) token base_dir verbose w2.
Proof.
  intros Hget. pose proof (object_of_holds repos) as Hwf.
  unfold pass_on_listing, listed_counts, try_except, main_body, pass_counts.
  rewrite length_map.
  unfold bind at 1 2. rewrite Hget.
  match goal with
  | |- match ?a with _ => _ end = match ?b with _ => _ end =>
      assert (Heq : a = b); [| now rewrite Heq]
  end.
  fold (bind (A := nat * nat) (B := Z)).
  apply bind_ext; [| reflexivity].
  intros w. apply bind_ext; [reflexivity |]. intros _ w'.
  apply bind_ext.
  - intros w''. destruct verbose; [| reflexivity]. cbn [when].
    apply bind_ext; [reflexivity |]. intros _ w3.
    apply bind_ext; [| reflexivity].
    intros w4. symmetry. now apply print_object_list_holds.
  - intros _ w''. apply bind_ext; [reflexivity |]. intros _ w3.
    unfold with_tqdm. apply bind_ext; [reflexivity |]. intros _ w4.
    now rewrite (process_objects_holds E base_dir token verbose _ _ repos Hwf).
Qed.

Section SimListing.

Variable E : env.
Hypothesis E_deaf : deaf_to_diagnostics E.
Variables (objs : list (gmap string json_value)) (repos : list repo_data).
Hypothesis well_formed : Forall2 holds objs repos.

Lemma sim_process_objects base_dir token pbar s f :
  sim (process_objects E objs base_dir token true pbar s f)
      (process_objects E objs base_dir token false pbar s f).
Proof.
  intros wv wq H.
  rewrite !(process_objects_holds E base_dir token _ pbar objs repos well_formed).
  now apply sim_process_repos.
Qed.

Lemma chatter_print_object_list i : chatter (print_object_list i objs).
Proof.
  intros w. rewrite (print_object_list_holds objs repos well_formed).
  apply chatter_print_repo_list.
Qed.

Lemma sim_pass_on_listing token base_dir :
  sim (pass_on_listing E objs token base_dir true)
      (pass_on_listing E objs token base_dir false).
Proof.
  unfold pass_on_listing, listed_counts.
  repeat sim_step;
    auto using sim_process_objects, chatter_print_object_list, sim_summary,
      sim_main_handler.
Qed.

Lemma only_pass_on_listing P token base_dir verbose :
  (forall e, is_run e = false -> P e) ->
  (forall argv, P (Run argv git_timeout)) ->
  only P (pass_on_listing E objs token base_dir verbose).
Proof.
  intros Hother Hgit.
  assert (Hloop : forall pbar,
             only P (process_objects E objs base_dir token verbose pbar 0 0)).
  { intros pbar w.
    rewrite (process_objects_holds E base_dir token verbose pbar objs repos well_formed).
    now apply only_process_repos. }
  assert (Hlist : only P (print_object_list 1 objs)).
  { intros w. rewrite (print_object_list_holds objs repos well_formed).
    now apply only_print_repo_list. }
  unfold pass_on_listing, listed_counts.
  repeat only_step; auto using only_summary, only_main_handler.
Qed.

Lemma quiet_pass_on_listing token base_dir :
  only plain_event (pass_on_listing E objs token base_dir false).
Proof.
  assert (Hloop : forall pbar,
             only plain_event (process_objects E objs base_dir token false pbar 0 0)).
  { intros pbar w.
    rewrite (process_objects_holds E base_dir token false pbar objs repos well_formed).
    apply quiet_process_repos. }
  unfold pass_on_listing, listed_counts, summary, main_handler.
  cbv beta iota delta [when]. repeat quiet_step; auto.
Qed.

End SimListing.

(** X11.  On listings of well-formed descriptors, [--verbose] adds
    diagnostics and changes nothing else.  The forge of this model
    serves descriptors, objects whose two keys are there as strings; as
    long as it and [git] do not read the diagnostics of the script, a
    pass, and any number of passes of the driver, started with and
    without the flag end with the same value and the same filesystem;
    and the trace without the flag is the trace with the flag from which
    the lines tagged "[VERBOSE]" (and the empty line after the verbose
    listing) are removed: the same requests, pauses, directories made,
    processes spawned and lines of report, in the same order.  The same
    holds of the rest of a pass on the objects as decoded, whatever else
    they hold, provided each holds the two keys as strings.  It does not
    hold of a listing with an object that lacks its full name: see
    X14. *)
Theorem verbose_only_adds_diagnostics E fuel cfg w :
  deaf_to_diagnostics E ->
  (fst (main E fuel (with_verbose true cfg) w)
   = fst (main E fuel (with_verbose false cfg) w)
   /\ fs (snd (main E fuel (with_verbose true cfg) w))
      = fs (snd (main E fuel (with_verbose false cfg) w))
   /\ exists evs_v evs_q,
        trace (snd (main E fuel (with_verbose true cfg) w)) = (trace w ++ evs_v)%list
        /\ trace (snd (main E fuel (with_verbose false cfg) w)) = (trace w ++ evs_q)%list
        /\ evs_q = without_diagnostics evs_v)
  /\ (forall passes,
       fst (driver E passes fuel (with_verbose true cfg) w)
       = fst (driver E passes fuel (with_verbose false cfg) w)
       /\ fs (snd (driver E passes fuel (with_verbose true cfg) w))
          = fs (snd (driver E passes fuel (with_verbose false cfg) w))
       /\ exists evs_v evs_q,
            trace (snd (driver E passes fuel (with_verbose true cfg) w))
            = (trace w ++ evs_v)%list
            /\ trace (snd (driver E passes fuel (with_verbose false cfg) w))
               = (trace w ++ evs_q)%list
            /\ evs_q = without_diagnostics evs_v)
  /\ (forall objs repos token base_dir,
       Forall2 holds objs repos ->
       fst (pass_on_listing E objs token base_dir true w)
       = fst (pass_on_listing E objs token base_dir false w)
       /\ fs (snd (pass_on_listing E objs token base_dir true w))
          = fs (snd (pass_on_listing E objs token base_dir false w))
       /\ exists evs_v evs_q,
            trace (snd (pass_on_listing E objs token base_dir true w))
            = (trace w ++ evs_v)%list
            /\ trace (snd (pass_on_listing E objs token base_dir false w))
               = (trace w ++ evs_q)%list
            /\ evs_q = without_diagnostics evs_v).
Proof.
  intros Hdeaf. split; [| split].
  - apply sim_traces.
    + now apply sim_main.
    + apply only_main; [intros; exact I | intros; exact I].
    + apply quiet_main.
  - intros passes. apply sim_traces.
    + now apply sim_driver.
    + apply only_driver; [intros; exact I | intros; exact I].
    + apply quiet_driver.
  - intros objs repos token base_dir Hwf. apply sim_traces.
    + now apply (sim_pass_on_listing E Hdeaf objs repos).
    + apply (only_pass_on_listing E objs repos Hwf); intros; exact I.
    + apply (quiet_pass_on_listing E objs repos Hwf).
Qed.

Lemma verbose_only_adds_diagnostics_witness :
  deaf_to_diagnostics Sample.env_ok
  /\ fst (main Sample.env_ok 10 (with_verbose true (Sample.cli false (Some "TOKEN")))
            Sample.empty_mirror)
     = fst (main Sample.env_ok 10 (with_verbose false (Sample.cli false (Some "TOKEN")))
              Sample.empty_mirror)
  /\ fs (snd (main Sample.env_ok 10 (with_verbose true (Sample.cli false (Some "TOKEN")))
                Sample.empty_mirror))
     = fs (snd (main Sample.env_ok 10 (with_verbose false (Sample.cli false (Some "TOKEN")))
                  Sample.empty_mirror))
  /\ Forall2 holds [object_of Sample.alice_foo; object_of Sample.bob_bar]
             [Sample.alice_foo; Sample.bob_bar]
  /\ fs (snd (pass_on_listing Sample.env_ok
                [object_of Sample.alice_foo; object_of Sample.bob_bar]
                "TOKEN" Sample.repos_dir true Sample.empty_mirror))
     = fs (snd (pass_on_listing Sample.env_ok
                  [object_of Sample.alice_foo; object_of Sample.bob_bar]
                  "TOKEN" Sample.repos_dir false Sample.empty_mirror)).
Proof.
  assert (Hdeaf : deaf_to_diagnostics Sample.env_ok)
    by (intros h h' _; split; reflexivity).
  assert (Hwf : Forall2 holds [object_of Sample.alice_foo; object_of Sample.bob_bar]
                        [Sample.alice_foo; Sample.bob_bar])
    by (repeat constructor).
  split; [exact Hdeaf |].
  destruct (verbose_only_adds_diagnostics Sample.env_ok 10
              (Sample.cli false (Some "TOKEN")) Sample.empty_mirror Hdeaf)
    as ((Hr & Hfs & _) & _ & Hl).
  split; [exact Hr |]. split; [exact Hfs |]. split; [exact Hwf |].
  destruct (Hl _ _ "TOKEN" Sample.repos_dir Hwf) as (_ & Hfs' & _). exact Hfs'.
Defined.

(** ** A listing with a nameless object *)

(** The loop prints nothing: what it says goes through [tqdm.write]. *)
Lemma process_repos_prints_nothing E base_dir token pbar :
  forall repos s f,
    only (fun e => printed [e] = [])
         (process_repos E repos base_dir token false pbar s f).
Proof.
  induction repos as [| r rest IH]; intros s f; cbn [process_repos].
  - apply only_ret.
  - unfold clone_or_update_repo, clone_or_update_body, clone_or_update_handler.
    cbv beta iota delta [when]. repeat only_step; auto.
Qed.

Lemma printed_nothing (evs : list event) :
  Forall (fun e => printed [e] = []) evs -> printed evs = [].
Proof.
  induction 1 as [| e evs He _ IH]; [reflexivity |].
  destruct e; try exact IH. discriminate He.
Qed.

Lemma printed_app (a b : list event) : printed (a ++ b) = (printed a ++ printed b)%list.
Proof. apply flat_map_app. Qed.

(** The quiet loop on a listing with a nameless object: the objects
    before it are processed as their descriptors are, then the subscript
    raises. *)
Lemma process_objects_nameless E base_dir token pbar good repos bad rest :
  Forall2 holds good repos ->
  bad !! "full_name" = None ->
  forall s f w,
  exists s1 f1 w1,
    process_repos E repos base_dir token false pbar s f w = (Ok (s1, f1), w1)
    /\ process_objects E (good ++ bad :: rest) base_dir token false pbar s f w
       = (Raise (key_error "full_name"), w1).
Proof.
  intros Hgood Hbad.
  induction Hgood as [| obj repo good repos Hh _ IH]; intros s f w.
  - exists s, f, w. split; [reflexivity |].
    cbn [app process_objects]. unfold bind, clone_or_update_object, read_descriptor.
    rewrite Hbad. reflexivity.
  - cbn [app].
    rewrite (process_objects_turn E obj repo _ base_dir token false pbar s f w Hh).
    cbn [process_repos]. unfold bind at 1 4. cbn [when ret].
    unfold bind at 1 3.
    destruct (clone_or_update_total E repo base_dir token false pbar w)
      as (b & w1 & ->).
    unfold bind at 1 2. cbn [emit].
    destruct b; apply IH.
Qed.

(** The verbose listing on such a listing: the names before the
    nameless object are printed, then the subscript raises. *)
Lemma print_object_list_nameless good repos bad rest :
  Forall2 holds good repos ->
  bad !! "full_name" = None ->
  forall i w,
  exists evs,
    print_object_list i (good ++ bad :: rest) w
    = (Raise (key_error "full_name"), mkWorld (fs w) (trace w ++ evs))
    /\ evs = map Print (printed evs).
Proof.
  intros Hgood Hbad.
  induction Hgood as [| obj repo good repos [Hn _] _ IH]; intros i w.
  - exists []. cbn [app print_object_list]. rewrite Hbad, app_nil_r.
    destruct w. split; reflexivity.
  - cbn [app print_object_list]. rewrite Hn. cbn [json_str].
    unfold bind at 1, print at 1, emit at 1.
    match goal with
    | |- context [print_object_list ?j _ ?w'] =>
        destruct (IH j w') as (evs & -> & Hevs)
    end.
    cbn [fs trace].
    exists (Print ("[VERBOSE]   " ++ PyStr.of_nat i ++ ". " ++ full_name repo) :: evs).
    split; [now rewrite <- app_assoc |].
    cbn [printed flat_map app map]. f_equal. exact Hevs.
Qed.

(** X14.  An object of the listing without the key "full_name" makes
    the pass fail with a [KeyError], at a place that depends on the
    flag.  Without [--verbose] the subscript is first evaluated in
    [clone_or_update_repo], outside its [try]: the objects before the
    nameless one have been processed as their descriptors are, the
    exception ends the loop, the counts are lost with it, the objects
    after it are not attempted, and [main] prints the fatal error, no
    summary, and returns 1.  With [--verbose] the subscript is first
    evaluated in the listing of the names, before the loop: the pass
    prints, does nothing else, and returns 1; no object is processed. *)
Theorem an_object_without_full_name_aborts_the_loop
        E base_dir token good repos bad rest w :
  Forall2 holds good repos ->
  bad !! "full_name" = None ->
  (forall pbar s f,
      exists s1 f1 w1,
        process_repos E repos base_dir token false pbar s f w = (Ok (s1, f1), w1)
        /\ process_objects E (good ++ bad :: rest) base_dir token false pbar s f w
           = (Raise (key_error "full_name"), w1))
  /\ (exists m evs parts,
         pass_on_listing E (good ++ bad :: rest) token base_dir false w
         = (Ok 1%Z, mkWorld m (trace w ++ evs))
         /\ actions evs = concat parts
         /\ Forall2 (acts_on base_dir token) repos parts
         /\ bar_steps evs = List.length repos
         /\ printed evs
            = [nl ++ "Found " ++ PyStr.of_nat (List.length (good ++ bad :: rest))
               ++ " total repositories" ++ nl;
               nl ++ "Fatal error: 'full_name'"])
  /\ (exists evs,
         pass_on_listing E (good ++ bad :: rest) token base_dir true w
         = (Ok 1%Z, mkWorld (fs w) (trace w ++ evs))
         /\ evs = map Print (printed evs)
         /\ last (printed evs) = Some (nl ++ "Fatal error: 'full_name'")).
Proof.
  intros Hgood Hbad. split; [| split].
  - intros pbar s f. now apply process_objects_nameless.
  - unfold pass_on_listing, listed_counts, try_except.
    unfold bind at 1. unfold bind at 1, print at 1, emit at 1.
    unfold bind at 1. cbn [when ret]. unfold bind at 1. cbn [when ret].
    unfold with_tqdm, bind at 1, emit at 1. cbn [fs trace].
    set (n := List.length (good ++ bad :: rest)).
    set (w0 := mkWorld (fs w)
                 ((trace w ++ [Print (nl ++ "Found " ++ PyStr.of_nat n
                                      ++ " total repositories" ++ nl)])
                  ++ [PbarOpen n])).
    destruct (process_objects_nameless E base_dir token (Some n) good repos bad rest
                Hgood Hbad 0 0 w0) as (s1 & f1 & w1 & Hr & ->).
    destruct (process_repos_acts E base_dir token false (Some n) repos 0 0 w0)
      as (counts & m & evs & parts & Ha & Hacts & Hparts).
    destruct (process_repos_facts E base_dir token false (Some n) repos 0 0 w0)
      as (s' & f' & m' & evs' & Hf & _ & _ & _ & _ & Hbar & _).
    destruct (process_repos_prints_nothing E base_dir token (Some n) repos 0 0 w0)
      as (evs'' & Hp & Fp).
    rewrite Hr in Ha, Hf, Hp. cbn [snd] in Hp.
    injection Ha as _ ->. injection Hf as _ _ _ Hf. cbn [trace] in Hp.
    apply app_inv_head in Hf. apply app_inv_head in Hp. subst evs' evs''.
    unfold main_handler, bind, when, print, emit, ret. cbn [fs trace].
    exists m,
      ([Print (nl ++ "Found " ++ PyStr.of_nat n ++ " total repositories" ++ nl)]
       ++ [PbarOpen n] ++ evs ++ [PbarClose]
       ++ [Print (nl ++ "Fatal error: " ++ exn_msg (key_error "full_name"))])%list,
      parts.
    split; [subst w0; cbn [trace]; now rewrite <- !app_assoc |].
    rewrite !actions_app, !bar_steps_app, !printed_app, Hacts, Hbar,
      (printed_nothing evs Fp).
    repeat split; auto.
    cbn [actions List.filter is_action app]. now rewrite app_nil_r.
  - unfold pass_on_listing, listed_counts, try_except.
    unfold bind at 1. unfold bind at 1, print at 1, emit at 1.
    unfold bind at 1. cbn [when]. unfold bind at 1, print at 1, emit at 1.
    cbn [fs trace]. unfold bind at 1.
    set (n := List.length (good ++ bad :: rest)).
    match goal with
    | |- context [print_object_list 1 _ ?w'] =>
        destruct (print_object_list_nameless good repos bad rest Hgood Hbad 1 w')
          as (evs & -> & Hevs)
    end.
    cbn [fs trace].
    unfold main_handler, bind, when, print, emit, ret. cbn [fs trace].
    exists ([Print (nl ++ "Found " ++ PyStr.of_nat n ++ " total repositories" ++ nl);
             Print "[VERBOSE] Repository list:"]
            ++ evs
            ++ [Print (nl ++ "[VERBOSE] Fatal exception: "
                       ++ exn_class (key_error "full_name"));
                Print (nl ++ "Fatal error: " ++ exn_msg (key_error "full_name"))])%list.
    split; [now rewrite <- !app_assoc |].
    rewrite !printed_app, !map_app, <- Hevs. split; [reflexivity |].
    rewrite app_assoc, last_app. reflexivity.
Qed.

Lemma an_object_without_full_name_aborts_the_loop_witness :
  Forall2 holds [object_of Sample.alice_foo] [Sample.alice_foo]
  /\ More.nameless !! "full_name" = None
  /\ (exists m evs parts,
         pass_on_listing Sample.env_ok More.broken_listing "TOKEN" Sample.repos_dir
           false Sample.empty_mirror
         = (Ok 1%Z, mkWorld m (trace Sample.empty_mirror ++ evs))
         /\ actions evs = concat parts
         /\ Forall2 (acts_on Sample.repos_dir "TOKEN") [Sample.alice_foo] parts)
  /\ (exists evs,
         pass_on_listing Sample.env_ok More.broken_listing "TOKEN" Sample.repos_dir
           true Sample.empty_mirror
         = (Ok 1%Z, mkWorld (fs Sample.empty_mirror) (trace Sample.empty_mirror ++ evs))
         /\ evs = map Print (printed evs)).
Proof.
  assert (H : Forall2 holds [object_of Sample.alice_foo] [Sample.alice_foo])
    by (repeat constructor).
  assert (Hbad : More.nameless !! "full_name" = None) by reflexivity.
  split; [exact H |]. split; [exact Hbad |].
  destruct (an_object_without_full_name_aborts_the_loop Sample.env_ok Sample.repos_dir
              "TOKEN" _ _ More.nameless [object_of Sample.bob_bar]
              Sample.empty_mirror H Hbad)
    as (_ & (m & evs & parts & Hq & Ha & Hp & _) & (evs' & Hv & Hevs & _)).
  split.
  - exists m, evs, parts. split; [exact Hq |]. split; [exact Ha | exact Hp].
  - exists evs'. split; [exact Hv | exact Hevs].
Defined.

(** On the broken listing the flag decides what is cloned: without it
    [alice/foo] is cloned before the pass fails, with it nothing is. *)
Example verbose_changes_a_pass_on_a_broken_listing :
  List.map fst
    (runs (trace (snd (pass_on_listing Sample.env_ok More.broken_listing "TOKEN"
                         Sample.repos_dir false Sample.empty_mirror))))
  = [["git"; "clone"; "https://TOKEN@github.com/alice/foo.git"; "repos/alice/foo"]]
  /\ runs (trace (snd (pass_on_listing Sample.env_ok More.broken_listing "TOKEN"
                         Sample.repos_dir true Sample.empty_mirror)))
     = []
  /\ printed (trace (snd (pass_on_listing Sample.env_ok More.broken_listing "TOKEN"
                            Sample.repos_dir true Sample.empty_mirror)))
     = [nl ++ "Found 3 total repositories" ++ nl;
        "[VERBOSE] Repository list:";
        "[VERBOSE]   1. alice/foo";
        nl ++ "[VERBOSE] Fatal exception: KeyError";
        nl ++ "Fatal error: 'full_name'"].
Proof. vm_compute. repeat split; reflexivity. Qed.

(** ** Directories that are already there *)

Lemma mkdir_existing parents m p :
  Fs.is_dir m p = true ->
  Fs.entry m (PurePath.parent p) = Some Dir ->
  Fs.mkdir parents true m p = inr m.
Proof.
  intros Hd Hp.
  assert (Hos : exists e, Fs.os_mkdir m p = inl e /\ is_not_found e = false).
  { unfold Fs.os_mkdir. unfold Fs.is_dir in Hd.
    destruct (parts p) eqn:Hparts; [eexists; split; reflexivity |].
    rewrite Hp. destruct (Fs.entry m p); [| discriminate].
    eexists; split; reflexivity. }
  destruct Hos as (e & Hos & He).
  unfold Fs.mkdir.
  destruct (List.length (parts p)); cbn [Fs.mkdir_at]; rewrite Hos, He, Hd; reflexivity.
Qed.

(** X15.  A directory that is already there is not an error, at either
    place where the script makes one.  When the base directory exists,
    the setup of a pass leaves the filesystem as it is and hands the
    token and the base directory to the rest of the pass.  When the
    directory of the owner exists and the target path does not, the
    call leaves the filesystem as it is and [git clone] runs in it. *)
Theorem existing_directories_are_accepted E cfg c t :
  GITHUB_TOKEN cfg = Some (String c t) ->
  (forall w,
      Fs.is_dir (fs w) (base_dir_of cfg) = true ->
      Fs.entry (fs w) (PurePath.parent (base_dir_of cfg)) = Some Dir ->
      exists evs,
        main_setup cfg w
        = (Ok (Some (String c t, base_dir_of cfg)), mkWorld (fs w) (trace w ++ evs))
        /\ actions evs = [Mkdir (base_dir_of cfg) false true])
  /\ (forall repo w,
         Fs.exists_ (fs w) (repo_path (base_dir_of cfg) repo) = false ->
         Fs.is_dir (fs w) (PurePath.parent (repo_path (base_dir_of cfg) repo)) = true ->
         Fs.entry (fs w)
                  (PurePath.parent (PurePath.parent (repo_path (base_dir_of cfg) repo)))
         = Some Dir ->
         exists hist evs,
           clone_or_update_repo E repo (base_dir_of cfg) (String c t) (arg_verbose cfg)
             None w
           = (Ok (succeeded
                    (fst (git E hist (fs w)
                            (clone_argv (authenticated_url (clone_url repo) (String c t))
                                        (repo_path (base_dir_of cfg) repo))))),
              mkWorld (snd (git E hist (fs w)
                              (clone_argv (authenticated_url (clone_url repo) (String c t))
                                          (repo_path (base_dir_of cfg) repo))))
                      (trace w ++ evs))
           /\ runs evs
              = [(clone_argv (authenticated_url (clone_url repo) (String c t))
                             (repo_path (base_dir_of cfg) repo), 300%Z)]).
Proof.
  intros Htok. split.
  - intros w Hd Hp. pose proof (mkdir_existing false (fs w) _ Hd Hp) as Hmk.
    unfold base_dir_of in *.
    unfold main_setup, bind, when, print, emit, ret, path_mkdir. rewrite Htok.
    destruct (arg_verbose cfg); simpl; rewrite Hmk; simpl;
      (eexists; split; [tidy_trace; reflexivity | reflexivity]).
  - intros repo w Hex Hd Hp. pose proof (mkdir_existing true (fs w) _ Hd Hp) as Hmk.
    destruct (clone_call E repo (base_dir_of cfg) (String c t) (arg_verbose cfg) None
                w (fs w) Hex Hmk) as (hist & evs & H & Ha & _).
    exists hist, evs. split; [exact H |].
    now rewrite <- runs_actions, Ha.
Qed.

Lemma existing_directories_are_accepted_witness :
  Fs.is_dir (fs Sample.collided_mirror) Sample.repos_dir = true
  /\ exists evs,
       main_setup (Sample.cli false (Some "TOKEN")) Sample.collided_mirror
       = (Ok (Some ("TOKEN", Sample.repos_dir)),
          mkWorld (fs Sample.collided_mirror) (trace Sample.collided_mirror ++ evs))
       /\ actions evs = [Mkdir Sample.repos_dir false true].
Proof.
  split; [reflexivity |].
  destruct (existing_directories_are_accepted Sample.env_ok
              (Sample.cli false (Some "TOKEN")) "T"%char "OKEN" eq_refl) as [H _].
  apply (H Sample.collided_mirror); reflexivity.
Defined.

(** ** The listing URL *)

(** X16.  The URL of a page is the listing endpoint with the page
    number in decimal, 100 descriptors per page and the three
    affiliations; so two pages have the same URL only if they have the
    same number. *)
Theorem page_urls_differ_with_the_page i j :
  api_url i
  = "https://api.github.com/user/repos?page=" ++ PyStr.of_nat i
    ++ "&per_page=100&affiliation=owner,collaborator,organization_member"
  /\ (api_url i = api_url j -> i = j).
Proof.
  split; [reflexivity |].
  unfold api_url. intros H.
  apply (inj (String.app _)) in H.
  apply StrFacts.append_inv_tail in H.
  now apply StrFacts.of_nat_inj.
Qed.

Lemma page_urls_differ_with_the_page_witness :
  api_url 12 = api_url (3 * 4) /\ 12 = 3 * 4.
Proof.
  destruct (page_urls_differ_with_the_page 12 (3 * 4)) as [_ H].
  split; [reflexivity | apply H; reflexivity].
Defined.
